(** * The resource deployment step engine (pkg/resource/deploy/step.go)

    A shallow embedding of the step model: resource states, the provider
    interface, the [Apply] routine of the step kinds and the operation
    taxonomy with [ConstrainedTo].

    Conventions of the embedding.
    - A Go pointer that the code tests against [nil] is an [option].
    - A step holds its [old]/[new] states by value; [Apply] returns the step
      as the call leaves it, together with Go's triple
      [(resource.Status, StepCompleteFunc, error)].
    - Provider RPCs, diagnostics, the wall clock and channels live in a
      [World] threaded through a small state monad; a failed contract
      assertion or a nil dereference ends the computation in [Panic]. *)

From stdpp Require Import gmap strings list.
From Stdlib Require Import ZArith String Ascii.

Local Open Scope string_scope.
Local Open Scope Z_scope.

(** ** Basic types of the [resource], [tokens] and [plugin] packages *)

Definition resource_URN := string.
Definition resource_ID := string.
Definition tokens_Type := string.
Definition PropertyKey := string.

(** Property values are opaque to the step engine: it only moves them. *)
Definition PropertyValue := string.

(** A Go map may be [nil]; [None] is the nil map, [Some ∅] the empty one. *)
Abbreviation PropertyMap := (option (gmap string PropertyValue)).

(** [time.Time] in UTC, as nanoseconds since the epoch. *)
Definition Time := Z.

Definition isEmpty (s : string) : bool :=
  match s with EmptyString => true | String _ _ => false end.

Definition newline : string := String "010"%char EmptyString.

(** [resource.Status] *)
Inductive resource_Status := StatusOK | StatusPartialFailure | StatusUnknown.

#[global] Instance resource_Status_eq_dec : EqDecision resource_Status.
Proof. solve_decision. Defined.

Module Timeouts.
(** [resource.CustomTimeouts]: budgets in seconds. *)
Record t := mk { Create : Z; Update : Z; Delete : Z }.
End Timeouts.

Record State : Type := mkState {
  Type_ : tokens_Type;
  URN : resource_URN;
  Custom : bool;
  Delete : bool;
  ID : resource_ID;
  Inputs : PropertyMap;
  Outputs : PropertyMap;
  Parent : resource_URN;
  Protect : bool;
  External : bool;
  Dependencies : list resource_URN;
  InitErrors : list string;
  Provider : string;
  PropertyDependencies : gmap string (list resource_URN);
  PendingReplacement : bool;
  AdditionalSecretOutputs : list PropertyKey;
  Aliases : list resource_URN;
  CustomTimeouts : Timeouts.t;
  ImportID : resource_ID;
  RetainOnDelete : bool;
  DeletedWith : resource_URN;
  Created : option Time;
  Modified : option Time;
  SourcePosition : string
}.

Definition set_ID (v : resource_ID) (s : State) : State :=
  {| Type_ := Type_ s; URN := URN s; Custom := Custom s; Delete := Delete s; ID := v;
     Inputs := Inputs s; Outputs := Outputs s; Parent := Parent s; Protect := Protect s;
     External := External s; Dependencies := Dependencies s; InitErrors := InitErrors s;
     Provider := Provider s; PropertyDependencies := PropertyDependencies s;
     PendingReplacement := PendingReplacement s;
     AdditionalSecretOutputs := AdditionalSecretOutputs s; Aliases := Aliases s;
     CustomTimeouts := CustomTimeouts s; ImportID := ImportID s;
     RetainOnDelete := RetainOnDelete s; DeletedWith := DeletedWith s; Created := Created s;
     Modified := Modified s; SourcePosition := SourcePosition s |}.

Definition set_Inputs (v : PropertyMap) (s : State) : State :=
  {| Type_ := Type_ s; URN := URN s; Custom := Custom s; Delete := Delete s; ID := ID s;
     Inputs := v; Outputs := Outputs s; Parent := Parent s; Protect := Protect s;
     External := External s; Dependencies := Dependencies s; InitErrors := InitErrors s;
     Provider := Provider s; PropertyDependencies := PropertyDependencies s;
     PendingReplacement := PendingReplacement s;
     AdditionalSecretOutputs := AdditionalSecretOutputs s; Aliases := Aliases s;
     CustomTimeouts := CustomTimeouts s; ImportID := ImportID s;
     RetainOnDelete := RetainOnDelete s; DeletedWith := DeletedWith s; Created := Created s;
     Modified := Modified s; SourcePosition := SourcePosition s |}.

Definition set_Outputs (v : PropertyMap) (s : State) : State :=
  {| Type_ := Type_ s; URN := URN s; Custom := Custom s; Delete := Delete s; ID := ID s;
     Inputs := Inputs s; Outputs := v; Parent := Parent s; Protect := Protect s;
     External := External s; Dependencies := Dependencies s; InitErrors := InitErrors s;
     Provider := Provider s; PropertyDependencies := PropertyDependencies s;
     PendingReplacement := PendingReplacement s;
     AdditionalSecretOutputs := AdditionalSecretOutputs s; Aliases := Aliases s;
     CustomTimeouts := CustomTimeouts s; ImportID := ImportID s;
     RetainOnDelete := RetainOnDelete s; DeletedWith := DeletedWith s; Created := Created s;
     Modified := Modified s; SourcePosition := SourcePosition s |}.

Definition set_InitErrors (v : list string) (s : State) : State :=
  {| Type_ := Type_ s; URN := URN s; Custom := Custom s; Delete := Delete s; ID := ID s;
     Inputs := Inputs s; Outputs := Outputs s; Parent := Parent s; Protect := Protect s;
     External := External s; Dependencies := Dependencies s; InitErrors := v;
     Provider := Provider s; PropertyDependencies := PropertyDependencies s;
     PendingReplacement := PendingReplacement s;
     AdditionalSecretOutputs := AdditionalSecretOutputs s; Aliases := Aliases s;
     CustomTimeouts := CustomTimeouts s; ImportID := ImportID s;
     RetainOnDelete := RetainOnDelete s; DeletedWith := DeletedWith s; Created := Created s;
     Modified := Modified s; SourcePosition := SourcePosition s |}.

Definition set_Delete (v : bool) (s : State) : State :=
  {| Type_ := Type_ s; URN := URN s; Custom := Custom s; Delete := v; ID := ID s;
     Inputs := Inputs s; Outputs := Outputs s; Parent := Parent s; Protect := Protect s;
     External := External s; Dependencies := Dependencies s; InitErrors := InitErrors s;
     Provider := Provider s; PropertyDependencies := PropertyDependencies s;
     PendingReplacement := PendingReplacement s;
     AdditionalSecretOutputs := AdditionalSecretOutputs s; Aliases := Aliases s;
     CustomTimeouts := CustomTimeouts s; ImportID := ImportID s;
     RetainOnDelete := RetainOnDelete s; DeletedWith := DeletedWith s; Created := Created s;
     Modified := Modified s; SourcePosition := SourcePosition s |}.

Definition set_PendingReplacement (v : bool) (s : State) : State :=
  {| Type_ := Type_ s; URN := URN s; Custom := Custom s; Delete := Delete s; ID := ID s;
     Inputs := Inputs s; Outputs := Outputs s; Parent := Parent s; Protect := Protect s;
     External := External s; Dependencies := Dependencies s; InitErrors := InitErrors s;
     Provider := Provider s; PropertyDependencies := PropertyDependencies s;
     PendingReplacement := v; AdditionalSecretOutputs := AdditionalSecretOutputs s;
     Aliases := Aliases s; CustomTimeouts := CustomTimeouts s; ImportID := ImportID s;
     RetainOnDelete := RetainOnDelete s; DeletedWith := DeletedWith s; Created := Created s;
     Modified := Modified s; SourcePosition := SourcePosition s |}.

Definition set_Created (v : option Time) (s : State) : State :=
  {| Type_ := Type_ s; URN := URN s; Custom := Custom s; Delete := Delete s; ID := ID s;
     Inputs := Inputs s; Outputs := Outputs s; Parent := Parent s; Protect := Protect s;
     External := External s; Dependencies := Dependencies s; InitErrors := InitErrors s;
     Provider := Provider s; PropertyDependencies := PropertyDependencies s;
     PendingReplacement := PendingReplacement s;
     AdditionalSecretOutputs := AdditionalSecretOutputs s; Aliases := Aliases s;
     CustomTimeouts := CustomTimeouts s; ImportID := ImportID s;
     RetainOnDelete := RetainOnDelete s; DeletedWith := DeletedWith s; Created := v;
     Modified := Modified s; SourcePosition := SourcePosition s |}.

Definition set_Modified (v : option Time) (s : State) : State :=
  {| Type_ := Type_ s; URN := URN s; Custom := Custom s; Delete := Delete s; ID := ID s;
     Inputs := Inputs s; Outputs := Outputs s; Parent := Parent s; Protect := Protect s;
     External := External s; Dependencies := Dependencies s; InitErrors := InitErrors s;
     Provider := Provider s; PropertyDependencies := PropertyDependencies s;
     PendingReplacement := PendingReplacement s;
     AdditionalSecretOutputs := AdditionalSecretOutputs s; Aliases := Aliases s;
     CustomTimeouts := CustomTimeouts s; ImportID := ImportID s;
     RetainOnDelete := RetainOnDelete s; DeletedWith := DeletedWith s; Created := Created s;
     Modified := v; SourcePosition := SourcePosition s |}.

(** Modelled from the spec: [resource.NewState] is declared in
    sdk/go/common/resource, outside src/; it is taken as the constructor that
    stores each argument in the field of the same name (the timeouts pointer
    is dereferenced). *)
Definition NewState (t : tokens_Type) (urn : resource_URN) (custom del : bool) (id : resource_ID)
    (inputs outputs : PropertyMap) (parent : resource_URN) (protect external : bool)
    (dependencies : list resource_URN) (initErrors : list string) (provider : string)
    (propertyDependencies : gmap string (list resource_URN)) (pendingReplacement : bool)
    (additionalSecretOutputs : list PropertyKey) (aliases : list resource_URN)
    (timeouts : Timeouts.t) (importID : resource_ID) (retainOnDelete : bool)
    (deletedWith : resource_URN) (created modified : option Time) (sourcePosition : string)
    : State :=
  mkState t urn custom del id inputs outputs parent protect external dependencies initErrors
    provider propertyDependencies pendingReplacement additionalSecretOutputs aliases timeouts
    importID retainOnDelete deletedWith created modified sourcePosition.

(** ** Errors *)

Module plugin_error.
(** What a provider RPC may return as its [error]: the distinguished
    [*plugin.InitError], or any other error, of which only the text is kept. *)
Inductive t :=
| InitError (Reasons : list string)
| Other (msg : string).
End plugin_error.

(** Errors a step returns.  [deleteProtectedError] is unexported in package
    [deploy]: a provider cannot build one. *)
Inductive error :=
| FromProvider (e : plugin_error.t)
| errorString (msg : string)
| deleteProtectedError (urn : resource_URN).

Definition isDeleteProtected (e : error) : bool :=
  match e with deleteProtectedError _ => true | _ => false end.

(** ** Step operations ([display.StepOp] is a string type) *)

Definition StepOp := string.

Definition OpSame : StepOp := "same".
Definition OpCreate : StepOp := "create".
Definition OpUpdate : StepOp := "update".
Definition OpDelete : StepOp := "delete".
Definition OpReplace : StepOp := "replace".
Definition OpCreateReplacement : StepOp := "create-replacement".
Definition OpDeleteReplaced : StepOp := "delete-replaced".
Definition OpRead : StepOp := "read".
Definition OpReadReplacement : StepOp := "read-replacement".
Definition OpRefresh : StepOp := "refresh".
Definition OpReadDiscard : StepOp := "discard".
Definition OpDiscardReplaced : StepOp := "discard-replaced".
Definition OpRemovePendingReplace : StepOp := "remove-pending-replace".
Definition OpImport : StepOp := "import".
Definition OpImportReplacement : StepOp := "import-replacement".

Definition StepOps : list StepOp :=
  [ OpSame; OpCreate; OpUpdate; OpDelete; OpReplace; OpCreateReplacement; OpDeleteReplaced;
    OpRead; OpReadReplacement; OpRefresh; OpReadDiscard; OpDiscardReplaced;
    OpRemovePendingReplace; OpImport; OpImportReplacement ].

(** [case c1, c2, ...:] of a Go [switch] on a string. *)
Definition oneOf (x : StepOp) (cases : list StepOp) : bool :=
  existsb (String.eqb x) cases.

(** [ConstrainedTo] returns true if this operation is no more impactful than
    the constraint.  A constraint matching no case leaves [allowed] nil. *)
Definition ConstrainedTo (op constraint : StepOp) : bool :=
  let allowed : list StepOp :=
    if oneOf constraint [ OpSame; OpDelete; OpRead; OpReadReplacement; OpRefresh; OpReadDiscard;
                          OpDiscardReplaced; OpRemovePendingReplace; OpImport;
                          OpImportReplacement ]
    then [ constraint ]
    else if oneOf constraint [ OpCreate ] then [ OpSame; OpCreate ]
    else if oneOf constraint [ OpUpdate ] then [ OpSame; OpUpdate ]
    else if oneOf constraint [ OpReplace; OpCreateReplacement; OpDeleteReplaced ]
    then [ OpSame; OpUpdate; constraint ]
    else [] in
  existsb (fun candidate => String.eqb candidate op) allowed.

(** The table of the specification (section 4.11), written from its rows. *)
Definition spec_allowed (constraint : StepOp) : list StepOp :=
  if oneOf constraint [ "same"; "delete"; "read"; "read-replacement"; "refresh"; "discard";
                        "discard-replaced"; "remove-pending-replace"; "import";
                        "import-replacement" ]
  then [ constraint ]
  else if String.eqb constraint "create" then [ "same"; "create" ]
  else if String.eqb constraint "update" then [ "same"; "update" ]
  else if oneOf constraint [ "replace"; "create-replacement"; "delete-replaced" ]
  then [ "same"; "update"; constraint ]
  else [].

Definition spec_table (op constraint : StepOp) : bool :=
  bool_decide (op ∈ spec_allowed constraint).

(** ** The provider interface and the world around a step *)

Module plugin.
(** [plugin.ReadResult] *)
Record ReadResult := mkRead { rID : resource_ID; rInputs : PropertyMap; rOutputs : PropertyMap }.

(** [plugin.CheckFailure] *)
Record CheckFailure := mkFailure { Property : PropertyKey; Reason : string }.

(** [plugin.DiffChanges] and the part of [plugin.DiffResult] the steps read. *)
Inductive DiffChanges := DiffUnknown | DiffNone | DiffSome.

Record DiffResult := mkDiff {
  Changes : DiffChanges;
  ChangedKeys : list PropertyKey;
  DetailedDiff : gmap string string
}.

(** A provider answers each RPC as a function of the request. *)
Record Provider := mkProvider {
  onCreate : resource_URN -> PropertyMap -> Z -> bool ->
             resource_ID * PropertyMap * resource_Status * option plugin_error.t;
  onUpdate : resource_URN -> resource_ID -> PropertyMap -> PropertyMap -> PropertyMap -> Z ->
             list string -> bool -> PropertyMap * resource_Status * option plugin_error.t;
  onDelete : resource_URN -> resource_ID -> PropertyMap -> PropertyMap -> Z ->
             resource_Status * option plugin_error.t;
  onRead : resource_URN -> resource_ID -> PropertyMap -> PropertyMap ->
           ReadResult * resource_Status * option plugin_error.t;
  onCheck : resource_URN -> PropertyMap -> PropertyMap -> bool -> list Z ->
            PropertyMap * list CheckFailure * option plugin_error.t
}.

(** The RPCs a mock provider would record. *)
Inductive RPC :=
| CreateRPC (urn : resource_URN) (inputs : PropertyMap) (timeout : Z) (preview : bool)
| UpdateRPC (urn : resource_URN) (id : resource_ID) (oldIns oldOuts newIns : PropertyMap)
            (timeout : Z) (ignoreChanges : list string) (preview : bool)
| DeleteRPC (urn : resource_URN) (id : resource_ID) (inputs outputs : PropertyMap) (timeout : Z)
| ReadRPC (urn : resource_URN) (id : resource_ID) (inputs state : PropertyMap)
| CheckRPC (urn : resource_URN) (olds news : PropertyMap) (preview : bool).

Definition isDeleteRPC (r : RPC) : bool :=
  match r with DeleteRPC _ _ _ _ _ => true | _ => false end.

End plugin.

(** [diag] messages the steps emit. *)
Inductive DiagKind := Message | RawMessage | StreamMessage.
Inductive Severity := Warning | Error.
Record Diag := mkDiag { sev : Severity; kind : DiagKind; about : resource_URN; text : string }.

(** A registration event completed with a state. *)
Inductive Signal :=
| RegisterDone (reg : nat) (state : State).

Record World := mkWorld {
  rpcs : list plugin.RPC;     (* provider calls so far, oldest first *)
  diags : list Diag;          (* diagnostics so far, oldest first *)
  signals : list Signal;      (* completions so far, oldest first *)
  closed : list nat;          (* the channels closed so far *)
  clock : Time                (* what [time.Now().UTC()] reads *)
}.

Inductive Result (A : Type) :=
| Ok (a : A) (w : World)
| Panic (msg : string).
Arguments Ok {A} a w.
Arguments Panic {A} msg.

Definition M (A : Type) : Type := World -> Result A.

#[global] Instance M_ret : MRet M := fun A a w => Ok a w.
#[global] Instance M_bind : MBind M :=
  fun A B f m w => match m w with Ok a w' => f a w' | Panic msg => Panic msg end.

Definition panic {A} (msg : string) : M A := fun _ => Panic msg.

(** [contract.Assertf] / [contract.Requiref] *)
Definition Assertf (cond : bool) (msg : string) : M unit :=
  if cond then mret tt else panic msg.

(** Dereference of a pointer that may be nil. *)
Definition deref {A} (p : option A) : M A :=
  match p with Some a => mret a | None => panic "nil pointer dereference" end.

Definition time_Now : M Time := fun w => Ok (clock w) w.

Definition call (r : plugin.RPC) : M unit :=
  fun w => Ok tt (mkWorld (rpcs w ++ [r])%list (diags w) (signals w) (closed w) (clock w)).

Definition emit (d : Diag) : M unit :=
  fun w => Ok tt (mkWorld (rpcs w) (diags w ++ [d])%list (signals w) (closed w) (clock w)).

(** [close(ch)]: closing a closed channel panics. *)
Definition close (ch : nat) : M unit :=
  fun w => if bool_decide (ch ∈ closed w) then Panic "close of closed channel"
           else Ok tt (mkWorld (rpcs w) (diags w) (signals w) (ch :: closed w) (clock w)).

Definition signal (s : Signal) : M unit :=
  fun w => Ok tt (mkWorld (rpcs w) (diags w) (signals w ++ [s])%list (closed w) (clock w)).

Definition Warningf (k : DiagKind) (urn : resource_URN) (msg : string) : M unit :=
  emit (mkDiag Warning k urn msg).

Definition Errorf (k : DiagKind) (urn : resource_URN) (msg : string) : M unit :=
  emit (mkDiag Error k urn msg).

(** The RPCs as the steps invoke them: the call is recorded, the provider's
    answer returned. *)
Definition prov_Create (p : plugin.Provider) urn inputs timeout preview :=
  call (plugin.CreateRPC urn inputs timeout preview);;
  mret (plugin.onCreate p urn inputs timeout preview).

Definition prov_Update (p : plugin.Provider) urn id oldIns oldOuts newIns timeout ignoreChanges
    preview :=
  call (plugin.UpdateRPC urn id oldIns oldOuts newIns timeout ignoreChanges preview);;
  mret (plugin.onUpdate p urn id oldIns oldOuts newIns timeout ignoreChanges preview).

Definition prov_Delete (p : plugin.Provider) urn id inputs outputs timeout :=
  call (plugin.DeleteRPC urn id inputs outputs timeout);;
  mret (plugin.onDelete p urn id inputs outputs timeout).

Definition prov_Read (p : plugin.Provider) urn id inputs state :=
  call (plugin.ReadRPC urn id inputs state);;
  mret (plugin.onRead p urn id inputs state).

Definition prov_Check (p : plugin.Provider) urn olds news preview (randomSeed : list Z) :=
  call (plugin.CheckRPC urn olds news preview);;
  mret (plugin.onCheck p urn olds news preview randomSeed).

(** ** Completion callbacks

    A [StepCompleteFunc] is a closure; the four bodies that step.go builds
    are the constructors, and [run] is the call of the closure.  [nil] is
    [None] at the type [option StepCompleteFunc]. *)
Inductive StepCompleteFunc :=
| DoneReg (reg : option nat)     (* func() { s.reg.Done(&RegisterResult{State: s.new}) } *)
| CloseDone (done : nat)         (* func() { close(s.done) } *)
| Nop.                           (* func() {} *)

Definition run (f : StepCompleteFunc) (new : State) : M unit :=
  match f with
  | DoneReg reg => r ← deref reg; signal (RegisterDone r new)
  | CloseDone ch => close ch
  | Nop => mret tt
  end.

(** What [Apply] hands back besides the step: Go's
    [(resource.Status, StepCompleteFunc, error)]. *)
Definition ApplyResult : Type := resource_Status * option StepCompleteFunc * option error.

Definition status (r : ApplyResult) : resource_Status := r.1.1.
Definition complete (r : ApplyResult) : option StepCompleteFunc := r.1.2.
Definition err (r : ApplyResult) : option error := r.2.

(** ** The deployment and the rest of the repository the steps call into *)

(** [providers.Reference]: a provider URN with the provider's ID. *)
Record Reference := mkReference { refURN : resource_URN; refID : resource_ID }.

(** An entry of [deployment.imports]. *)
Record Import := mkImport { impID : resource_ID; impProperties : list string }.

(** The fields and methods of [*Deployment] (deployment.go, outside src/)
    that step.go uses.  [GetProvider] answers from the provider registry,
    which a step cannot inspect otherwise.  [SameProvider] registers the
    provider that a provider resource describes: it runs in the world, where
    it may call into the provider plugin or panic, and returns the [error]
    of the Go method ([None] for nil). *)
Module Deployment.
Record t := mk {
  preview : bool;
  providers : plugin.Provider;
  GetProvider : Reference -> option plugin.Provider;
  SameProvider : State -> M (option string);
  olds : gmap string State;
  news : gmap string State;
  imports : list Import
}.
End Deployment.

(** Functions and constants of other packages and files that step.go calls
    and that are not under src/: they are taken as given. *)
Class Externals := {
  (* package providers *)
  IsProviderType : tokens_Type -> bool;
  ParseReference : string -> Reference + string;
  IsDenyDefaultsProvider : Reference -> bool;
  GetDeniedDefaultProviderPkg : Reference -> string;
  (* fmt.Errorf(diag.GetDefaultProviderDenied(urn).Message, pkg, urn) *)
  DefaultProviderDenied : string -> resource_URN -> string;
  (* packages resource and tokens *)
  RootStackType : tokens_Type;
  URNType : resource_URN -> tokens_Type;
  TypePackage : tokens_Type -> string;
  TypeName : tokens_Type -> string;
  DeepEquals : PropertyMap -> PropertyMap -> bool;
  (* the quote character of the host shell, and fmt's %q verb *)
  shellQuote : string;
  fmtQ : string -> string;
  (* step_generator.go *)
  processIgnoreChanges : PropertyMap -> PropertyMap -> list string -> PropertyMap + string;
  diffResource : resource_URN -> resource_ID -> PropertyMap -> PropertyMap -> PropertyMap ->
                 plugin.Provider -> bool -> list string -> plugin.DiffResult + string
}.

(** The accessors of the [Step] interface that [getProvider] uses. *)
Class Step (T : Type) := {
  StepType : T -> tokens_Type;
  StepProvider : T -> string;
  StepURN : T -> resource_URN;
  StepDeployment : T -> option Deployment.t
}.

Section GetProvider.
Context `{Externals}.

(** [getProvider] fetches the provider for the given step. *)
Definition getProvider {T} `{Step T} (s : T) : M (plugin.Provider + error) :=
  if IsProviderType (StepType s) then
    d ← deref (StepDeployment s);
    mret (inl (Deployment.providers d))
  else
    match ParseReference (StepProvider s) with
    | inr e =>
        mret (inr (errorString ("bad provider reference '" +:+ StepProvider s +:+
                                "' for resource " +:+ StepURN s +:+ ": " +:+ e)))
    | inl ref =>
        if IsDenyDefaultsProvider ref then
          let pkg := GetDeniedDefaultProviderPkg ref in
          mret (inr (errorString (DefaultProviderDenied pkg (StepURN s))))
        else
          d ← deref (StepDeployment s);
          match Deployment.GetProvider d ref with
          | None =>
              mret (inr (errorString ("unknown provider '" +:+ StepProvider s +:+
                                      "' for resource " +:+ StepURN s)))
          | Some provider => mret (inl provider)
          end
    end.
End GetProvider.

(** ** SameStep *)

Module SameStep.
Record t := mk {
  deployment : option Deployment.t;
  reg : option nat;
  old : State;
  new : State;
  skippedCreate : bool
}.

Definition with_new (v : State) (s : t) : t :=
  mk (deployment s) (reg s) (old s) v (skippedCreate s).

Definition URN (s : t) : resource_URN := URN (new s).

Section Apply.
Context `{Externals}.

Definition Apply (s : t) (preview : bool) : M (t * ApplyResult) :=
  (* Retain the ID and outputs *)
  let s := with_new (set_ID (ID (old s)) (new s)) s in
  let s := with_new (set_Outputs (Outputs (old s)) (new s)) s in
  (* If the resource is a provider, ensure that it is present in the registry
     under the appropriate URNs. *)
  failure ←
    (if IsProviderType (Type_ (new s)) && negb (skippedCreate s) then
       match deployment s with
       | Some d => Deployment.SameProvider d (new s)
       | None => mret None
       end
     else mret None);
  match failure with
  | Some e =>
      mret (s, (StatusOK, None,
                Some (errorString ("bad provider state for resource " +:+ URN s +:+
                                   ": " +:+ e))))
  | None => mret (s, (StatusOK, Some (DoneReg (reg s)), None))
  end.
End Apply.
End SameStep.

(** ** CreateStep *)

Module CreateStep.
Record t := mk {
  deployment : option Deployment.t;
  reg : option nat;
  old : option State;       (* only for replacements *)
  new : State;
  replacing : bool;
  pendingDelete : bool
}.

Definition with_new (v : State) (s : t) : t :=
  mk (deployment s) (reg s) (old s) v (replacing s) (pendingDelete s).
Definition with_old (v : State) (s : t) : t :=
  mk (deployment s) (reg s) (Some v) (new s) (replacing s) (pendingDelete s).

#[global] Instance step : Step t :=
  {| StepType s := Type_ (new s); StepProvider s := Provider (new s);
     StepURN s := URN (new s); StepDeployment := deployment |}.

Section Apply.
Context `{Externals}.

(** From the timestamps to the return. *)
Definition finish (s : t) (resourceStatus : resource_Status) (resourceError : option error)
    : M (t * ApplyResult) :=
  now ← time_Now;
  let s := with_new (set_Created (Some now) (new s)) s in
  let s := with_new (set_Modified (Some now) (new s)) s in
  s ← (if replacing s && pendingDelete s
       then o ← deref (old s); mret (with_old (set_Delete true o) s)
       else mret s);
  mret (s, (resourceStatus, Some (DoneReg (reg s)), resourceError)).

(** From the check of the returned ID on. *)
Definition store (s : t) (preview : bool) (id : resource_ID) (outs : PropertyMap)
    (resourceStatus : resource_Status) (resourceError : option error)
    : M (t * ApplyResult) :=
  if negb preview && isEmpty id then
    mret (s, (resourceStatus, None,
              Some (errorString "provider did not return an ID from Create")))
  else
    let s := with_new (set_ID id (new s)) s in
    let s := with_new (set_Outputs outs (new s)) s in
    finish s resourceStatus resourceError.

Definition Apply (s : t) (preview : bool) : M (t * ApplyResult) :=
  if Custom (new s) then
    p ← getProvider s;
    match p with
    | inr e => mret (s, (StatusOK, None, Some e))
    | inl prov =>
        d ← deref (deployment s);
        '(id, outs, rst, e) ← prov_Create prov (URN (new s)) (Inputs (new s))
                                (Timeouts.Create (CustomTimeouts (new s)))
                                (Deployment.preview d);
        match e with
        | Some e =>
            if bool_decide (rst ≠ StatusPartialFailure) then
              mret (s, (rst, None, Some (FromProvider e)))
            else
              let s := match e with
                       | plugin_error.InitError Reasons =>
                           with_new (set_InitErrors Reasons (new s)) s
                       | plugin_error.Other _ => s
                       end in
              store s preview id outs rst (Some (FromProvider e))
        | None => store s preview id outs StatusOK None
        end
    end
  else finish s StatusOK None.
End Apply.
End CreateStep.

(** ** UpdateStep *)

Module UpdateStep.
Record t := mk {
  deployment : option Deployment.t;
  reg : option nat;
  old : State;
  new : State;
  ignoreChanges : list string
}.

Definition with_new (v : State) (s : t) : t :=
  mk (deployment s) (reg s) (old s) v (ignoreChanges s).

#[global] Instance step : Step t :=
  {| StepType s := Type_ (new s); StepProvider s := Provider (new s);
     StepURN s := URN (new s); StepDeployment := deployment |}.

Section Apply.
Context `{Externals}.

(** From the copy of the outputs on, inside [if s.new.Custom]. *)
Definition store (s : t) (outs : PropertyMap) (resourceStatus : resource_Status)
    (resourceError : option error) : M (t * ApplyResult) :=
  let s := with_new (set_Outputs outs (new s)) s in
  now ← time_Now;
  let s := with_new (set_Modified (Some now) (new s)) s in
  mret (s, (resourceStatus, Some (DoneReg (reg s)), resourceError)).

Definition Apply (s : t) (preview : bool) : M (t * ApplyResult) :=
  (* Always propagate the ID and timestamps even in previews and refreshes. *)
  let s := with_new (set_ID (ID (old s)) (new s)) s in
  let s := with_new (set_Created (Created (old s)) (new s)) s in
  let s := with_new (set_Modified (Modified (old s)) (new s)) s in
  if Custom (new s) then
    p ← getProvider s;
    match p with
    | inr e => mret (s, (StatusOK, None, Some e))
    | inl prov =>
        d ← deref (deployment s);
        '(outs, rst, upderr) ← prov_Update prov (URN (new s)) (ID (old s)) (Inputs (old s))
                                 (Outputs (old s)) (Inputs (new s))
                                 (Timeouts.Update (CustomTimeouts (new s)))
                                 (ignoreChanges s) (Deployment.preview d);
        match upderr with
        | Some e =>
            if bool_decide (rst ≠ StatusPartialFailure) then
              mret (s, (rst, None, Some (FromProvider e)))
            else
              let s := match e with
                       | plugin_error.InitError Reasons =>
                           with_new (set_InitErrors Reasons (new s)) s
                       | plugin_error.Other _ => s
                       end in
              store s outs rst (Some (FromProvider e))
        | None => store s outs StatusOK None
        end
    end
  else mret (s, (StatusOK, Some (DoneReg (reg s)), None)).
End Apply.
End UpdateStep.

(** ** DeleteStep *)

(** A Go map may be nil; reading a nil map finds nothing. *)
Definition isDeletedWith (with_ : resource_URN) (otherDeletions : option (gmap string bool))
    : bool :=
  if isEmpty with_ then false
  else match otherDeletions ≫= (fun m => m !! with_) with
       | None => false
       | Some r => r
       end.

(** Modelled from the spec: [URN.Quote] is declared in sdk/go/common/resource,
    outside src/; it is taken to wrap the URN in the quote character of the
    host shell, so that the message of a protect error carries the URN
    string. *)
Definition Quote `{Externals} (urn : resource_URN) : string :=
  shellQuote +:+ urn +:+ shellQuote.

Definition unprotectHint : string :=
  "because it is protected. To unprotect the resource, " +:+
  "either remove the `protect` flag from the resource in your Pulumi " +:+
  "program and run `pulumi up`, or use the command:" +:+ newline +:+
  "`pulumi state unprotect ".

(** [deleteProtectedError.Error]: the URN under [%q], the hint, and the URN
    quoted by [URN.Quote] for the command line. *)
Definition deleteProtectedError_Error `{Externals} (urn : resource_URN) : string :=
  "resource " +:+ fmtQ urn +:+ " cannot be deleted" +:+ newline +:+
  unprotectHint +:+ Quote urn +:+ "`".

Module DeleteStep.
Record t := mk {
  deployment : option Deployment.t;
  old : State;
  replacing : bool;
  otherDeletions : option (gmap string bool)
}.

#[global] Instance step : Step t :=
  {| StepType s := Type_ (old s); StepProvider s := Provider (old s);
     StepURN s := URN (old s); StepDeployment := deployment |}.

Section Apply.
Context `{Externals}.

(** The [contract.Requiref] calls shared by both constructors. *)
Definition requireOld (old : option State) (otherDeletions : option (gmap string bool))
    : M State :=
  Assertf (bool_decide (is_Some old)) "old must not be nil";;
  o ← deref old;
  Assertf (negb (isEmpty (URN o))) "old must have a URN";;
  Assertf (negb (isEmpty (ID o)) || negb (Custom o))
    "old must have an ID if it is a custom resource";;
  Assertf (negb (Custom o) || negb (isEmpty (Provider o)) || IsProviderType (Type_ o))
    "old must have or be a provider if it is a custom resource";;
  Assertf (bool_decide (is_Some otherDeletions)) "otherDeletions must not be nil";;
  mret o.

Definition NewDeleteStep (deployment : option Deployment.t)
    (otherDeletions : option (gmap string bool)) (old : option State) : M t :=
  o ← requireOld old otherDeletions;
  mret (mk deployment o false otherDeletions).

Definition NewDeleteReplacementStep (deployment : option Deployment.t)
    (otherDeletions : option (gmap string bool)) (old : option State)
    (pendingReplace : bool) : M t :=
  o ← requireOld old otherDeletions;
  Assertf (negb (Bool.eqb pendingReplace (Delete o)))
    ("resource " +:+ URN o +:+
     " cannot be pending replacement and deletion at the same time");;
  let o := set_PendingReplacement pendingReplace o in
  mret (mk deployment o true otherDeletions).

Definition Apply (s : t) (preview : bool) : M (t * ApplyResult) :=
  (* Refuse to delete protected resources (unless we're replacing them) *)
  if negb (replacing s) && Protect (old s) then
    mret (s, (StatusOK, None, Some (deleteProtectedError (URN (old s)))))
  else if preview then mret (s, (StatusOK, Some Nop, None))
  else if External (old s) then mret (s, (StatusOK, Some Nop, None))
  else if RetainOnDelete (old s) then mret (s, (StatusOK, Some Nop, None))
  else if isDeletedWith (DeletedWith (old s)) (otherDeletions s) then
    mret (s, (StatusOK, Some Nop, None))
  else if Custom (old s) then
    p ← getProvider s;
    match p with
    | inr e => mret (s, (StatusOK, None, Some e))
    | inl prov =>
        '(rst, e) ← prov_Delete prov (URN (old s)) (ID (old s)) (Inputs (old s))
                      (Outputs (old s)) (Timeouts.Delete (CustomTimeouts (old s)));
        match e with
        | Some e => mret (s, (rst, None, Some (FromProvider e)))
        | None => mret (s, (StatusOK, Some Nop, None))
        end
    end
  else mret (s, (StatusOK, Some Nop, None)).
End Apply.
End DeleteStep.

(** ** RefreshStep *)

Module RefreshStep.
Record t := mk {
  deployment : option Deployment.t;
  old : State;
  new : option State;       (* nil once the resource is found gone *)
  done : option nat         (* the channel to use to signal completion, if any *)
}.

Definition with_new (v : option State) (s : t) : t :=
  mk (deployment s) (old s) v (done s).

#[global] Instance step : Step t :=
  {| StepType s := Type_ (old s); StepProvider s := Provider (old s);
     StepURN s := URN (old s); StepDeployment := deployment |}.

(** NOTE: the new state is the old state by default. *)
Definition NewRefreshStep (deployment : option Deployment.t) (old : option State)
    (done : option nat) : M t :=
  Assertf (bool_decide (is_Some old)) "old must not be nil";;
  o ← deref old;
  mret (mk deployment o (Some o) done).

Section Apply.
Context `{Externals}.

(** From [outputs := refreshed.Outputs] to the final return. *)
Definition adopt (s : t) (refreshed : plugin.ReadResult) (initErrors : list string)
    (rst : resource_Status) (e : option error) : M (t * ApplyResult) :=
  let resourceID := ID (old s) in
  let outputs := plugin.rOutputs refreshed in
  let inputs := match plugin.rInputs refreshed with
                | Some i => Some i
                | None => Inputs (old s)
                end in
  match outputs with
  | Some _ =>
      let resourceID :=
        if negb (isEmpty (plugin.rID refreshed)) &&
           negb (String.eqb (plugin.rID refreshed) resourceID)
        then plugin.rID refreshed else resourceID in
      let o := old s in
      let n := NewState (Type_ o) (URN o) (Custom o) (Delete o) resourceID inputs outputs
                 (Parent o) (Protect o) (External o) (Dependencies o) initErrors
                 (Provider o) (PropertyDependencies o) (PendingReplacement o)
                 (AdditionalSecretOutputs o) (Aliases o) (CustomTimeouts o) (ImportID o)
                 (RetainOnDelete o) (DeletedWith o) (Created o) (Modified o)
                 (SourcePosition o) in
      let inputsChange := negb (DeepEquals (plugin.rInputs refreshed) (Inputs o)) in
      let outputsChange := negb (DeepEquals (plugin.rOutputs refreshed) (Outputs o)) in
      if inputsChange || outputsChange then
        now ← time_Now;
        mret (with_new (Some (set_Modified (Some now) n)) s, (rst, None, e))
      else mret (with_new (Some n) s, (rst, None, e))
  | None => mret (with_new None s, (rst, None, e))
  end.

Definition Apply (s : t) (preview : bool) : M (t * ApplyResult) :=
  let complete : option StepCompleteFunc :=
    match done s with Some ch => Some (CloseDone ch) | None => None end in
  (* Component, provider, and pending-replace resources never change with a refresh *)
  if negb (Custom (old s)) || IsProviderType (Type_ (old s)) || PendingReplacement (old s)
  then mret (s, (StatusOK, complete, None))
  else
    p ← getProvider s;
    match p with
    | inr e => mret (s, (StatusOK, None, Some e))
    | inl prov =>
        '(refreshed, rst, e) ← prov_Read prov (URN (old s)) (ID (old s)) (Inputs (old s))
                                 (Outputs (old s));
        match e with
        | Some e =>
            if bool_decide (rst ≠ StatusPartialFailure) then
              mret (s, (rst, None, Some (FromProvider e)))
            else
              match e with
              | plugin_error.InitError Reasons =>
                  (* Partial failure SHOULD NOT cause refresh to fail: warn instead *)
                  let msg := "Refreshed resource is in an unhealthy state:" +:+ newline +:+
                             "* " +:+ String.concat (newline +:+ "* ") Reasons in
                  _ ← deref (deployment s);
                  Warningf RawMessage (URN (old s)) msg;;
                  adopt s refreshed Reasons rst None
              | plugin_error.Other _ => adopt s refreshed [] rst (Some (FromProvider e))
              end
        | None => adopt s refreshed [] rst None
        end
    end.
End Apply.
End RefreshStep.

(** ** ImportStep *)

(** Modelled from the spec: [issueCheckFailures] and [issueCheckErrors] are
    declared in step_generator.go, outside src/; each check failure is
    reported through the given printer, and the result says whether there
    was any ("call provider.Check (failures here are fatal)"). *)
Definition issueCheckFailures (printf : DiagKind -> resource_URN -> string -> M unit)
    (urn : resource_URN) (failures : list plugin.CheckFailure) : M bool :=
  mapM (fun f => printf Message urn
                   (plugin.Property f +:+ ": " +:+ plugin.Reason f)) failures;;
  mret (negb (bool_decide (failures = []))).

Definition issueCheckErrors (urn : resource_URN) (failures : list plugin.CheckFailure)
    : M bool :=
  issueCheckFailures Errorf urn failures.

Module ImportStep.
Record t := mk {
  deployment : option Deployment.t;
  reg : option nat;
  original : option State;  (* the original resource, if this is an import-replace *)
  old : option State;       (* the state of the resource fetched from the provider *)
  new : State;
  replacing : bool;
  planned : bool;
  diffs : list PropertyKey;
  detailedDiff : gmap string string;
  ignoreChanges : list string;
  randomSeed : list Z
}.

Definition with_new (v : State) (s : t) : t :=
  mk (deployment s) (reg s) (original s) (old s) v (replacing s) (planned s) (diffs s)
     (detailedDiff s) (ignoreChanges s) (randomSeed s).
Definition with_old (v : State) (s : t) : t :=
  mk (deployment s) (reg s) (original s) (Some v) (new s) (replacing s) (planned s) (diffs s)
     (detailedDiff s) (ignoreChanges s) (randomSeed s).
Definition with_original (v : State) (s : t) : t :=
  mk (deployment s) (reg s) (Some v) (old s) (new s) (replacing s) (planned s) (diffs s)
     (detailedDiff s) (ignoreChanges s) (randomSeed s).
Definition with_diffs (ks : list PropertyKey) (dd : gmap string string) (s : t) : t :=
  mk (deployment s) (reg s) (original s) (old s) (new s) (replacing s) (planned s) ks dd
     (ignoreChanges s) (randomSeed s).

#[global] Instance step : Step t :=
  {| StepType s := Type_ (new s); StepProvider s := Provider (new s);
     StepURN s := URN (new s); StepDeployment := deployment |}.

Definition message : string := "inputs to import do not match the existing resource".

Section Apply.
Context `{Externals}.

(** The planned-import checks at the head of [Apply]: the error to return,
    if any. *)
Definition checkPlanned (s : t) : M (option error) :=
  if planned s then
    d ← deref (deployment s);
    if bool_decide (is_Some (Deployment.olds d !! URN (new s))) then
      mret (Some (errorString ("resource '" +:+ URN (new s) +:+ "' already exists")))
    else if negb (String.eqb (URNType (Parent (new s))) RootStackType) &&
            bool_decide (Deployment.news d !! Parent (new s) = None) then
      mret (Some (errorString ("unknown parent '" +:+ Parent (new s) +:+
                               "' for resource '" +:+ URN (new s) +:+ "'")))
    else mret None
  else mret None.

(** The input properties named by the import of this ID, if any. *)
Fixpoint findProperties (imports : list Import) (id : resource_ID) : list string :=
  match imports with
  | [] => []
  | imp :: rest => if String.eqb (impID imp) id then impProperties imp
                   else findProperties rest id
  end.

(** [for _, p := range inputProperties { ... s.new.Inputs[k] = value }]:
    an assignment into a nil map panics. *)
Fixpoint copyProperties (props : list string) (from to : PropertyMap) : M PropertyMap :=
  match props with
  | [] => mret to
  | p :: rest =>
      match from ≫= (fun m => m !! p) with
      | Some value =>
          match to with
          | Some m => copyProperties rest from (Some (<[p := value]> m))
          | None => panic "assignment to entry in nil map"
          end
      | None => copyProperties rest from to
      end
  end.

Definition len (m : PropertyMap) : nat :=
  match m with Some m => size m | None => 0%nat end.

(** The branch of a step that came from an import deployment. *)
Definition importPlanned (s : t) (o : State) (prov : plugin.Provider) (preview : bool)
    (rst : resource_Status) : M (t * ApplyResult) :=
  Assertf (bool_decide (len (Inputs (new s)) = 0%nat))
    "import resource cannot have existing inputs";;
  d ← deref (deployment s);
  let inputProperties := findProperties (Deployment.imports d) (ID o) in
  ins ← (if bool_decide (inputProperties = [])
         then mret (Some (default ∅ (Inputs o)))
         else copyProperties inputProperties (Inputs o) (Inputs (new s)));
  let s := with_new (set_Inputs ins (new s)) s in
  '(_, failures, e) ← prov_Check prov (URN (new s)) (Inputs o) (Inputs (new s)) preview
                        (randomSeed s);
  match e with
  | Some e => mret (s, (rst, None, Some (FromProvider e)))
  | None =>
      (if bool_decide (failures = []) then mret tt
       else
         errorMessage ←
           (if bool_decide (inputProperties = []) then
              match ParseReference (StepProvider s) with
              | inr _ => panic "failed to parse provider reference"
              | inl ref =>
                  mret ("This is almost certainly a bug in the `" +:+
                        TypeName (URNType (refURN ref)) +:+ "` provider.")
              end
            else mret "Try specifying a different set of properties to import with in the future.");
         Warningf Message (URN (new s))
           ("One or more imported inputs failed to validate. " +:+ errorMessage +:+
            " The import will still proceed, but you will need to edit the generated code after copying it into your program."));;
      issueCheckFailures Warningf (URN (new s)) failures;;
      let s := with_diffs [] ∅ s in
      mret (s, (rst, Some (DoneReg (reg s)), None))
  end.

(** The adoption branch: ignore-changes, Check, diff. *)
Definition importAdopt (s : t) (o : State) (prov : plugin.Provider) (preview : bool)
    (rst : resource_Status) : M (t * ApplyResult) :=
  match processIgnoreChanges (Inputs (new s)) (Inputs o) (ignoreChanges s) with
  | inr e => mret (s, (StatusOK, None, Some (errorString e)))
  | inl processedInputs =>
      let s := with_new (set_Inputs processedInputs (new s)) s in
      '(inputs, failures, e) ← prov_Check prov (URN (new s)) (Inputs o) (Inputs (new s))
                                 preview (randomSeed s);
      match e with
      | Some e => mret (s, (rst, None, Some (FromProvider e)))
      | None =>
          _ ← deref (deployment s);
          failed ← issueCheckErrors (URN (new s)) failures;
          if (failed : bool) then
            mret (s, (rst, None, Some (errorString "one or more inputs failed to validate")))
          else
            let s := with_new (set_Inputs inputs (new s)) s in
            match diffResource (URN (new s)) (ID (new s)) (Inputs o) (Outputs o)
                    (Inputs (new s)) prov preview (ignoreChanges s) with
            | inr e => mret (s, (rst, None, Some (errorString e)))
            | inl diff =>
                let s := with_diffs (plugin.ChangedKeys diff) (plugin.DetailedDiff diff) s in
                e ← (match plugin.Changes diff with
                     | plugin.DiffNone => mret None
                     | _ =>
                         if preview then
                           _ ← deref (deployment s);
                           Warningf StreamMessage (URN (new s))
                             (message +:+ "; importing this resource will fail");;
                           mret None
                         else mret (Some (errorString message))
                     end);
                s ← (if bool_decide (e = None) && replacing s
                     then orig ← deref (original s);
                          mret (with_original (set_Delete true orig) s)
                     else mret s);
                mret (s, (rst, Some (DoneReg (reg s)), e))
            end
      end
  end.

(** From [s.new.Outputs = outputs] on. *)
Definition record (s : t) (prov : option plugin.Provider) (inputs outputs : PropertyMap)
    (preview : bool) (rst : resource_Status) : M (t * ApplyResult) :=
  let s := with_new (set_Outputs outputs (new s)) s in
  (* Magic up an old state so the frontend can display a proper diff. *)
  let n := new s in
  let o := NewState (Type_ n) (URN n) (Custom n) false (ID n) inputs outputs (Parent n)
             (Protect n) false (Dependencies n) (InitErrors n) (Provider n)
             (PropertyDependencies n) false [] [] (CustomTimeouts n) (ImportID n)
             (RetainOnDelete n) (DeletedWith n) None None (SourcePosition n) in
  let s := with_old o s in
  now ← time_Now;
  let s := with_new (set_Modified (Some now) (new s)) s in
  let s := with_new (set_Created (Some now) (new s)) s in
  match prov with
  | None => mret (s, (rst, Some (DoneReg (reg s)), None))   (* a component *)
  | Some prov =>
      if planned s then importPlanned s o prov preview rst
      else importAdopt s o prov preview rst
  end.

Definition Apply (s : t) (preview : bool) : M (t * ApplyResult) :=
  bad ← checkPlanned s;
  match bad with
  | Some e => mret (s, (StatusOK, None, Some e))
  | None =>
      if Custom (new s) then
        p ← getProvider s;
        match p with
        | inr e => mret (s, (StatusOK, None, Some e))
        | inl prov =>
            '(read, rst, e) ← prov_Read prov (URN (new s)) (ID (new s)) None None;
            let proceed (s : t) : M (t * ApplyResult) :=
              match plugin.rOutputs read, plugin.rInputs read with
              | None, _ =>
                  mret (s, (rst, None,
                            Some (errorString ("resource '" +:+ ID (new s) +:+
                                               "' does not exist"))))
              | Some _, None =>
                  mret (s, (StatusOK, None,
                            Some (errorString
                                    ("provider does not support importing resources; " +:+
                                     "please try updating the '" +:+
                                     TypePackage (URNType (URN (new s))) +:+ "' plugin"))))
              | Some _, Some _ =>
                  let s := if negb (isEmpty (plugin.rID read))
                           then with_new (set_ID (plugin.rID read) (new s)) s else s in
                  record s (Some prov) (plugin.rInputs read) (plugin.rOutputs read)
                    preview rst
              end in
            match e with
            | Some (plugin_error.InitError Reasons) =>
                proceed (with_new (set_InitErrors Reasons (new s)) s)
            | Some e => mret (s, (rst, None, Some (FromProvider e)))
            | None => proceed s
            end
        end
      else record s None (Some ∅) (Some ∅) preview StatusOK
  end.
End Apply.
End ImportStep.

(** ** Vocabulary of the statements *)

(** [strings.Contains s sub] *)
Definition contains (s sub : string) : Prop :=
  exists pre post, s = pre +:+ sub +:+ post.

(** The provider calls made between two worlds. *)
Definition callsBetween (w w' : World) (calls : list plugin.RPC) : Prop :=
  rpcs w' = (rpcs w ++ calls)%list.

(** The conditions of the delete matrix under which the provider is left alone. *)
Definition deleteSkipped (s : DeleteStep.t) (preview : bool) : bool :=
  preview || External (DeleteStep.old s) || RetainOnDelete (DeleteStep.old s) ||
  isDeletedWith (DeletedWith (DeleteStep.old s)) (DeleteStep.otherDeletions s).

(** What decides whether the Delete RPC goes out: no skipping condition, a
    custom resource, and a provider that resolves. *)
Definition deleteRuns `{Externals} (s : DeleteStep.t) (preview : bool) (w : World) : Prop :=
  deleteSkipped s preview = false /\ Custom (DeleteStep.old s) = true /\
  exists prov, getProvider s w = Ok (inl prov) w.

(** [NewCreateReplacementStep] requires a non-nil [old], and only it sets
    [replacing]: a create step that is to pend a deletion has its old state. *)
Definition hasOldIfPending (s : CreateStep.t) : Prop :=
  CreateStep.replacing s && CreateStep.pendingDelete s = true -> is_Some (CreateStep.old s).

(** [NewImportReplacementStep] requires a non-nil [original], and only it
    sets [replacing]. *)
Definition hasOriginalIfReplacing (s : ImportStep.t) : Prop :=
  ImportStep.replacing s = true -> is_Some (ImportStep.original s).

(** The world after one more provider call. *)
Definition called (w : World) (r : plugin.RPC) : World :=
  mkWorld (rpcs w ++ [r])%list (diags w) (signals w) (closed w) (clock w).

(** The Create call of a create step, and the provider's answer to it. *)
Definition createCall (s : CreateStep.t) (d : Deployment.t) : plugin.RPC :=
  let n := CreateStep.new s in
  plugin.CreateRPC (URN n) (Inputs n) (Timeouts.Create (CustomTimeouts n))
    (Deployment.preview d).

Definition createAnswer (s : CreateStep.t) (d : Deployment.t) (prov : plugin.Provider) :=
  let n := CreateStep.new s in
  plugin.onCreate prov (URN n) (Inputs n) (Timeouts.Create (CustomTimeouts n))
    (Deployment.preview d).

(** The Update call of an update step, and the provider's answer to it. *)
Definition updateCall (s : UpdateStep.t) (d : Deployment.t) : plugin.RPC :=
  let o := UpdateStep.old s in
  let n := UpdateStep.new s in
  plugin.UpdateRPC (URN n) (ID o) (Inputs o) (Outputs o) (Inputs n)
    (Timeouts.Update (CustomTimeouts n)) (UpdateStep.ignoreChanges s) (Deployment.preview d).

Definition updateAnswer (s : UpdateStep.t) (d : Deployment.t) (prov : plugin.Provider) :=
  let o := UpdateStep.old s in
  let n := UpdateStep.new s in
  plugin.onUpdate prov (URN n) (ID o) (Inputs o) (Outputs o) (Inputs n)
    (Timeouts.Update (CustomTimeouts n)) (UpdateStep.ignoreChanges s) (Deployment.preview d).

(** An update step once the ID and the timestamps of the old state are on
    [new]: the first three assignments of [UpdateStep.Apply]. *)
Definition inherited (s : UpdateStep.t) : UpdateStep.t :=
  let s := UpdateStep.with_new (set_ID (ID (UpdateStep.old s)) (UpdateStep.new s)) s in
  let s := UpdateStep.with_new (set_Created (Created (UpdateStep.old s)) (UpdateStep.new s))
             s in
  UpdateStep.with_new (set_Modified (Modified (UpdateStep.old s)) (UpdateStep.new s)) s.

(** The resources that a refresh returns as they are: components, provider
    resources and resources pending replacement. *)
Definition unchangedByRefresh `{Externals} (o : State) : bool :=
  negb (Custom o) || IsProviderType (Type_ o) || PendingReplacement o.

(** The Read call of an import step, the provider's answer to it, and the ID
    the step goes on with (the provider's, if it returned one). *)
Definition importAnswer (s : ImportStep.t) (prov : plugin.Provider) :=
  plugin.onRead prov (URN (ImportStep.new s)) (ID (ImportStep.new s)) None None.

Definition importedID (s : ImportStep.t) (read : plugin.ReadResult) : resource_ID :=
  if isEmpty (plugin.rID read) then ID (ImportStep.new s) else plugin.rID read.

(** The streaming warning of an import whose inputs do not match. *)
Definition importWarning (urn : resource_URN) : Diag :=
  mkDiag Warning StreamMessage urn
    (ImportStep.message +:+ "; importing this resource will fail").

(** What the constructors of a delete step require of a non-nil [old]. *)
Definition validOld `{Externals} (o : State) : bool :=
  negb (isEmpty (URN o)) && (negb (isEmpty (ID o)) || negb (Custom o)) &&
  (negb (Custom o) || negb (isEmpty (Provider o)) || IsProviderType (Type_ o)).

(** The [Delete(URN, ID, inputs, outputs, timeout)] call of a delete step. *)
Definition deleteCall (s : DeleteStep.t) : plugin.RPC :=
  let o := DeleteStep.old s in
  plugin.DeleteRPC (URN o) (ID o) (Inputs o) (Outputs o) (Timeouts.Delete (CustomTimeouts o)).

(** ** Concrete deployments for the examples *)

Module Examples.
Definition doubleQuote : string := String "034"%char EmptyString.

(** Provider types live under [pulumi:providers:]; references parse; no
    default provider is denied; maps are compared by content. *)
#[global] Instance externals : Externals | 100 := {|
  IsProviderType t := String.prefix "pulumi:providers:" t;
  ParseReference r := inl (mkReference r "prov-id");
  IsDenyDefaultsProvider _ := false;
  GetDeniedDefaultProviderPkg _ := "pkg";
  DefaultProviderDenied pkg urn := "default provider denied for " +:+ pkg;
  RootStackType := "pulumi:pulumi:Stack";
  URNType urn := urn;
  TypePackage t := t;
  TypeName t := t;
  DeepEquals a b := bool_decide (default ∅ a = default ∅ b);
  shellQuote := "'";
  fmtQ u := doubleQuote +:+ u +:+ doubleQuote;
  processIgnoreChanges news olds ignore := inl news;
  diffResource urn id oldIns oldOuts newIns prov preview ignore :=
    inl (if bool_decide (default ∅ oldIns = default ∅ newIns)
         then plugin.mkDiff plugin.DiffNone [] ∅
         else plugin.mkDiff plugin.DiffSome [] ∅)
|}.

Definition outs (k v : string) : PropertyMap := Some {[ k := v ]}.

(** A provider whose Create and Update answer as given, whose Delete
    succeeds, whose Read answers as given and whose Check accepts the
    inputs as they are. *)
Definition provider (id : resource_ID) (st : resource_Status) (e : option plugin_error.t)
    (read : plugin.ReadResult) : plugin.Provider := {|
  plugin.onCreate urn inputs timeout preview := (id, outs "z" "9", st, e);
  plugin.onUpdate urn id oldIns oldOuts newIns timeout ignore preview := (outs "z" "9", st, e);
  plugin.onDelete urn id inputs outputs timeout := (StatusOK, None);
  plugin.onRead urn id inputs state := (read, st, e);
  plugin.onCheck urn olds news preview seed := (news, [], None)
|}.

Definition noRead : plugin.ReadResult := plugin.mkRead EmptyString None None.

(** A deployment whose registry knows every reference as [p] and accepts
    or refuses ([sameErr]) the re-registration of a provider resource. *)
Definition deployment (p : plugin.Provider) (sameErr : option string) : Deployment.t := {|
  Deployment.preview := false;
  Deployment.providers := p;
  Deployment.GetProvider ref := Some p;
  Deployment.SameProvider st := mret sameErr;
  Deployment.olds := ∅;
  Deployment.news := ∅;
  Deployment.imports := []
|}.

Definition state (urn : resource_URN) (type : tokens_Type) (custom : bool) (id : resource_ID)
    : State :=
  NewState type urn custom false id (Some ∅) None EmptyString false false [] []
    (if custom then "urn:provider::prov-id" else EmptyString) ∅ false [] []
    (Timeouts.mk 0 0 0) EmptyString false EmptyString None None EmptyString.

Definition protect (s : State) : State :=
  mkState (Type_ s) (URN s) (Custom s) (Delete s) (ID s) (Inputs s) (Outputs s) (Parent s)
    true (External s) (Dependencies s) (InitErrors s) (Provider s) (PropertyDependencies s)
    (PendingReplacement s) (AdditionalSecretOutputs s) (Aliases s) (CustomTimeouts s)
    (ImportID s) (RetainOnDelete s) (DeletedWith s) (Created s) (Modified s)
    (SourcePosition s).

Definition world (now : Time) : World := mkWorld [] [] [] [] now.
End Examples.

(** ** The rest of step.go: presentation of operations *)

(** A function that may end in [contract.Failf]. *)
Inductive Aborts (A : Type) :=
| Returns (a : A)
| Failf (msg : string).
Arguments Returns {A} a.
Arguments Failf {A} msg.

(** The constants of package [colors] (sdk/go/common/diag/colors, outside
    src/) that step.go uses: they are taken as given. *)
Class Colors := {
  colors_SpecUnimportant : string;
  colors_SpecCreate : string;
  colors_SpecDelete : string;
  colors_SpecUpdate : string;
  colors_SpecReplace : string;
  colors_SpecCreateReplacement : string;
  colors_SpecDeleteReplaced : string;
  colors_SpecRead : string;
  colors_Bold : string;
  colors_Reset : string
}.

(** [Color] returns a suggested color for lines of this op type. *)
Definition Color `{Colors} (op : StepOp) : Aborts string :=
  if oneOf op [ OpSame ] then Returns colors_SpecUnimportant
  else if oneOf op [ OpCreate; OpImport ] then Returns colors_SpecCreate
  else if oneOf op [ OpDelete ] then Returns colors_SpecDelete
  else if oneOf op [ OpUpdate ] then Returns colors_SpecUpdate
  else if oneOf op [ OpReplace ] then Returns colors_SpecReplace
  else if oneOf op [ OpCreateReplacement ] then Returns colors_SpecCreateReplacement
  else if oneOf op [ OpDeleteReplaced ] then Returns colors_SpecDeleteReplaced
  else if oneOf op [ OpRead ] then Returns colors_SpecRead
  else if oneOf op [ OpReadReplacement; OpImportReplacement ] then Returns colors_SpecReplace
  else if oneOf op [ OpRefresh ] then Returns colors_SpecUpdate
  else if oneOf op [ OpReadDiscard; OpDiscardReplaced ] then Returns colors_SpecDelete
  else Failf ("Unrecognized resource step op: '" +:+ op +:+ "'").

(** [ColorProgress] returns a suggested coloring for lines of this op type
    which are progressing. *)
Definition ColorProgress `{Colors} (op : StepOp) : Aborts string :=
  match Color op with
  | Returns c => Returns (colors_Bold +:+ c)
  | Failf msg => Failf msg
  end.

(** [RawPrefix] returns the uncolorized prefix text. *)
Definition RawPrefix (op : StepOp) : Aborts string :=
  if oneOf op [ OpSame ] then Returns "  "
  else if oneOf op [ OpCreate ] then Returns "+ "
  else if oneOf op [ OpDelete ] then Returns "- "
  else if oneOf op [ OpUpdate ] then Returns "~ "
  else if oneOf op [ OpReplace ] then Returns "+-"
  else if oneOf op [ OpCreateReplacement ] then Returns "++"
  else if oneOf op [ OpDeleteReplaced ] then Returns "--"
  else if oneOf op [ OpRead ] then Returns "> "
  else if oneOf op [ OpReadReplacement ] then Returns ">>"
  else if oneOf op [ OpRefresh ] then Returns "~ "
  else if oneOf op [ OpReadDiscard ] then Returns "< "
  else if oneOf op [ OpDiscardReplaced ] then Returns "<<"
  else if oneOf op [ OpImport ] then Returns "= "
  else if oneOf op [ OpImportReplacement ] then Returns "=>"
  else Failf ("Unrecognized resource step op: " +:+ op).

(** [Prefix] returns a suggested prefix for lines of this op type: the color
    is computed first, then the raw prefix. *)
Definition Prefix `{Colors} (op : StepOp) (done : bool) : Aborts string :=
  match (if done then Color op else ColorProgress op) with
  | Returns color =>
      match RawPrefix op with
      | Returns raw => Returns (color +:+ raw)
      | Failf msg => Failf msg
      end
  | Failf msg => Failf msg
  end.

Definition PastTense (op : StepOp) : Aborts string :=
  if oneOf op [ OpSame; OpCreate; OpReplace; OpCreateReplacement; OpUpdate; OpReadReplacement ]
  then Returns (op +:+ "d")
  else if oneOf op [ OpRefresh ] then Returns "refreshed"
  else if oneOf op [ OpRead ] then Returns "read"
  else if oneOf op [ OpReadDiscard; OpDiscardReplaced ] then Returns "discarded"
  else if oneOf op [ OpDelete; OpDeleteReplaced ] then Returns "deleted"
  else if oneOf op [ OpImport; OpImportReplacement ] then Returns "imported"
  else Failf ("Unexpected resource step op: " +:+ op).

(** [Suffix] returns a suggested suffix for lines of this op type. *)
Definition Suffix `{Colors} (op : StepOp) : string :=
  if oneOf op [ OpCreateReplacement; OpUpdate; OpReplace; OpReadReplacement; OpRefresh;
                OpImportReplacement ]
  then colors_Reset
  else EmptyString.

(** The ops that the presentation helpers know: every step operation but
    [remove-pending-replace], which none of their switches lists. *)
Definition presentedOps : list StepOp :=
  [ OpSame; OpCreate; OpUpdate; OpDelete; OpReplace; OpCreateReplacement; OpDeleteReplaced;
    OpRead; OpReadReplacement; OpRefresh; OpReadDiscard; OpDiscardReplaced; OpImport;
    OpImportReplacement ].

Definition returns {A} (r : Aborts A) : bool :=
  match r with Returns _ => true | Failf _ => false end.

(** ** The rest of step.go: [Op] and [Logical] of the steps *)

Definition SameStep_Op (s : SameStep.t) : StepOp := OpSame.
Definition SameStep_Logical (s : SameStep.t) : bool := true.

Definition CreateStep_Op (s : CreateStep.t) : StepOp :=
  if CreateStep.replacing s then OpCreateReplacement else OpCreate.
Definition CreateStep_Logical (s : CreateStep.t) : bool := negb (CreateStep.replacing s).

Definition DeleteStep_Op (s : DeleteStep.t) : StepOp :=
  if External (DeleteStep.old s) then
    if DeleteStep.replacing s then OpDiscardReplaced else OpReadDiscard
  else if DeleteStep.replacing s then OpDeleteReplaced
  else OpDelete.
Definition DeleteStep_Logical (s : DeleteStep.t) : bool := negb (DeleteStep.replacing s).

Definition UpdateStep_Op (s : UpdateStep.t) : StepOp := OpUpdate.
Definition RefreshStep_Op (s : RefreshStep.t) : StepOp := OpRefresh.

Definition ImportStep_Op (s : ImportStep.t) : StepOp :=
  if ImportStep.replacing s then OpImportReplacement else OpImport.
Definition ImportStep_Logical (s : ImportStep.t) : bool := negb (ImportStep.replacing s).

(** ** The rest of step.go: constructors *)

(** [contract.Requiref] *)
Definition Requiref (cond : bool) (param msg : string) : M unit :=
  Assertf cond (param +:+ " " +:+ msg).

Section Constructors.
Context `{Externals}.

(** [!s.Custom || s.Provider != "" || providers.IsProviderType(s.Type)] *)
Definition hasOrIsProvider (s : State) : bool :=
  negb (Custom s) || negb (isEmpty (Provider s)) || IsProviderType (Type_ s).

Definition NewSameStep (deployment : option Deployment.t) (reg : option nat)
    (old new : option State) : M SameStep.t :=
  Requiref (bool_decide (is_Some old)) "old" "must not be nil";;
  o ← deref old;
  Requiref (negb (isEmpty (URN o))) "old" "must have a URN";;
  Requiref (negb (isEmpty (ID o)) || negb (Custom o)) "old" "must have an ID if it is custom";;
  Requiref (hasOrIsProvider o) "old" "must have or be a provider if it is a custom resource";;
  Requiref (negb (Delete o)) "old" "must not be marked for deletion";;
  Requiref (bool_decide (is_Some new)) "new" "must not be nil";;
  n ← deref new;
  Requiref (negb (isEmpty (URN n))) "new" "must have a URN";;
  Requiref (isEmpty (ID n)) "new" "must not have an ID";;
  Requiref (hasOrIsProvider n) "new" "must have or be a provider if it is a custom resource";;
  Requiref (negb (Delete n)) "new" "must not be marked for deletion";;
  mret (SameStep.mk deployment reg o n false).

(** The old state of a skipped create is a direct copy of the new state. *)
Definition NewSkippedCreateStep (deployment : option Deployment.t) (reg : option nat)
    (new : option State) : M SameStep.t :=
  Requiref (bool_decide (is_Some new)) "new" "must not be nil";;
  n ← deref new;
  Requiref (negb (isEmpty (URN n))) "new" "must have a URN";;
  Requiref (isEmpty (ID n)) "new" "must not have an ID";;
  Requiref (hasOrIsProvider n) "new" "must have or be a provider if it is a custom resource";;
  Requiref (negb (Delete n)) "new" "must not be marked for deletion";;
  let old := n in
  mret (SameStep.mk deployment reg old n true).

Definition NewCreateStep (deployment : option Deployment.t) (reg : option nat)
    (new : option State) : M CreateStep.t :=
  Requiref (bool_decide (is_Some reg)) "reg" "must not be nil";;
  Requiref (bool_decide (is_Some new)) "new" "must not be nil";;
  n ← deref new;
  Requiref (negb (isEmpty (URN n))) "new" "must have a URN";;
  Requiref (isEmpty (ID n)) "new" "must not have an ID";;
  Requiref (hasOrIsProvider n) "new" "must have or be a provider if it is a custom resource";;
  Requiref (negb (Delete n)) "new" "must not be marked for deletion";;
  Requiref (negb (External n)) "new" "must not be external";;
  mret (CreateStep.mk deployment reg None n false false).

Definition NewCreateReplacementStep (deployment : option Deployment.t) (reg : option nat)
    (old new : option State) (pendingDelete : bool) : M CreateStep.t :=
  Requiref (bool_decide (is_Some reg)) "reg" "must not be nil";;
  Requiref (bool_decide (is_Some old)) "old" "must not be nil";;
  o ← deref old;
  Requiref (negb (isEmpty (URN o))) "old" "must have a URN";;
  Requiref (negb (isEmpty (ID o)) || negb (Custom o)) "old"
    "must have an ID if it is a custom resource";;
  Requiref (negb (Delete o)) "old" "must not be marked for deletion";;
  Requiref (bool_decide (is_Some new)) "new" "must not be nil";;
  n ← deref new;
  Requiref (negb (isEmpty (URN n))) "new" "must have a URN";;
  Requiref (isEmpty (ID n)) "new" "must not have an ID";;
  Requiref (hasOrIsProvider n) "new" "must have or be a provider if it is a custom resource";;
  Requiref (negb (Delete n)) "new" "must not be marked for deletion";;
  Requiref (negb (External n)) "new" "must not be external";;
  mret (CreateStep.mk deployment reg (Some o) n true pendingDelete).

Definition NewUpdateStep (deployment : option Deployment.t) (reg : option nat)
    (old new : option State) (ignoreChanges : list string) : M UpdateStep.t :=
  Requiref (bool_decide (is_Some old)) "old" "must not be nil";;
  o ← deref old;
  Requiref (negb (isEmpty (URN o))) "old" "must have a URN";;
  Requiref (negb (isEmpty (ID o)) || negb (Custom o)) "old"
    "must have an ID if it is a custom resource";;
  Requiref (hasOrIsProvider o) "old" "must have or be a provider if it is a custom resource";;
  Requiref (negb (Delete o)) "old" "must not be marked for deletion";;
  Requiref (negb (External o)) "old" "must not be an external resource";;
  Requiref (bool_decide (is_Some new)) "new" "must not be nil";;
  n ← deref new;
  Requiref (negb (isEmpty (URN n))) "new" "must have a URN";;
  Requiref (isEmpty (ID n)) "new" "must not have an ID";;
  Requiref (hasOrIsProvider n) "new" "must have or be a provider if it is a custom resource";;
  Requiref (negb (Delete n)) "new" "must not be marked for deletion";;
  Requiref (negb (External n)) "new" "must not be an external resource";;
  mret (UpdateStep.mk deployment reg o n ignoreChanges).

Definition NewImportStep (deployment : option Deployment.t) (reg : option nat)
    (new : option State) (ignoreChanges : list string) (randomSeed : option (list Z))
    : M ImportStep.t :=
  Requiref (bool_decide (is_Some new)) "new" "must not be nil";;
  n ← deref new;
  Requiref (negb (isEmpty (URN n))) "new" "must have a URN";;
  Requiref (negb (isEmpty (ID n))) "new" "must have an ID";;
  Requiref (Custom n) "new" "must be a custom resource";;
  Requiref (negb (Delete n)) "new" "must not be marked for deletion";;
  Requiref (negb (External n)) "new" "must not be external";;
  Requiref (bool_decide (is_Some randomSeed)) "randomSeed" "must not be nil";;
  seed ← deref randomSeed;
  mret (ImportStep.mk deployment reg None None n false false [] ∅ ignoreChanges seed).

Definition NewImportReplacementStep (deployment : option Deployment.t) (reg : option nat)
    (original new : option State) (ignoreChanges : list string)
    (randomSeed : option (list Z)) : M ImportStep.t :=
  Requiref (bool_decide (is_Some original)) "original" "must not be nil";;
  orig ← deref original;
  Requiref (bool_decide (is_Some new)) "new" "must not be nil";;
  n ← deref new;
  Requiref (negb (isEmpty (URN n))) "new" "must have a URN";;
  Requiref (negb (isEmpty (ID n))) "new" "must have an ID";;
  Requiref (Custom n) "new" "must be a custom resource";;
  Requiref (negb (Delete n)) "new" "must not be marked for deletion";;
  Requiref (negb (External n)) "new" "must not be external";;
  Requiref (bool_decide (is_Some randomSeed)) "randomSeed" "must not be nil";;
  seed ← deref randomSeed;
  mret (ImportStep.mk deployment reg (Some orig) None n true false [] ∅ ignoreChanges seed).
End Constructors.

(** ** RemovePendingReplaceStep *)

Module RemovePendingReplaceStep.
Record t := mk {
  deployment : option Deployment.t;
  old : State
}.

Definition NewRemovePendingReplaceStep (deployment : option Deployment.t)
    (old : option State) : M t :=
  Requiref (bool_decide (is_Some old)) "old" "must not be nil";;
  o ← deref old;
  Requiref (PendingReplacement o) "old" "must be pending replacement";;
  mret (mk deployment o).

Definition Op (s : t) : StepOp := OpRemovePendingReplace.

Definition Apply (s : t) (preview : bool) : M (t * ApplyResult) :=
  mret (s, (StatusOK, None, None)).
End RemovePendingReplaceStep.

(** ** ReplaceStep *)

Module ReplaceStep.
Record t := mk {
  deployment : option Deployment.t;
  old : State;
  new : State;
  pendingDelete : bool
}.

Definition NewReplaceStep (deployment : option Deployment.t) (old new : option State)
    (pendingDelete : bool) : M t :=
  Requiref (bool_decide (is_Some old)) "old" "must not be nil";;
  o ← deref old;
  Requiref (negb (isEmpty (URN o))) "old" "must have a URN";;
  Requiref (negb (isEmpty (ID o)) || negb (Custom o)) "old"
    "must have an ID if it is a custom resource";;
  Requiref (negb (Delete o)) "old" "must not be marked for deletion";;
  Requiref (bool_decide (is_Some new)) "new" "must not be nil";;
  n ← deref new;
  Requiref (negb (isEmpty (URN n))) "new" "must have a URN";;
  Requiref (negb (Delete n)) "new" "must not be marked for deletion";;
  mret (mk deployment o n pendingDelete).

Definition Op (s : t) : StepOp := OpReplace.

(** If this is a pending delete, the old resource should have been marked
    for deletion in the CreateReplacement step. *)
Definition Apply (s : t) (preview : bool) : M (t * ApplyResult) :=
  Assertf (negb (pendingDelete s) || Delete (old s))
    ("old resource " +:+ URN (old s) +:+
     " should be marked for deletion if pending delete");;
  mret (s, (StatusOK, Some Nop, None)).
End ReplaceStep.

Section ImportDeployment.
Context `{Externals}.

(** [noopEvent(0)]: a registration event whose [Done] does nothing; it is
    the event numbered 0 here. *)
Definition newImportDeploymentStep (deployment : option Deployment.t) (new : option State)
    (randomSeed : option (list Z)) : M ImportStep.t :=
  Requiref (bool_decide (is_Some new)) "new" "must not be nil";;
  n ← deref new;
  Requiref (negb (isEmpty (URN n))) "new" "must have a URN";;
  Requiref (negb (Custom n) || negb (isEmpty (ID n))) "new" "must have an ID";;
  Requiref (negb (Delete n)) "new" "must not be marked for deletion";;
  Requiref (negb (External n)) "new" "must not be external";;
  Requiref (negb (Custom n) || bool_decide (is_Some randomSeed)) "randomSeed"
    "must not be nil";;
  mret (ImportStep.mk deployment (Some 0%nat) None None n false true [] ∅ []
          (default [] randomSeed)).
End ImportDeployment.

(** ** ReadStep *)

(** [plugin.UnknownStringValue] (sdk/go/common/resource/plugin, outside src/):
    the sentinel for an ID that is not known yet; taken as given. *)
Class Sentinels := {
  UnknownStringValue : string
}.

Module ReadStep.
Record t := mk {
  deployment : option Deployment.t;
  event : option nat;       (* the event that should be signaled upon completion *)
  old : option State;       (* the old resource state, if one exists for this urn *)
  new : State;
  replacing : bool
}.

Definition with_new (v : State) (s : t) : t :=
  mk (deployment s) (event s) (old s) v (replacing s).
Definition with_old (v : State) (s : t) : t :=
  mk (deployment s) (event s) (Some v) (new s) (replacing s).

#[global] Instance step : Step t :=
  {| StepType s := Type_ (new s); StepProvider s := Provider (new s);
     StepURN s := URN (new s); StepDeployment := deployment |}.

(** If old was given, it is either an external resource or its ID is equal to
    the ID that is about to be read. *)
Definition NewReadStep (deployment : option Deployment.t) (event : option nat)
    (old new : option State) : M t :=
  Requiref (bool_decide (is_Some new)) "new" "must not be nil";;
  n ← deref new;
  Requiref (negb (isEmpty (URN n))) "new" "must have a URN";;
  Requiref (negb (isEmpty (ID n))) "new" "must have an ID";;
  Requiref (External n) "new" "must be marked as external";;
  Requiref (Custom n) "new" "must be a custom resource";;
  match old with
  | Some o => Requiref (String.eqb (ID o) (ID n) || External o) "old"
                "must have the same ID as new or be external"
  | None => mret tt
  end;;
  mret (mk deployment event old n false).

Definition NewReadReplacementStep (deployment : option Deployment.t) (event : option nat)
    (old new : option State) : M t :=
  Requiref (bool_decide (is_Some new)) "new" "must not be nil";;
  n ← deref new;
  Requiref (negb (isEmpty (URN n))) "new" "must have a URN";;
  Requiref (negb (isEmpty (ID n))) "new" "must have an ID";;
  Requiref (External n) "new" "must be marked as external";;
  Requiref (Custom n) "new" "must be a custom resource";;
  Requiref (bool_decide (is_Some old)) "old" "must not be nil";;
  o ← deref old;
  Requiref (negb (External o)) "old" "must not be marked as external";;
  mret (mk deployment event (Some o) n true).

Definition Op (s : t) : StepOp :=
  if replacing s then OpReadReplacement else OpRead.
Definition Logical (s : t) : bool := negb (replacing s).

Section Apply.
Context `{Externals} `{Sentinels}.

(** From [if s.replacing] to the return.  The closure
    [func() { s.event.Done(&ReadResult{State: s.new}) }] completes the event
    with the new state, as [DoneReg] does a registration. *)
Definition finish (s : t) (resourceStatus : resource_Status) (resourceError : option error)
    : M (t * ApplyResult) :=
  s ← (if replacing s then o ← deref (old s); mret (with_old (set_Delete true o) s)
       else mret s);
  (* Propagate timestamps on Read. *)
  let s := match old s with
           | Some o =>
               let s := with_new (set_Created (Created o) (new s)) s in
               with_new (set_Modified (Modified o) (new s)) s
           | None => s
           end in
  let inputsChange := match old s with
                      | Some o => negb (DeepEquals (Inputs (new s)) (Inputs o))
                      | None => false
                      end in
  let outputsChange := match old s with
                       | Some o => negb (DeepEquals (Outputs (new s)) (Outputs o))
                       | None => false
                       end in
  s ← (if inputsChange || outputsChange
       then now ← time_Now; mret (with_new (set_Modified (Some now) (new s)) s)
       else mret s);
  mret (s, (resourceStatus, Some (DoneReg (event s)), resourceError)).

(** From the check of the outputs that Read returned on. *)
Definition store (s : t) (id : resource_ID) (result : plugin.ReadResult)
    (resourceStatus : resource_Status) (resourceError : option error) : M (t * ApplyResult) :=
  match plugin.rOutputs result with
  | None =>
      mret (s, (StatusOK, None,
                Some (errorString ("resource '" +:+ id +:+ "' does not exist"))))
  | Some outs =>
      let s := with_new (set_Outputs (Some outs) (new s)) s in
      let s := if negb (isEmpty (plugin.rID result))
               then with_new (set_ID (plugin.rID result) (new s)) s else s in
      finish s resourceStatus resourceError
  end.

Definition Apply (s : t) (preview : bool) : M (t * ApplyResult) :=
  let urn := URN (new s) in
  let id := ID (new s) in
  (* Read steps run during previews, unless the ID is unknown. *)
  if String.eqb id UnknownStringValue then
    finish (with_new (set_Outputs (Some ∅) (new s)) s) StatusOK None
  else
    p ← getProvider s;
    match p with
    | inr e => mret (s, (StatusOK, None, Some e))
    | inl prov =>
        '(result, rst, e) ← prov_Read prov urn id None (Inputs (new s));
        match e with
        | Some e =>
            if bool_decide (rst ≠ StatusPartialFailure) then
              mret (s, (rst, None, Some (FromProvider e)))
            else
              let s := match e with
                       | plugin_error.InitError Reasons =>
                           with_new (set_InitErrors Reasons (new s)) s
                       | plugin_error.Other _ => s
                       end in
              store s id result rst (Some (FromProvider e))
        | None => store s id result StatusOK None
        end
    end.
End Apply.
End ReadStep.

(** ** Vocabulary of the statements about the rest of step.go *)

(** What every constructor requires of a desired state: a URN, no ID, a
    provider if it is custom, and no deletion mark. *)
Definition desired `{Externals} (n : State) : bool :=
  negb (isEmpty (URN n)) && isEmpty (ID n) && hasOrIsProvider n && negb (Delete n).



(** The Read call of a read step, and the provider's answer to it. *)
Definition readCall (s : ReadStep.t) : plugin.RPC :=
  let n := ReadStep.new s in
  plugin.ReadRPC (URN n) (ID n) None (Inputs n).

Definition readAnswer (s : ReadStep.t) (prov : plugin.Provider) :=
  let n := ReadStep.new s in
  plugin.onRead prov (URN n) (ID n) None (Inputs n).

(** The Read call of an import step. *)
Definition importCall (s : ImportStep.t) : plugin.RPC :=
  let n := ImportStep.new s in
  plugin.ReadRPC (URN n) (ID n) None None.



Module MoreExamples.
(** Plain names for the colors. *)
#[global] Instance colors : Colors | 100 := {|
  colors_SpecUnimportant := "<unimportant>";
  colors_SpecCreate := "<create>";
  colors_SpecDelete := "<delete>";
  colors_SpecUpdate := "<update>";
  colors_SpecReplace := "<replace>";
  colors_SpecCreateReplacement := "<create-replacement>";
  colors_SpecDeleteReplaced := "<delete-replaced>";
  colors_SpecRead := "<read>";
  colors_Bold := "<bold>";
  colors_Reset := "<reset>"
|}.

#[global] Instance sentinels : Sentinels | 100 := {|
  UnknownStringValue := "04da6b54-80e4-46f7-96ec-b56ff0331ba9"
|}.
End MoreExamples.

(** [NewReadReplacementStep] requires a non-nil [old], and only it sets
    [replacing]: a read step that is to pend a deletion has its old state. *)
Definition hasOldIfReplacing (s : ReadStep.t) : Prop :=
  ReadStep.replacing s = true -> is_Some (ReadStep.old s).

(** The timestamps a read leaves on the new state [n], given the old state
    of the step: without old state they are not touched; with one, [Created]
    is inherited and [Modified] is inherited or, when inputs or outputs
    differ, read from the clock. *)
Definition readStamps `{Externals} (old : option State) (n n' : State) (now : Time) : Prop :=
  match old with
  | None => Created n' = Created n /\ Modified n' = Modified n
  | Some o =>
      Created n' = Created o /\
      Modified n' = (if DeepEquals (Inputs n') (Inputs o) &&
                        DeepEquals (Outputs n') (Outputs o)
                     then Modified o else Some now)
  end.


(** * Properties *)

(** ** The monad *)

Lemma bind_Ok {A B} (m : M A) (f : A -> M B) (w w' : World) (a : A) :
  m w = Ok a w' -> (m ≫= f) w = f a w'.
Proof. intros E. unfold mbind, M_bind. now rewrite E. Qed.

Lemma bind_inv {A B} (m : M A) (f : A -> M B) (w w' : World) (b : B) :
  (m ≫= f) w = Ok b w' -> exists a w1, m w = Ok a w1 /\ f a w1 = Ok b w'.
Proof.
  unfold mbind, M_bind. destruct (m w) as [a w1|msg]; [|discriminate].
  intros E. now exists a, w1.
Qed.

(** ** ConstrainedTo *)

Lemma ConstrainedTo_table_all :
  forallb (fun constraint =>
             forallb (fun op => Bool.eqb (ConstrainedTo op constraint) (spec_table op constraint))
                     StepOps) StepOps = true.
Proof. vm_compute. reflexivity. Qed.

(** C4: on the fifteen step operations, [ConstrainedTo] agrees with the table
    of the specification, pair by pair. *)
Theorem ConstrainedTo_table (op constraint : StepOp) :
  In op StepOps -> In constraint StepOps ->
  ConstrainedTo op constraint = spec_table op constraint.
Proof.
  intros Hop Hc.
  pose proof ConstrainedTo_table_all as Hall.
  rewrite forallb_forall in Hall. specialize (Hall _ Hc).
  rewrite forallb_forall in Hall. specialize (Hall _ Hop).
  now apply Bool.eqb_prop in Hall.
Qed.

Lemma ConstrainedTo_table_witness :
  ConstrainedTo OpUpdate OpDeleteReplaced = spec_table OpUpdate OpDeleteReplaced /\
  ConstrainedTo OpUpdate OpDeleteReplaced = true /\
  ConstrainedTo OpCreate OpDeleteReplaced = false.
Proof.
  split; [|split; reflexivity].
  apply (ConstrainedTo_table OpUpdate OpDeleteReplaced); unfold StepOps; simpl; tauto.
Defined.

(** ** Strings *)

Lemma append_assoc (a b c : string) : (a +:+ b) +:+ c = a +:+ b +:+ c.
Proof.
  induction a as [|x a IH]; [reflexivity|].
  change (String x ((a +:+ b) +:+ c) = String x (a +:+ b +:+ c)). now rewrite IH.
Qed.

Lemma append_empty (s : string) : s +:+ EmptyString = s.
Proof.
  induction s as [|x s IH]; [reflexivity|].
  change (String x (s +:+ EmptyString) = String x s). now rewrite IH.
Qed.

Lemma contains_refl (s : string) : contains s s.
Proof.
  exists EmptyString, EmptyString. now rewrite append_empty.
Qed.

Lemma contains_right (a s sub : string) : contains s sub -> contains (a +:+ s) sub.
Proof.
  intros (pre & post & ->). exists (a +:+ pre), post. now rewrite append_assoc.
Qed.

Lemma contains_left (s b sub : string) : contains s sub -> contains (s +:+ b) sub.
Proof.
  intros (pre & post & ->). exists pre, (post +:+ b). now rewrite !append_assoc.
Qed.

Create HintDb contains.
#[local] Hint Resolve contains_refl contains_right contains_left : contains.

(** ** Running the steps *)

(** Unfold the monad and the recorded operations down to matches on worlds. *)
Ltac run :=
  repeat (unfold mbind, M_bind, mret, M_ret, Assertf, deref, panic, call, emit, time_Now,
            Warningf, Errorf, prov_Create, prov_Update, prov_Delete, prov_Read, prov_Check
            in *; simpl in *).

Lemma getProvider_world `{Externals} {T} `{Step T} (s : T) (w w' : World) r :
  getProvider s w = Ok r w' -> w' = w.
Proof.
  unfold getProvider. run.
  destruct (IsProviderType _).
  - destruct (StepDeployment s); [|discriminate]. now intros [= _ ->].
  - destruct (ParseReference _) as [ref|e]; [|now intros [= _ ->]].
    destruct (IsDenyDefaultsProvider ref); [now intros [= _ ->]|].
    destruct (StepDeployment s); [|discriminate].
    destruct (Deployment.GetProvider _ _); now intros [= _ ->].
Qed.

Lemma getProvider_deployment `{Externals} {T} `{Step T} (s : T) (w w' : World) prov :
  getProvider s w = Ok (inl prov) w' -> is_Some (StepDeployment s).
Proof.
  unfold getProvider. run.
  destruct (IsProviderType _).
  - destruct (StepDeployment s); [eauto|discriminate].
  - destruct (ParseReference _) as [ref|e]; [|discriminate].
    destruct (IsDenyDefaultsProvider ref); [discriminate|].
    destruct (StepDeployment s); [eauto|discriminate].
Qed.

Lemma getProvider_error `{Externals} {T} `{Step T} (s : T) (w w' : World) e :
  getProvider s w = Ok (inr e) w' -> exists msg, e = errorString msg.
Proof.
  unfold getProvider. run.
  destruct (IsProviderType _).
  - destruct (StepDeployment s); discriminate.
  - destruct (ParseReference _) as [ref|e']; [|intros [= <- _]; eauto].
    destruct (IsDenyDefaultsProvider ref); [intros [= <- _]; eauto|].
    destruct (StepDeployment s); [|discriminate].
    destruct (Deployment.GetProvider _ _); [discriminate|intros [= <- _]; eauto].
Qed.

(** ** NewDeleteReplacementStep *)

Section DeleteConstructors.
Context `{Externals}.

(** C10: [NewDeleteReplacementStep] aborts unless exactly one of
    [pendingReplace] and [old.Delete] holds, so also when both are false;
    when its other preconditions hold and exactly one of the two holds it
    returns the replacing step with [old.PendingReplacement] set to
    [pendingReplace]; and whenever it returns, that is what it returns. *)
Theorem NewDeleteReplacementStep_contract (deployment : option Deployment.t)
    (otherDeletions : option (gmap string bool)) (o : State) (pendingReplace : bool)
    (w : World) :
  let r := DeleteStep.NewDeleteReplacementStep deployment otherDeletions (Some o)
             pendingReplace w in
  (pendingReplace = Delete o -> exists msg, r = Panic msg) /\
  (pendingReplace = false -> Delete o = false -> exists msg, r = Panic msg) /\
  (validOld o = true -> is_Some otherDeletions -> pendingReplace <> Delete o ->
     r = Ok (DeleteStep.mk deployment (set_PendingReplacement pendingReplace o) true
               otherDeletions) w) /\
  (forall s w', r = Ok s w' ->
     xorb pendingReplace (Delete o) = true /\
     PendingReplacement (DeleteStep.old s) = pendingReplace /\
     DeleteStep.replacing s = true /\
     DeleteStep.old s = set_PendingReplacement pendingReplace o).
Proof.
  unfold DeleteStep.NewDeleteReplacementStep, DeleteStep.requireOld, validOld. run.
  destruct (isEmpty (URN o)); simpl.
  { repeat split; eauto; try discriminate. }
  destruct (negb (isEmpty (ID o)) || negb (Custom o)); simpl.
  2: { repeat split; eauto; try discriminate. }
  destruct (negb (Custom o) || negb (isEmpty (Provider o)) || IsProviderType (Type_ o));
    simpl.
  2: { repeat split; eauto; try discriminate. }
  destruct otherDeletions as [m|]; simpl.
  2: { repeat split; eauto; try discriminate. intros _ [? ?]; discriminate. }
  destruct pendingReplace, (Delete o) eqn:D; simpl;
    repeat split; eauto; try discriminate; try congruence;
    try (intros; simplify_eq; simpl; reflexivity);
    try (intros; simplify_eq).
Qed.
End DeleteConstructors.

Lemma NewDeleteReplacementStep_contract_witness :
  let o := Examples.state "urn:a" "aws:s3/bucket:Bucket" true "id-1" in
  DeleteStep.NewDeleteReplacementStep None (Some ∅) (Some o) true (Examples.world 0) =
    Ok (DeleteStep.mk None (set_PendingReplacement true o) true (Some ∅)) (Examples.world 0) /\
  exists msg,
    DeleteStep.NewDeleteReplacementStep None (Some ∅) (Some o) false (Examples.world 0) =
      Panic msg.
Proof.
  intros o. split.
  - apply (NewDeleteReplacementStep_contract None (Some ∅) o true (Examples.world 0));
      [reflexivity | done | discriminate].
  - apply (NewDeleteReplacementStep_contract None (Some ∅) o false (Examples.world 0));
      reflexivity.
Defined.

(** ** DeleteStep.Apply *)

Section DeleteProperties.
Context `{Externals}.

Lemma deleteProtected_message_urn (urn : resource_URN) :
  contains (deleteProtectedError_Error urn) urn.
Proof.
  unfold deleteProtectedError_Error, Quote.
  do 5 apply contains_right. apply contains_left. apply contains_right.
  apply contains_left. apply contains_refl.
Qed.

Lemma deleteProtected_message_hint (urn : resource_URN) :
  contains (deleteProtectedError_Error urn) unprotectHint.
Proof.
  unfold deleteProtectedError_Error.
  do 4 apply contains_right. apply contains_left. apply contains_refl.
Qed.

Lemma DeleteStep_replacing_error (s : DeleteStep.t) (preview : bool) (w w' : World) s' r :
  DeleteStep.replacing s = true ->
  DeleteStep.Apply s preview w = Ok (s', r) w' ->
  forall urn, err r <> Some (deleteProtectedError urn).
Proof.
  intros R. unfold DeleteStep.Apply. rewrite R. simpl.
  repeat match goal with
         | |- context [if ?b then _ else _] => destruct b
         end; run; try (intros [= <- <- <-]; discriminate).
  destruct (getProvider s w) as [[prov|e] w1|] eqn:E; try discriminate.
  - destruct (plugin.onDelete _ _ _ _ _ _) as [rst [e|]];
      intros [= <- <- <-]; discriminate.
  - intros [= <- <- <-] urn. simpl. intros [= ->].
    apply getProvider_error in E as [msg [=]].
Qed.

(** C2: a plain (non-replacing) delete of a protected state returns
    [StatusOK], a nil Complete and the [deleteProtectedError] of the
    resource, whose message contains the URN and the unprotect hint; the
    provider is not called and the step and its old state are left as they
    were.  The replacing delete of the same state does not return that
    error. *)
Theorem DeleteStep_protected (deployment : option Deployment.t)
    (otherDeletions : option (gmap string bool)) (old : State) (preview : bool) (w : World) :
  Protect old = true ->
  let plain := DeleteStep.mk deployment old false otherDeletions in
  let repl := DeleteStep.mk deployment old true otherDeletions in
  DeleteStep.Apply plain preview w =
    Ok (plain, (StatusOK, None, Some (deleteProtectedError (URN old)))) w /\
  contains (deleteProtectedError_Error (URN old)) (URN old) /\
  contains (deleteProtectedError_Error (URN old)) unprotectHint /\
  (forall s' r w', DeleteStep.Apply repl preview w = Ok (s', r) w' ->
                   forall urn, err r <> Some (deleteProtectedError urn)).
Proof.
  intros P plain repl. repeat split.
  - unfold DeleteStep.Apply. simpl. now rewrite P.
  - apply deleteProtected_message_urn.
  - apply deleteProtected_message_hint.
  - intros s' r w'. now apply DeleteStep_replacing_error.
Qed.
End DeleteProperties.

Lemma DeleteStep_protected_witness :
  let old := Examples.protect (Examples.state "urn:c" "aws:s3/bucket:Bucket" true "x") in
  let plain := DeleteStep.mk None old false (Some ∅) in
  Protect old = true /\
  DeleteStep.Apply plain false (Examples.world 0) =
    Ok (plain, (StatusOK, None, Some (deleteProtectedError "urn:c"))) (Examples.world 0) /\
  contains (deleteProtectedError_Error "urn:c") "urn:c".
Proof.
  intros old plain.
  pose proof (DeleteStep_protected None (Some ∅) old false (Examples.world 0) eq_refl)
    as (E & U & _).
  split; [reflexivity|]. split; [exact E|exact U].
Defined.

Section DeleteMatrix.
Context `{Externals}.

(** A row of the matrix in which the provider is left alone. *)
Ltac skipped_row :=
  split; [reflexivity|];
  split; [intros ([=] & _)|];
  intros ? ? ? [= <- <- <-]; split; [reflexivity|]; right;
  split; [intros ([=] & _)|reflexivity].

(** C3, as amended: for a delete step that is replacing or whose old state
    is not protected, (1) under preview, [External], [RetainOnDelete] or a
    [DeletedWith] found true in the deletion set, the step returns
    [StatusOK] with a Complete and no error and calls nothing; (2) when
    none of those holds, the old state is [Custom] and its provider
    resolves, the step makes the [Delete(URN, ID, inputs, outputs, timeout)]
    call and only that; (3) whenever the step returns, it has made that one
    call if the conditions of (2) hold and no call otherwise, and the step
    is unchanged. *)
Theorem DeleteStep_matrix (s : DeleteStep.t) (preview : bool) (w : World) :
  DeleteStep.replacing s = true \/ Protect (DeleteStep.old s) = false ->
  (deleteSkipped s preview = true ->
     DeleteStep.Apply s preview w = Ok (s, (StatusOK, Some Nop, None)) w) /\
  (deleteRuns s preview w ->
     exists r w', DeleteStep.Apply s preview w = Ok (s, r) w' /\
                  callsBetween w w' [deleteCall s]) /\
  (forall s' r w', DeleteStep.Apply s preview w = Ok (s', r) w' ->
     s' = s /\
     ((deleteRuns s preview w /\ callsBetween w w' [deleteCall s]) \/
      (~ deleteRuns s preview w /\ w' = w))).
Proof.
  intros G.
  assert (negb (DeleteStep.replacing s) && Protect (DeleteStep.old s) = false) as G'.
  { destruct G as [-> | ->]; [reflexivity|apply andb_false_r]. }
  unfold DeleteStep.Apply, deleteRuns, deleteSkipped. rewrite G'. clear G G'.
  destruct preview; simpl; [skipped_row|].
  destruct (External _); simpl; [skipped_row|].
  destruct (RetainOnDelete _); simpl; [skipped_row|].
  destruct (isDeletedWith _ _); simpl; [skipped_row|].
  split; [discriminate|].
  destruct (Custom (DeleteStep.old s)) eqn:C.
  2: { split.
       - intros (_ & [=] & _).
       - intros s' r w' [= <- <- <-]. split; [reflexivity|]. right.
         split; [|reflexivity]. intros (_ & [=] & _). }
  run. destruct (getProvider s w) as [[prov|e] w1|] eqn:P.
  - pose proof (getProvider_world _ _ _ _ P) as ->.
    unfold callsBetween, deleteCall.
    destruct (plugin.onDelete _ _ _ _ _ _) as [rst [e|]] eqn:D; simpl; split.
    + intros _. eexists _, _. split; reflexivity.
    + intros s' r w' [= <- <- <-]. split; [reflexivity|]. left. eauto.
    + intros _. eexists _, _. split; reflexivity.
    + intros s' r w' [= <- <- <-]. split; [reflexivity|]. left. eauto.
  - pose proof (getProvider_world _ _ _ _ P) as ->. split.
    + intros (_ & _ & prov & [=]).
    + intros s' r w' [= <- <- <-]. split; [reflexivity|]. right.
      split; [|reflexivity]. intros (_ & _ & prov & [=]).
  - split.
    + intros (_ & _ & prov & [=]).
    + discriminate.
Qed.
End DeleteMatrix.

(** The claim of the delete matrix without the protect row fails: a preview
    of a plain delete of a protected state returns the protect error. *)
Lemma DeleteStep_matrix_counterexample :
  let old := Examples.protect (Examples.state "urn:c" "aws:s3/bucket:Bucket" true "x") in
  let s := DeleteStep.mk None old false (Some ∅) in
  deleteSkipped s true = true /\
  DeleteStep.Apply s true (Examples.world 0) =
    Ok (s, (StatusOK, None, Some (deleteProtectedError "urn:c"))) (Examples.world 0).
Proof. split; reflexivity. Qed.

Lemma DeleteStep_matrix_witness :
  let p := Examples.provider "id" StatusOK None Examples.noRead in
  let old := Examples.state "urn:c" "aws:s3/bucket:Bucket" true "x" in
  let s := DeleteStep.mk (Some (Examples.deployment p None)) old false (Some ∅) in
  (DeleteStep.Apply s true (Examples.world 0) =
     Ok (s, (StatusOK, Some Nop, None)) (Examples.world 0)) /\
  (exists r w', DeleteStep.Apply s false (Examples.world 0) = Ok (s, r) w' /\
                callsBetween (Examples.world 0) w'
                  [plugin.DeleteRPC "urn:c" "x" (Some ∅) None 0]).
Proof.
  intros p old s. split.
  - apply (DeleteStep_matrix s true (Examples.world 0)); [right|]; reflexivity.
  - apply (DeleteStep_matrix s false (Examples.world 0)); [right; reflexivity|].
    split; [reflexivity|]. split; [reflexivity|]. exists p. reflexivity.
Defined.

(** ** CreateStep.Apply *)

Lemma isEmpty_false (s : string) : s <> EmptyString -> isEmpty s = false.
Proof. destruct s; [congruence|reflexivity]. Qed.

Lemma isEmpty_true (s : string) : isEmpty s = true -> s = EmptyString.
Proof. destruct s; [reflexivity|discriminate]. Qed.

Section CreateProperties.
Context `{Externals}.

(** [Apply] on a custom resource whose provider resolves, up to the check
    of the returned ID. *)
Lemma CreateStep_Apply_custom (s : CreateStep.t) (preview : bool) (w : World) prov d id outs
    rst e :
  Custom (CreateStep.new s) = true ->
  getProvider s w = Ok (inl prov) w ->
  CreateStep.deployment s = Some d ->
  createAnswer s d prov = (id, outs, rst, e) ->
  CreateStep.Apply s preview w =
    match e with
    | Some e =>
        if bool_decide (rst ≠ StatusPartialFailure) then
          Ok (s, (rst, None, Some (FromProvider e))) (called w (createCall s d))
        else
          CreateStep.store
            (match e with
             | plugin_error.InitError Reasons =>
                 CreateStep.with_new (set_InitErrors Reasons (CreateStep.new s)) s
             | plugin_error.Other _ => s
             end) preview id outs rst (Some (FromProvider e)) (called w (createCall s d))
    | None => CreateStep.store s preview id outs StatusOK None (called w (createCall s d))
    end.
Proof.
  intros C P D A. unfold CreateStep.Apply, createAnswer in *. rewrite C.
  rewrite (bind_Ok _ _ _ _ _ P). rewrite D. run. rewrite A.
  destruct e as [e|]; [|reflexivity].
  destruct (bool_decide _); reflexivity.
Qed.

(** [finish] returns once a pending deletion has its old state. *)
Lemma CreateStep_finish (s : CreateStep.t) (st : resource_Status) (e : option error)
    (w : World) :
  hasOldIfPending s ->
  exists s', CreateStep.finish s st e w = Ok (s', (st, Some (DoneReg (CreateStep.reg s)), e)) w /\
             ID (CreateStep.new s') = ID (CreateStep.new s) /\
             Outputs (CreateStep.new s') = Outputs (CreateStep.new s) /\
             InitErrors (CreateStep.new s') = InitErrors (CreateStep.new s) /\
             Created (CreateStep.new s') = Some (clock w) /\
             Modified (CreateStep.new s') = Some (clock w).
Proof.
  intros O. unfold CreateStep.finish, hasOldIfPending in *. run.
  destruct (CreateStep.replacing s && CreateStep.pendingDelete s).
  - destruct O as [o ->]; [reflexivity|]. simpl. eexists. split; [reflexivity|]. simpl. auto.
  - eexists. split; [reflexivity|]. simpl. auto.
Qed.

(** C5: a non-preview create of a custom resource whose provider returns an
    empty ID fails, with an error and a nil Complete; when the provider
    returns an ID and no error, the step succeeds with that ID and those
    outputs stored on the new state and [Created] and [Modified] both set
    to the instant read from the clock during [Apply]. *)
Theorem CreateStep_id_and_timestamps (s : CreateStep.t) (w : World) prov d id outs rst e :
  Custom (CreateStep.new s) = true ->
  getProvider s w = Ok (inl prov) w ->
  CreateStep.deployment s = Some d ->
  hasOldIfPending s ->
  createAnswer s d prov = (id, outs, rst, e) ->
  (id = EmptyString ->
     exists s' st e' w',
       CreateStep.Apply s false w = Ok (s', (st, None, Some e')) w') /\
  (id <> EmptyString -> e = None ->
     exists s' c,
       CreateStep.Apply s false w =
         Ok (s', (StatusOK, Some c, None)) (called w (createCall s d)) /\
       ID (CreateStep.new s') = id /\
       Outputs (CreateStep.new s') = outs /\
       Created (CreateStep.new s') = Some (clock w) /\
       Modified (CreateStep.new s') = Some (clock w)).
Proof.
  intros C P D O A. rewrite (CreateStep_Apply_custom s false w _ _ _ _ _ _ C P D A).
  split.
  - intros ->. unfold CreateStep.store. simpl.
    destruct e as [e|]; [|eauto].
    destruct (bool_decide _); eauto.
  - intros N ->. unfold CreateStep.store. rewrite (isEmpty_false _ N). simpl.
    edestruct (CreateStep_finish
                 (CreateStep.with_new
                    (set_Outputs outs
                       (CreateStep.new (CreateStep.with_new (set_ID id (CreateStep.new s)) s)))
                    (CreateStep.with_new (set_ID id (CreateStep.new s)) s))
                 StatusOK None (called w (createCall s d)))
      as (s' & E & I & U & _ & Cr & Mo); [exact O|].
    exists s', (DoneReg (CreateStep.reg s)). split; [exact E|]. simpl in *. auto.
Qed.

(** The create half of C1, as amended. *)
Lemma CreateStep_partial_failure (s : CreateStep.t) (w : World) prov d id outs reasons :
  Custom (CreateStep.new s) = true ->
  getProvider s w = Ok (inl prov) w ->
  CreateStep.deployment s = Some d ->
  hasOldIfPending s ->
  createAnswer s d prov =
    (id, outs, StatusPartialFailure, Some (plugin_error.InitError reasons)) ->
  id <> EmptyString ->
  exists s' c w',
    CreateStep.Apply s false w =
      Ok (s', (StatusPartialFailure, Some c,
               Some (FromProvider (plugin_error.InitError reasons)))) w' /\
    InitErrors (CreateStep.new s') = reasons.
Proof.
  intros C P D O A N. rewrite (CreateStep_Apply_custom s false w _ _ _ _ _ _ C P D A).
  rewrite bool_decide_eq_false_2 by (intros X; now apply X).
  unfold CreateStep.store. rewrite (isEmpty_false _ N). simpl.
  match goal with
  | |- context [CreateStep.finish ?s1 ?st ?e ?w1] =>
      destruct (CreateStep_finish s1 st e w1) as (s' & E & _ & _ & I & _); [exact O|]
  end.
  exists s', (DoneReg (CreateStep.reg s)), (called w (createCall s d)).
  split; [exact E|]. rewrite I. reflexivity.
Qed.

Lemma CreateStep_hard_error (s : CreateStep.t) (preview : bool) (w : World) prov d id outs
    rst e :
  Custom (CreateStep.new s) = true ->
  getProvider s w = Ok (inl prov) w ->
  CreateStep.deployment s = Some d ->
  createAnswer s d prov = (id, outs, rst, Some e) ->
  rst <> StatusPartialFailure ->
  CreateStep.Apply s preview w =
    Ok (s, (rst, None, Some (FromProvider e))) (called w (createCall s d)).
Proof.
  intros C P D A N. rewrite (CreateStep_Apply_custom s preview w _ _ _ _ _ _ C P D A).
  now rewrite bool_decide_eq_true_2.
Qed.
End CreateProperties.

Lemma CreateStep_id_and_timestamps_witness :
  let p := Examples.provider "id-7" StatusOK None Examples.noRead in
  let d := Examples.deployment p None in
  let s := CreateStep.mk (Some d) (Some 0%nat)
             None (Examples.state "urn:b" "aws:s3/bucket:Bucket" true EmptyString)
             false false in
  exists s' c,
    CreateStep.Apply s false (Examples.world 1000) =
      Ok (s', (StatusOK, Some c, None)) (called (Examples.world 1000) (createCall s d)) /\
    ID (CreateStep.new s') = "id-7" /\
    Outputs (CreateStep.new s') = Examples.outs "z" "9" /\
    Created (CreateStep.new s') = Some 1000 /\
    Modified (CreateStep.new s') = Some 1000.
Proof.
  intros p d s.
  apply (CreateStep_id_and_timestamps s (Examples.world 1000) p d "id-7"
           (Examples.outs "z" "9") StatusOK None);
    try reflexivity; discriminate.
Defined.

(** ** UpdateStep.Apply *)

Section UpdateProperties.
Context `{Externals}.

Lemma UpdateStep_Apply_component (s : UpdateStep.t) (preview : bool) (w : World) :
  Custom (UpdateStep.new s) = false ->
  UpdateStep.Apply s preview w =
    Ok (inherited s, (StatusOK, Some (DoneReg (UpdateStep.reg s)), None)) w.
Proof. intros C. unfold UpdateStep.Apply. simpl. now rewrite C. Qed.

Lemma UpdateStep_Apply_custom (s : UpdateStep.t) (preview : bool) (w : World) prov d outs
    rst e :
  Custom (UpdateStep.new s) = true ->
  getProvider s w = Ok (inl prov) w ->
  UpdateStep.deployment s = Some d ->
  updateAnswer s d prov = (outs, rst, e) ->
  UpdateStep.Apply s preview w =
    match e with
    | Some e =>
        if bool_decide (rst ≠ StatusPartialFailure) then
          Ok (inherited s, (rst, None, Some (FromProvider e))) (called w (updateCall s d))
        else
          UpdateStep.store
            (match e with
             | plugin_error.InitError Reasons =>
                 UpdateStep.with_new (set_InitErrors Reasons (UpdateStep.new (inherited s)))
                   (inherited s)
             | plugin_error.Other _ => inherited s
             end) outs rst (Some (FromProvider e)) (called w (updateCall s d))
    | None => UpdateStep.store (inherited s) outs StatusOK None (called w (updateCall s d))
    end.
Proof.
  intros C P D A. unfold UpdateStep.Apply, updateAnswer in *. simpl. rewrite C.
  assert (getProvider (inherited s) w = Ok (inl prov) w) as P' by exact P.
  unfold inherited in P'. simpl in P'.
  rewrite (bind_Ok _ _ _ _ _ P'). run. rewrite D. simpl. rewrite A.
  destruct e as [e|]; [|reflexivity].
  destruct (bool_decide _); [reflexivity|]. destruct e; reflexivity.
Qed.

Lemma UpdateStep_partial_failure (s : UpdateStep.t) (preview : bool) (w : World) prov d outs
    reasons :
  Custom (UpdateStep.new s) = true ->
  getProvider s w = Ok (inl prov) w ->
  UpdateStep.deployment s = Some d ->
  updateAnswer s d prov = (outs, StatusPartialFailure, Some (plugin_error.InitError reasons)) ->
  exists s' c w',
    UpdateStep.Apply s preview w =
      Ok (s', (StatusPartialFailure, Some c,
               Some (FromProvider (plugin_error.InitError reasons)))) w' /\
    InitErrors (UpdateStep.new s') = reasons.
Proof.
  intros C P D A. rewrite (UpdateStep_Apply_custom s preview w _ _ _ _ _ C P D A).
  rewrite bool_decide_eq_false_2 by (intros X; now apply X).
  unfold UpdateStep.store. run. eexists _, _, _. split; reflexivity.
Qed.

Lemma UpdateStep_hard_error (s : UpdateStep.t) (preview : bool) (w : World) prov d outs
    rst e :
  Custom (UpdateStep.new s) = true ->
  getProvider s w = Ok (inl prov) w ->
  UpdateStep.deployment s = Some d ->
  updateAnswer s d prov = (outs, rst, Some e) ->
  rst <> StatusPartialFailure ->
  UpdateStep.Apply s preview w =
    Ok (inherited s, (rst, None, Some (FromProvider e))) (called w (updateCall s d)).
Proof.
  intros C P D A N. rewrite (UpdateStep_Apply_custom s preview w _ _ _ _ _ C P D A).
  now rewrite bool_decide_eq_true_2.
Qed.

(** Whatever [Apply] returns, the step it leaves has the old state's ID and
    [Created] on [new]; with a Complete, [Modified] is the clock reading for
    a custom resource and the old value for a component. *)
Lemma UpdateStep_returns (s s' : UpdateStep.t) (preview : bool) (w w' : World) r :
  UpdateStep.Apply s preview w = Ok (s', r) w' ->
  UpdateStep.old s' = UpdateStep.old s /\
  ID (UpdateStep.new s') = ID (UpdateStep.old s) /\
  Created (UpdateStep.new s') = Created (UpdateStep.old s) /\
  (is_Some (complete r) ->
     Modified (UpdateStep.new s') =
       if Custom (UpdateStep.new s) then Some (clock w) else Modified (UpdateStep.old s)).
Proof.
  destruct (Custom (UpdateStep.new s)) eqn:C.
  2: { rewrite UpdateStep_Apply_component by exact C. intros [= <- <- <-]. simpl. auto. }
  unfold UpdateStep.Apply. simpl. rewrite C.
  intros E. apply bind_inv in E as ([prov|e] & w1 & P & E).
  2: { revert E. run. intros [= <- <- <-]. simpl. repeat split; auto.
       intros [? [=]]. }
  pose proof (getProvider_world _ _ _ _ P) as ->.
  revert E. run. destruct (UpdateStep.deployment s); [|discriminate]. simpl.
  destruct (plugin.onUpdate _ _ _ _ _ _ _ _ _) as [[outs rst] [e|]].
  - destruct (bool_decide _).
    + intros [= <- <- <-]. simpl. repeat split; auto. intros [? [=]].
    + unfold UpdateStep.store. run. destruct e; intros [= <- <- <-]; simpl; auto.
  - unfold UpdateStep.store. run. intros [= <- <- <-]; simpl; auto.
Qed.
End UpdateProperties.

Section PartialFailure.
Context `{Externals}.

(** C1, as amended: applied outside preview to a custom resource whose
    provider resolves, (1) a create step whose provider answers with a
    non-empty ID, status PartialFailure and an [InitError] leaves the
    reasons of that error on [new.InitErrors] and returns PartialFailure, a
    Complete and the error; (2) an update step does so whatever the
    provider returns besides; (3, 4) for either step, a provider error
    with any status other than PartialFailure makes [Apply] return that
    status, a nil Complete and the error. *)
Theorem partial_failure_round_trip :
  (forall (s : CreateStep.t) (w : World) prov d id outs reasons,
      Custom (CreateStep.new s) = true ->
      getProvider s w = Ok (inl prov) w ->
      CreateStep.deployment s = Some d ->
      hasOldIfPending s ->
      createAnswer s d prov =
        (id, outs, StatusPartialFailure, Some (plugin_error.InitError reasons)) ->
      id <> EmptyString ->
      exists s' c w',
        CreateStep.Apply s false w =
          Ok (s', (StatusPartialFailure, Some c,
                   Some (FromProvider (plugin_error.InitError reasons)))) w' /\
        InitErrors (CreateStep.new s') = reasons) /\
  (forall (s : UpdateStep.t) (w : World) prov d outs reasons,
      Custom (UpdateStep.new s) = true ->
      getProvider s w = Ok (inl prov) w ->
      UpdateStep.deployment s = Some d ->
      updateAnswer s d prov =
        (outs, StatusPartialFailure, Some (plugin_error.InitError reasons)) ->
      exists s' c w',
        UpdateStep.Apply s false w =
          Ok (s', (StatusPartialFailure, Some c,
                   Some (FromProvider (plugin_error.InitError reasons)))) w' /\
        InitErrors (UpdateStep.new s') = reasons) /\
  (forall (s : CreateStep.t) (w : World) prov d id outs rst e,
      Custom (CreateStep.new s) = true ->
      getProvider s w = Ok (inl prov) w ->
      CreateStep.deployment s = Some d ->
      createAnswer s d prov = (id, outs, rst, Some e) ->
      rst <> StatusPartialFailure ->
      exists s' w',
        CreateStep.Apply s false w = Ok (s', (rst, None, Some (FromProvider e))) w') /\
  (forall (s : UpdateStep.t) (w : World) prov d outs rst e,
      Custom (UpdateStep.new s) = true ->
      getProvider s w = Ok (inl prov) w ->
      UpdateStep.deployment s = Some d ->
      updateAnswer s d prov = (outs, rst, Some e) ->
      rst <> StatusPartialFailure ->
      exists s' w',
        UpdateStep.Apply s false w = Ok (s', (rst, None, Some (FromProvider e))) w').
Proof.
  repeat split.
  - intros. eapply CreateStep_partial_failure; eauto.
  - intros. eapply UpdateStep_partial_failure; eauto.
  - intros. eexists _, _. eapply CreateStep_hard_error; eauto.
  - intros. eexists _, _. eapply UpdateStep_hard_error; eauto.
Qed.

(** C6, as amended: when an update step returns a Complete (it succeeded
    or failed partially), [new] has the ID and the [Created] of [old]; for a
    custom resource [new.Modified] is the instant read from the clock
    during [Apply], so later than [old.Modified] whenever the clock is; for
    a component [new.Modified] is [old.Modified]. *)
Theorem UpdateStep_id_and_timestamps (s s' : UpdateStep.t) (preview : bool) (w w' : World)
    (r : ApplyResult) :
  UpdateStep.Apply s preview w = Ok (s', r) w' ->
  is_Some (complete r) ->
  ID (UpdateStep.new s') = ID (UpdateStep.old s) /\
  Created (UpdateStep.new s') = Created (UpdateStep.old s) /\
  (Custom (UpdateStep.new s) = true ->
     Modified (UpdateStep.new s') = Some (clock w) /\
     forall m, Modified (UpdateStep.old s) = Some m -> m < clock w ->
               exists m', Modified (UpdateStep.new s') = Some m' /\ m < m') /\
  (Custom (UpdateStep.new s) = false ->
     Modified (UpdateStep.new s') = Modified (UpdateStep.old s)).
Proof.
  intros E C. destruct (UpdateStep_returns _ _ _ _ _ _ E) as (_ & I & Cr & Mo).
  specialize (Mo C). split; [exact I|]. split; [exact Cr|]. split.
  - intros Cu. rewrite Cu in Mo. split; [exact Mo|]. intros m _ Lt. eauto.
  - intros Cu. now rewrite Cu in Mo.
Qed.
End PartialFailure.

(** The claim of the partial-failure round trip fails for a create whose
    provider returns no ID: the reasons are stored, but [Apply] returns a nil
    Complete and the error about the missing ID. *)
Lemma partial_failure_round_trip_counterexample :
  let p := Examples.provider EmptyString StatusPartialFailure
             (Some (plugin_error.InitError ["x"; "y"])) Examples.noRead in
  let d := Examples.deployment p None in
  let s := CreateStep.mk (Some d) (Some 0%nat)
             None (Examples.state "urn:b" "aws:s3/bucket:Bucket" true EmptyString)
             false false in
  createAnswer s d p =
    (EmptyString, Examples.outs "z" "9", StatusPartialFailure,
     Some (plugin_error.InitError ["x"; "y"])) /\
  exists s' w',
    CreateStep.Apply s false (Examples.world 0) =
      Ok (s', (StatusPartialFailure, None,
               Some (errorString "provider did not return an ID from Create"))) w'.
Proof. split; [reflexivity|]. eexists _, _. reflexivity. Qed.

Lemma partial_failure_round_trip_witness :
  let p := Examples.provider "id-8" StatusPartialFailure
             (Some (plugin_error.InitError ["x"; "y"])) Examples.noRead in
  let d := Examples.deployment p None in
  let s := CreateStep.mk (Some d) (Some 0%nat)
             None (Examples.state "urn:b" "aws:s3/bucket:Bucket" true EmptyString)
             false false in
  exists s' c w',
    CreateStep.Apply s false (Examples.world 0) =
      Ok (s', (StatusPartialFailure, Some c,
               Some (FromProvider (plugin_error.InitError ["x"; "y"])))) w' /\
    InitErrors (CreateStep.new s') = ["x"; "y"].
Proof.
  intros p d s.
  apply (proj1 partial_failure_round_trip s (Examples.world 0) p d "id-8"
           (Examples.outs "z" "9") ["x"; "y"]); try reflexivity; discriminate.
Defined.

(** The claim that an update always stamps [Modified] fails for a component:
    the update succeeds and [new.Modified] stays at [old.Modified]. *)
Lemma UpdateStep_id_and_timestamps_counterexample :
  let old := set_Modified (Some 5) (Examples.state "urn:a" "my:component:Type" false
                                      EmptyString) in
  let new := Examples.state "urn:a" "my:component:Type" false EmptyString in
  let s := UpdateStep.mk None (Some 0%nat) old new [] in
  exists s',
    UpdateStep.Apply s false (Examples.world 10) =
      Ok (s', (StatusOK, Some (DoneReg (Some 0%nat)), None)) (Examples.world 10) /\
    Modified (UpdateStep.old s) = Some 5 /\
    Modified (UpdateStep.new s') = Some 5.
Proof. eexists. split; [reflexivity|]. split; reflexivity. Qed.

Lemma UpdateStep_id_and_timestamps_witness :
  let p := Examples.provider "id" StatusOK None Examples.noRead in
  let d := Examples.deployment p None in
  let old := set_Modified (Some 5) (Examples.state "urn:u" "aws:s3/bucket:Bucket" true "i") in
  let new := Examples.state "urn:u" "aws:s3/bucket:Bucket" true EmptyString in
  let s := UpdateStep.mk (Some d) (Some 0%nat) old new [] in
  exists s' w',
    UpdateStep.Apply s false (Examples.world 10) =
      Ok (s', (StatusOK, Some (DoneReg (Some 0%nat)), None)) w' /\
    ID (UpdateStep.new s') = "i" /\
    Modified (UpdateStep.new s') = Some 10.
Proof.
  intros p d old new s.
  assert (exists s' w', UpdateStep.Apply s false (Examples.world 10) =
                          Ok (s', (StatusOK, Some (DoneReg (Some 0%nat)), None)) w')
    as (s' & w' & E) by (eexists _, _; reflexivity).
  exists s', w'. split; [exact E|].
  destruct (UpdateStep_id_and_timestamps s s' false _ w' _ E) as (I & _ & M & _);
    [eexists; reflexivity|].
  split; [exact I|]. apply M. reflexivity.
Defined.

(** ** SameStep.Apply *)

Section SameProperties.
Context `{Externals}.

End SameProperties.



(** ** RefreshStep.Apply *)

Section RefreshProperties.
Context `{Externals}.

(** On the short-circuit path the Complete closes the supplied channel. *)
Lemma RefreshStep_short_circuit (s : RefreshStep.t) (preview : bool) (w : World) ch :
  RefreshStep.done s = Some ch ->
  unchangedByRefresh (RefreshStep.old s) = true ->
  RefreshStep.Apply s preview w = Ok (s, (StatusOK, Some (CloseDone ch), None)) w /\
  (ch ∉ closed w ->
   forall n, exists w', run (CloseDone ch) n w = Ok tt w' /\ ch ∈ closed w').
Proof.
  unfold unchangedByRefresh, RefreshStep.Apply. intros -> ->. split; [reflexivity|].
  intros N n. unfold run, close. rewrite bool_decide_eq_false_2 by exact N.
  eexists. split; [reflexivity|]. simpl. set_solver.
Qed.

(** On the path that reads the resource from its provider, whatever
    [Apply] returns carries a nil Complete. *)
Lemma RefreshStep_read_path (s s' : RefreshStep.t) (preview : bool) (w w' : World) r :
  unchangedByRefresh (RefreshStep.old s) = false ->
  RefreshStep.Apply s preview w = Ok (s', r) w' ->
  complete r = None.
Proof.
  unfold unchangedByRefresh, RefreshStep.Apply. intros ->.
  intros E. apply bind_inv in E as ([prov|e] & w1 & P & E).
  2: { revert E. run. now intros [= <- <- <-]. }
  revert E. run.
  destruct (plugin.onRead _ _ _ _ _) as [[refreshed rst] [e|]].
  - destruct (bool_decide _); [now intros [= <- <- <-]|].
    destruct e as [reasons|msg].
    + destruct (RefreshStep.deployment s); [|discriminate]. simpl.
      unfold RefreshStep.adopt. run.
      destruct (plugin.rOutputs refreshed); [|now intros [= <- <- <-]].
      destruct (_ || _); now intros [= <- <- <-].
    + unfold RefreshStep.adopt. run.
      destruct (plugin.rOutputs refreshed); [|now intros [= <- <- <-]].
      destruct (_ || _); now intros [= <- <- <-].
  - unfold RefreshStep.adopt. run.
    destruct (plugin.rOutputs refreshed); [|now intros [= <- <- <-]].
    destruct (_ || _); now intros [= <- <- <-].
Qed.
End RefreshProperties.

(** C7 (the code departs from the claim): a refresh step built by
    [NewRefreshStep] with completion channel 7 for a custom resource reads
    the resource from its provider, succeeds, and returns a nil Complete:
    nothing is left to close the channel. *)
Theorem RefreshStep_read_path_drops_complete :
  let p := Examples.provider "id" StatusOK None
             (plugin.mkRead EmptyString None (Examples.outs "z" "9")) in
  let d := Examples.deployment p None in
  let old := Examples.state "urn:r" "aws:s3/bucket:Bucket" true "i" in
  exists s s' w',
    RefreshStep.NewRefreshStep (Some d) (Some old) (Some 7%nat) (Examples.world 0) =
      Ok s (Examples.world 0) /\
    RefreshStep.done s = Some 7%nat /\
    RefreshStep.Apply s false (Examples.world 0) = Ok (s', (StatusOK, None, None)) w' /\
    rpcs w' = [plugin.ReadRPC "urn:r" "i" (Some ∅) None] /\
    closed w' = [].
Proof.
  eexists _, _, _. split; [reflexivity|]. split; [reflexivity|].
  split; [vm_compute; reflexivity|]. split; reflexivity.
Qed.

(** ** ImportStep.Apply *)

Section ImportProperties.
Context `{Externals}.

(** The adoption branch on inputs that pass Check and differ from the
    resource that was read. *)
Lemma importAdopt_mismatch (s : ImportStep.t) (o : State) prov (preview : bool)
    (rst : resource_Status) (w : World) processed checked diff :
  is_Some (ImportStep.deployment s) ->
  hasOriginalIfReplacing s ->
  processIgnoreChanges (Inputs (ImportStep.new s)) (Inputs o) (ImportStep.ignoreChanges s) =
    inl processed ->
  plugin.onCheck prov (URN (ImportStep.new s)) (Inputs o) processed preview
    (ImportStep.randomSeed s) = (checked, [], None) ->
  diffResource (URN (ImportStep.new s)) (ID (ImportStep.new s)) (Inputs o) (Outputs o) checked
    prov preview (ImportStep.ignoreChanges s) = inl diff ->
  plugin.Changes diff <> plugin.DiffNone ->
  exists s' w',
    ImportStep.importAdopt s o prov preview rst w =
      Ok (s', (rst, Some (DoneReg (ImportStep.reg s)),
               if preview then None else Some (errorString ImportStep.message))) w' /\
    (if preview
     then importWarning (URN (ImportStep.new s)) ∈ diags w' /\
          (ImportStep.replacing s = true ->
           Delete <$> ImportStep.original s' = Some true)
     else diags w' = diags w /\ ImportStep.original s' = ImportStep.original s).
Proof.
  intros [d D] O P C F N. unfold ImportStep.importAdopt. rewrite P. run. rewrite C. simpl.
  rewrite D. simpl. rewrite F. simpl.
  destruct (plugin.Changes diff) eqn:Ch; [|congruence|].
  - destruct preview; simpl.
    + destruct (ImportStep.replacing s) eqn:R.
      * destruct (O R) as [orig ->]. simpl.
        eexists _, _. split; [reflexivity|]. simpl. split; [set_solver|]. reflexivity.
      * eexists _, _. split; [reflexivity|]. simpl. split; [set_solver|]. discriminate.
    + eexists _, _. split; [reflexivity|]. simpl. auto.
  - destruct preview; simpl.
    + destruct (ImportStep.replacing s) eqn:R.
      * destruct (O R) as [orig ->]. simpl.
        eexists _, _. split; [reflexivity|]. simpl. split; [set_solver|]. reflexivity.
      * eexists _, _. split; [reflexivity|]. simpl. split; [set_solver|]. discriminate.
    + eexists _, _. split; [reflexivity|]. simpl. auto.
Qed.
End ImportProperties.

Section ImportOriginal.
Context `{Externals}.

(** Take a returned bind apart. *)
Ltac unbind E :=
  let x := fresh "x" in
  let w1 := fresh "w" in
  let E1 := fresh "E" in
  apply bind_inv in E as (x & w1 & E1 & E).

Ltac returned E := revert E; unfold mret, M_ret; intros [= <- <- <-]; simpl.

Lemma importPlanned_original (s s' : ImportStep.t) o prov (preview : bool) rst (w w' : World)
    r :
  ImportStep.importPlanned s o prov preview rst w = Ok (s', r) w' ->
  ImportStep.original s' = ImportStep.original s.
Proof.
  unfold ImportStep.importPlanned. intros E.
  unbind E. unbind E. unbind E. unbind E.
  destruct x2 as [[ins failures] [e|]].
  - now returned E.
  - unbind E. unbind E. now returned E.
Qed.

Lemma importAdopt_original (s s' : ImportStep.t) o prov (preview : bool) rst (w w' : World)
    r :
  ImportStep.importAdopt s o prov preview rst w = Ok (s', r) w' ->
  is_Some (err r) ->
  ImportStep.original s' = ImportStep.original s.
Proof.
  unfold ImportStep.importAdopt. intros E.
  destruct (processIgnoreChanges _ _ _) as [processed|e]; [|now returned E].
  unbind E. destruct x as [[ins failures] [e|]]; [now returned E|].
  unbind E. unbind E. destruct x0; [now returned E|].
  destruct (diffResource _ _ _ _ _ _ _ _) as [diff|e]; [|now returned E].
  unbind E. unbind E. returned E. intros [e He]. subst x0.
  rewrite bool_decide_eq_false_2 in E4 by discriminate. simpl in E4.
  revert E4. unfold mret, M_ret. now intros [= <- <-].
Qed.

Lemma record_original (s s' : ImportStep.t) prov ins outs (preview : bool) rst (w w' : World)
    r :
  ImportStep.record s prov ins outs preview rst w = Ok (s', r) w' ->
  is_Some (err r) ->
  ImportStep.original s' = ImportStep.original s.
Proof.
  unfold ImportStep.record. intros E. unbind E.
  destruct prov as [prov|].
  - match type of E with
    | (if ?b then _ else _) _ = _ => destruct b
    end.
    + intros _. now apply importPlanned_original in E.
    + intros S. now apply (importAdopt_original _ _ _ _ _ _ _ _ _ E) in S.
  - returned E. now intros [? [=]].
Qed.

(** An import step that returns an error leaves [original] as it was. *)
Lemma ImportStep_original_on_error (s s' : ImportStep.t) (preview : bool) (w w' : World) r :
  ImportStep.Apply s preview w = Ok (s', r) w' ->
  is_Some (err r) ->
  ImportStep.original s' = ImportStep.original s.
Proof.
  unfold ImportStep.Apply. intros E. unbind E.
  destruct x as [e|]; [now returned E|].
  destruct (Custom (ImportStep.new s)).
  2: { intros S. now apply (record_original _ _ _ _ _ _ _ _ _ _ E) in S. }
  unbind E. destruct x as [prov|e]; [|now returned E].
  unbind E. destruct x as [[read rst] e].
  assert (forall s1 wr, ImportStep.original s1 = ImportStep.original s ->
            match plugin.rOutputs read, plugin.rInputs read with
            | None, _ =>
                mret (s1, (rst, None,
                           Some (errorString ("resource '" +:+ ID (ImportStep.new s1) +:+
                                              "' does not exist"))))
            | Some _, None =>
                mret (s1, (StatusOK, None,
                           Some (errorString
                                   ("provider does not support importing resources; " +:+
                                    "please try updating the '" +:+
                                    TypePackage (URNType (URN (ImportStep.new s1))) +:+
                                    "' plugin"))))
            | Some _, Some _ =>
                let s2 := if negb (isEmpty (plugin.rID read))
                          then ImportStep.with_new
                                 (set_ID (plugin.rID read) (ImportStep.new s1)) s1
                          else s1 in
                ImportStep.record s2 (Some prov) (plugin.rInputs read) (plugin.rOutputs read)
                  preview rst
            end wr = Ok (s', r) w' ->
            is_Some (err r) -> ImportStep.original s' = ImportStep.original s) as G.
  { intros s1 wr O1 E' S.
    destruct (plugin.rOutputs read); [|revert E'; unfold mret, M_ret; now intros [= <- <- <-]].
    destruct (plugin.rInputs read); [|revert E'; unfold mret, M_ret; now intros [= <- <- <-]].
    simpl in E'. apply (record_original _ _ _ _ _ _ _ _ _ _ E') in S. rewrite S.
    destruct (negb _); exact O1. }
  destruct e as [[reasons|msg]|].
  - refine (G _ _ _ E). reflexivity.
  - now returned E.
  - refine (G _ _ _ E). reflexivity.
Qed.
End ImportOriginal.

Section ImportMismatch.
Context `{Externals}.

(** From the synthesised old state on, for an adoption whose inputs pass
    Check and differ from what was read. *)
Lemma record_mismatch (s : ImportStep.t) prov ins outs (preview : bool) rst (w : World)
    processed checked diff :
  ImportStep.planned s = false ->
  is_Some (ImportStep.deployment s) ->
  hasOriginalIfReplacing s ->
  processIgnoreChanges (Inputs (ImportStep.new s)) ins (ImportStep.ignoreChanges s) =
    inl processed ->
  plugin.onCheck prov (URN (ImportStep.new s)) ins processed preview
    (ImportStep.randomSeed s) = (checked, [], None) ->
  diffResource (URN (ImportStep.new s)) (ID (ImportStep.new s)) ins outs checked prov preview
    (ImportStep.ignoreChanges s) = inl diff ->
  plugin.Changes diff <> plugin.DiffNone ->
  exists s' w',
    ImportStep.record s (Some prov) ins outs preview rst w =
      Ok (s', (rst, Some (DoneReg (ImportStep.reg s)),
               if preview then None else Some (errorString ImportStep.message))) w' /\
    (if preview
     then importWarning (URN (ImportStep.new s)) ∈ diags w' /\
          (ImportStep.replacing s = true ->
           Delete <$> ImportStep.original s' = Some true)
     else diags w' = diags w /\ ImportStep.original s' = ImportStep.original s).
Proof.
  intros Pl D O Ig Ck Df Ch. unfold ImportStep.record.
  unfold time_Now, mbind, M_bind. simpl. rewrite Pl.
  match goal with
  | |- context [ImportStep.importAdopt ?s1 ?o ?prov ?pv ?rst ?w1] =>
      destruct (importAdopt_mismatch s1 o prov pv rst w1 processed checked diff)
        as (s' & w' & E & R); auto
  end.
  exists s', w'. split; [exact E|exact R].
Qed.

(** C8, as amended: take an adoption (non-planned) import of a custom
    resource whose provider resolves, whose Read returns inputs and outputs
    with no error or an [InitError], whose inputs pass Check, and whose diff
    against the state that was read is not empty.  Then [Apply] returns the
    status that Read reported, a Complete, and: in preview no error, after
    the streaming warning that the import will fail (and, replacing, with
    [original.Delete] set); outside preview the error "inputs to import do
    not match the existing resource", with no warning and [original]
    untouched.  And any import step that returns an error leaves
    [original] as it was. *)
Theorem ImportStep_mismatch (s : ImportStep.t) (preview : bool) (w : World) prov read rst e
    processed checked diff :
  ImportStep.planned s = false ->
  Custom (ImportStep.new s) = true ->
  getProvider s w = Ok (inl prov) w ->
  hasOriginalIfReplacing s ->
  importAnswer s prov = (read, rst, e) ->
  (forall msg, e <> Some (plugin_error.Other msg)) ->
  is_Some (plugin.rInputs read) ->
  is_Some (plugin.rOutputs read) ->
  processIgnoreChanges (Inputs (ImportStep.new s)) (plugin.rInputs read)
    (ImportStep.ignoreChanges s) = inl processed ->
  plugin.onCheck prov (URN (ImportStep.new s)) (plugin.rInputs read) processed preview
    (ImportStep.randomSeed s) = (checked, [], None) ->
  diffResource (URN (ImportStep.new s)) (importedID s read) (plugin.rInputs read)
    (plugin.rOutputs read) checked prov preview (ImportStep.ignoreChanges s) = inl diff ->
  plugin.Changes diff <> plugin.DiffNone ->
  (exists s' w',
     ImportStep.Apply s preview w =
       Ok (s', (rst, Some (DoneReg (ImportStep.reg s)),
                if preview then None else Some (errorString ImportStep.message))) w' /\
     (if preview
      then importWarning (URN (ImportStep.new s)) ∈ diags w' /\
           (ImportStep.replacing s = true ->
            Delete <$> ImportStep.original s' = Some true)
      else diags w' = diags w /\ ImportStep.original s' = ImportStep.original s)) /\
  (forall s2 p2 w2 s2' r2 w2',
     ImportStep.Apply s2 p2 w2 = Ok (s2', r2) w2' ->
     is_Some (err r2) ->
     ImportStep.original s2' = ImportStep.original s2).
Proof.
  intros Pl Cu P O A NotOther [ins Ins] [outs Outs] Ig Ck Df Ch.
  split; [|intros; eapply ImportStep_original_on_error; eauto].
  pose proof (getProvider_deployment _ _ _ _ P) as D. simpl in D.
  unfold ImportStep.Apply, ImportStep.checkPlanned, importAnswer, importedID in *.
  rewrite Pl, Cu. run. rewrite P. simpl. rewrite A. rewrite Ins, Outs.
  rewrite Ins, Outs in *.
  destruct e as [[reasons|msg]|]; [|now destruct (NotOther msg)|];
    destruct (isEmpty (plugin.rID read)); simpl;
    match goal with
    | |- context [ImportStep.record ?s1 ?p ?i ?o ?pv ?st ?w1] =>
        destruct (record_mismatch s1 prov i o pv st w1 processed checked diff)
          as (s' & w' & E & R); auto
    end;
    exists s', w'; (split; [exact E|exact R]).
Qed.
End ImportMismatch.

(** The claim that a previewed import with mismatching inputs returns status
    OK fails when the provider's Read reported a partial failure with init
    errors: the step goes on and returns that status. *)
Lemma ImportStep_mismatch_counterexample :
  let read := plugin.mkRead EmptyString (Examples.outs "a" "1") (Examples.outs "a" "1") in
  let p := Examples.provider "id" StatusPartialFailure
             (Some (plugin_error.InitError ["not ready"])) read in
  let d := Examples.deployment p None in
  let new := Examples.state "urn:i" "aws:s3/bucket:Bucket" true "i" in
  let s := ImportStep.mk (Some d) (Some 0%nat) None None new false false [] ∅ [] [1] in
  importAnswer s p = (read, StatusPartialFailure, Some (plugin_error.InitError ["not ready"])) /\
  exists s' w',
    ImportStep.Apply s true (Examples.world 0) =
      Ok (s', (StatusPartialFailure, Some (DoneReg (Some 0%nat)), None)) w' /\
    importWarning "urn:i" ∈ diags w'.
Proof.
  split; [reflexivity|]. eexists _, _. split; [vm_compute; reflexivity|].
  simpl. set_solver.
Qed.

Lemma ImportStep_mismatch_witness :
  let read := plugin.mkRead EmptyString (Examples.outs "a" "1") (Examples.outs "a" "1") in
  let p := Examples.provider "id" StatusOK None read in
  let d := Examples.deployment p None in
  let new := Examples.state "urn:i" "aws:s3/bucket:Bucket" true "i" in
  let s := ImportStep.mk (Some d) (Some 0%nat) None None new false false [] ∅ [] [1] in
  (exists s' w',
     ImportStep.Apply s true (Examples.world 0) =
       Ok (s', (StatusOK, Some (DoneReg (Some 0%nat)), None)) w' /\
     importWarning "urn:i" ∈ diags w') /\
  (exists s' w',
     ImportStep.Apply s false (Examples.world 0) =
       Ok (s', (StatusOK, Some (DoneReg (Some 0%nat)),
                Some (errorString "inputs to import do not match the existing resource")))
          w').
Proof.
  intros read p d new s. split.
  - edestruct (ImportStep_mismatch s true (Examples.world 0) p read StatusOK None
                 (Some ∅) (Some ∅) (plugin.mkDiff plugin.DiffSome [] ∅))
      as [(s' & w' & E & W & _) _];
      try reflexivity; try discriminate; try (eexists; reflexivity).
    exists s', w'. split; [exact E|exact W].
  - edestruct (ImportStep_mismatch s false (Examples.world 0) p read StatusOK None
                 (Some ∅) (Some ∅) (plugin.mkDiff plugin.DiffSome [] ∅))
      as [(s' & w' & E & _) _];
      try reflexivity; try discriminate; try (eexists; reflexivity).
    exists s', w'. exact E.
Defined.


(** * More of step.go *)

(** ** The operation taxonomy *)

#[local] Arguments String.eqb : simpl nomatch.

(** Decide a Go [switch] on the string [op] case by case. *)
Ltac switch_on op :=
  repeat match goal with
         | |- context [String.eqb op ?c] =>
             destruct (String.eqb_spec op c) as [?|?]; [subst op|]
         | |- context [String.eqb ?c op] =>
             destruct (String.eqb_spec c op) as [?|?]; [subst op|]
         end.

Lemma ConstrainedTo_order_all :
  forallb (fun a => ConstrainedTo a a) StepOps &&
  forallb (fun a =>
     forallb (fun b =>
        implb (ConstrainedTo a b && ConstrainedTo b a) (String.eqb a b) &&
        forallb (fun c => implb (ConstrainedTo a b && ConstrainedTo b c) (ConstrainedTo a c))
                StepOps) StepOps) StepOps = true.
Proof. vm_compute. reflexivity. Qed.

(** X1: on the fifteen step operations [ConstrainedTo] is a partial order:
    every operation is allowed under itself, two operations allowed under
    each other are the same, and an operation allowed under a constraint is
    allowed under every constraint that allows that constraint. *)
Theorem ConstrainedTo_partial_order (a b c : StepOp) :
  In a StepOps -> In b StepOps -> In c StepOps ->
  ConstrainedTo a a = true /\
  (ConstrainedTo a b = true -> ConstrainedTo b a = true -> a = b) /\
  (ConstrainedTo a b = true -> ConstrainedTo b c = true -> ConstrainedTo a c = true).
Proof.
  intros Ha Hb Hc. pose proof ConstrainedTo_order_all as Hall.
  apply andb_prop in Hall as [R O].
  rewrite forallb_forall in R, O. specialize (R _ Ha). specialize (O _ Ha).
  rewrite forallb_forall in O. specialize (O _ Hb). apply andb_prop in O as [An T].
  rewrite forallb_forall in T. specialize (T _ Hc).
  split; [exact R|]. split.
  - intros E1 E2. rewrite E1, E2 in An. simpl in An. now apply String.eqb_eq.
  - intros E1 E2. rewrite E1, E2 in T. exact T.
Qed.

Lemma ConstrainedTo_partial_order_witness :
  ConstrainedTo OpSame OpUpdate = true /\
  ConstrainedTo OpUpdate OpReplace = true /\
  ConstrainedTo OpSame OpReplace = true.
Proof.
  split; [reflexivity|]. split; [reflexivity|].
  apply (ConstrainedTo_partial_order OpSame OpUpdate OpReplace);
    try (unfold StepOps; simpl; tauto); reflexivity.
Defined.

(** X2: [ConstrainedTo] answers true only between step operations: for an
    unrecognised constraint [allowed] stays nil and nothing is allowed, and
    what a recognised constraint allows is recognised. *)
Theorem ConstrainedTo_known (op constraint : StepOp) :
  ConstrainedTo op constraint = true -> In op StepOps /\ In constraint StepOps.
Proof.
  unfold ConstrainedTo, oneOf. simpl. switch_on constraint; simpl;
    try discriminate;
    switch_on op; simpl; try discriminate; intros _; split; simpl; tauto.
Qed.

Lemma ConstrainedTo_known_witness :
  In OpSame StepOps /\ In OpCreate StepOps.
Proof. apply (ConstrainedTo_known OpSame OpCreate). reflexivity. Defined.

(** ** Presentation *)

Section Presentation.
Context `{Colors}.

Lemma In_presentedOps_StepOps (op : StepOp) :
  In op presentedOps -> In op StepOps.
Proof. simpl. intuition. Qed.

(** X3: [Color], [RawPrefix], [PastTense] and [Prefix] return on the same
    operations, the fourteen step operations other than
    [remove-pending-replace]; on that one, as on any unknown string, each of
    them ends in [contract.Failf]. *)
Theorem presentation_domain (op : StepOp) (done : bool) :
  (returns (Color op) = true <-> In op presentedOps) /\
  (returns (RawPrefix op) = true <-> In op presentedOps) /\
  (returns (PastTense op) = true <-> In op presentedOps) /\
  (returns (Prefix op done) = true <-> In op presentedOps) /\
  returns (RawPrefix OpRemovePendingReplace) = false /\
  In OpRemovePendingReplace StepOps.
Proof.
  assert (forall o, returns (Color o) = true <-> In o presentedOps) as C.
  { intros o. unfold Color, oneOf. simpl.
    switch_on o; simpl; split; try tauto; try discriminate; intuition congruence. }
  assert (forall o, returns (RawPrefix o) = true <-> In o presentedOps) as R.
  { intros o. unfold RawPrefix, oneOf. simpl.
    switch_on o; simpl; split; try tauto; try discriminate; intuition congruence. }
  split; [apply C|]. split; [apply R|]. split.
  { unfold PastTense, oneOf. simpl.
    switch_on op; simpl; split; try tauto; try discriminate; intuition congruence. }
  split; [|split; [reflexivity|simpl; tauto]].
  rewrite <- (C op). unfold Prefix, ColorProgress.
  pose proof (C op) as Co. pose proof (R op) as Ro.
  destruct (Color op), (RawPrefix op); simpl in *; destruct done; simpl; intuition.
Qed.

(** X4: whenever [RawPrefix] returns, its result is two characters long. *)
Theorem RawPrefix_length (op : StepOp) (p : string) :
  RawPrefix op = Returns p -> String.length p = 2%nat.
Proof.
  unfold RawPrefix, oneOf. simpl.
  switch_on op; simpl; try discriminate; now intros [= <-].
Qed.

(** X5: the prefix of a line in progress is [colors.Bold] followed by the
    prefix of the finished line, and both end with the raw prefix; the
    progress prefix aborts exactly when the finished one does. *)
Theorem Prefix_progress (op : StepOp) :
  match Prefix op true with
  | Returns donePrefix =>
      Prefix op false = Returns (colors_Bold +:+ donePrefix) /\
      exists color raw, Color op = Returns color /\ RawPrefix op = Returns raw /\
                        donePrefix = color +:+ raw
  | Failf msg => Prefix op false = Failf msg
  end.
Proof.
  unfold Prefix, ColorProgress.
  destruct (Color op) as [c|m]; [|reflexivity].
  destruct (RawPrefix op) as [r|m]; [|reflexivity].
  split; [now rewrite append_assoc|]. eauto.
Qed.
End Presentation.

Lemma RawPrefix_length_witness : String.length "+-" = 2%nat.
Proof. apply (RawPrefix_length OpReplace). reflexivity. Defined.

(** ** isDeletedWith and getProvider *)

(** X6: [isDeletedWith] holds exactly when the URN is not empty and the
    deletion set maps it to true: an empty URN, a nil set, a missing entry
    and an entry set to false all give false. *)
Theorem isDeletedWith_spec (with_ : resource_URN) (otherDeletions : option (gmap string bool)) :
  isDeletedWith with_ otherDeletions = true <->
  with_ <> EmptyString /\ exists m, otherDeletions = Some m /\ m !! with_ = Some true.
Proof.
  unfold isDeletedWith. destruct with_ as [|c u].
  { split; [discriminate|intros [N _]; congruence]. }
  change (isEmpty (String c u)) with false. cbv iota.
  destruct otherDeletions as [m|]; unfold mbind, option_bind.
  - match goal with
    | |- context [match ?x with Some _ => _ | None => _ end] =>
        destruct x as [[|]|] eqn:L
    end; split; try discriminate.
    + intros _. split; [discriminate|]. exists m. split; [reflexivity|exact L].
    + reflexivity.
    + intros (_ & m' & [= <-] & L'). discriminate (eq_trans (eq_sym L) L').
    + intros (_ & m' & [= <-] & L'). discriminate (eq_trans (eq_sym L) L').
  - split; [discriminate|]. intros (_ & m & [=] & _).
Qed.

Lemma isDeletedWith_spec_witness :
  isDeletedWith "urn:parent" (Some {[ "urn:parent" := true ]}) = true /\
  isDeletedWith "urn:parent" (Some {[ "urn:parent" := false ]}) = false /\
  isDeletedWith "urn:parent" None = false.
Proof.
  split; [|split; reflexivity].
  apply (isDeletedWith_spec "urn:parent" (Some {[ "urn:parent" := true ]})).
  split; [discriminate|]. eexists. split; reflexivity.
Defined.

Section Resolution.
Context `{Externals}.

(** X7: when [getProvider] returns a provider it has left the world as it
    was, the step has a deployment, and the provider is either the
    deployment's registry, for a step of a provider type, or what the
    registry holds for the parsed reference of the step, which is then not a
    deny-default reference.  When it returns an error, the step is not of a
    provider type: a provider resource never fails to resolve. *)
Theorem getProvider_sound {T} `{Step T} (s : T) (w w' : World)
    (r : plugin.Provider + error) :
  getProvider s w = Ok r w' ->
  w' = w /\
  match r with
  | inl prov =>
      exists d, StepDeployment s = Some d /\
        ((IsProviderType (StepType s) = true /\ prov = Deployment.providers d) \/
         (IsProviderType (StepType s) = false /\
          exists ref, ParseReference (StepProvider s) = inl ref /\
                      IsDenyDefaultsProvider ref = false /\
                      Deployment.GetProvider d ref = Some prov))
  | inr e => IsProviderType (StepType s) = false /\ exists msg, e = errorString msg
  end.
Proof.
  intros E. split; [exact (getProvider_world _ _ _ _ E)|].
  revert E. unfold getProvider. run.
  destruct (IsProviderType (StepType s)).
  - destruct (StepDeployment s) as [d|]; [|discriminate].
    intros [= <- _]. exists d. auto.
  - destruct (ParseReference _) as [ref|e] eqn:P; [|intros [= <- _]; eauto].
    destruct (IsDenyDefaultsProvider ref) eqn:Dn; [intros [= <- _]; eauto|].
    destruct (StepDeployment s) as [d|]; [|discriminate].
    destruct (Deployment.GetProvider d ref) as [prov|] eqn:G; intros [= <- _]; [|eauto].
    exists d. split; [reflexivity|]. right. split; [reflexivity|]. eauto.
Qed.
End Resolution.

Lemma getProvider_sound_witness :
  let p := Examples.provider "id" StatusOK None Examples.noRead in
  let d := Examples.deployment p None in
  let s := DeleteStep.mk (Some d) (Examples.state "urn:p" "pulumi:providers:aws" true "i")
             false (Some ∅) in
  exists d', StepDeployment s = Some d' /\
    ((IsProviderType (StepType s) = true /\ p = Deployment.providers d') \/
     (IsProviderType (StepType s) = false /\
      exists ref, ParseReference (StepProvider s) = inl ref /\
                  IsDenyDefaultsProvider ref = false /\
                  Deployment.GetProvider d' ref = Some p)).
Proof.
  intros p d s.
  exact (proj2 (getProvider_sound s (Examples.world 0) (Examples.world 0) (inl p) eq_refl)).
Defined.

(** ** DeleteStep: Op, preview, provider errors *)

(** X8: the operation of a delete step is one of [discard],
    [discard-replaced], [delete] and [delete-replaced]; it is a discard
    exactly for an external old state and a [-replaced] operation exactly for
    a step that is not logical; its past tense is "discarded" for an external
    resource and "deleted" otherwise; and under the constraint [delete] it is
    allowed exactly when the resource is owned and the step is not part of a
    replacement. *)
Theorem DeleteStep_Op_spec (s : DeleteStep.t) :
  In (DeleteStep_Op s) [ OpReadDiscard; OpDiscardReplaced; OpDelete; OpDeleteReplaced ] /\
  (In (DeleteStep_Op s) [ OpReadDiscard; OpDiscardReplaced ] <->
     External (DeleteStep.old s) = true) /\
  (In (DeleteStep_Op s) [ OpDiscardReplaced; OpDeleteReplaced ] <->
     DeleteStep_Logical s = false) /\
  PastTense (DeleteStep_Op s) =
    Returns (if External (DeleteStep.old s) then "discarded" else "deleted") /\
  ConstrainedTo (DeleteStep_Op s) OpDelete =
    negb (External (DeleteStep.old s)) && negb (DeleteStep.replacing s).
Proof.
  unfold DeleteStep_Op, DeleteStep_Logical.
  destruct (External (DeleteStep.old s)), (DeleteStep.replacing s); simpl;
    repeat split; try tauto; try discriminate; try reflexivity;
    intuition discriminate.
Qed.

Section DeleteMore.
Context `{Externals}.

(** X9: a delete step applied in preview always returns, whatever its state
    and deployment: it resolves no provider, calls nothing, and leaves the
    step and the world as they were; it returns the protect error for a
    plain delete of a protected state and [StatusOK] with a Complete
    otherwise. *)
Theorem DeleteStep_preview_pure (s : DeleteStep.t) (w : World) :
  DeleteStep.Apply s true w =
    Ok (s, if negb (DeleteStep.replacing s) && Protect (DeleteStep.old s)
           then (StatusOK, None, Some (deleteProtectedError (URN (DeleteStep.old s))))
           else (StatusOK, Some Nop, None)) w.
Proof.
  unfold DeleteStep.Apply. destruct (negb _ && _); reflexivity.
Qed.

(** X10: a delete step never changes itself, and when the provider's Delete
    fails the step returns the provider's status and error with a nil
    Complete, also when that status is PartialFailure: unlike create and
    update, delete has no partial-failure path. *)
Theorem DeleteStep_provider_error (s : DeleteStep.t) (w : World) prov rst e :
  (forall preview s' r w', DeleteStep.Apply s preview w = Ok (s', r) w' -> s' = s) /\
  (deleteRuns s false w ->
   DeleteStep.replacing s = true \/ Protect (DeleteStep.old s) = false ->
   getProvider s w = Ok (inl prov) w ->
   plugin.onDelete prov (URN (DeleteStep.old s)) (ID (DeleteStep.old s))
     (Inputs (DeleteStep.old s)) (Outputs (DeleteStep.old s))
     (Timeouts.Delete (CustomTimeouts (DeleteStep.old s))) = (rst, Some e) ->
   DeleteStep.Apply s false w =
     Ok (s, (rst, None, Some (FromProvider e))) (called w (deleteCall s))).
Proof.
  split.
  - intros preview s' r w'. unfold DeleteStep.Apply.
    repeat match goal with
           | |- context [if ?b then _ else _] => destruct b
           end; try (unfold mret, M_ret; now intros [= <- _ _]).
    intros E. apply bind_inv in E as ([p|e'] & w1 & _ & E); revert E; run.
    + destruct (plugin.onDelete _ _ _ _ _ _) as [st [e'|]]; now intros [= <- _ _].
    + now intros [= <- _ _].
  - intros (Sk & Cu & _) G P D. unfold DeleteStep.Apply, deleteSkipped in *.
    assert (negb (DeleteStep.replacing s) && Protect (DeleteStep.old s) = false) as ->.
    { destruct G as [-> | ->]; [reflexivity|apply andb_false_r]. }
    repeat (apply orb_false_elim in Sk as [Sk ?]).
    repeat match goal with
           | E : _ = false |- _ => rewrite E; clear E
           end.
    rewrite Cu. rewrite (bind_Ok _ _ _ _ _ P). run. rewrite D. reflexivity.
Qed.
End DeleteMore.

Lemma DeleteStep_provider_error_witness :
  let p := plugin.mkProvider
             (fun _ _ _ _ => (EmptyString, None, StatusOK, None))
             (fun _ _ _ _ _ _ _ _ => (None, StatusOK, None))
             (fun _ _ _ _ _ =>
                (StatusPartialFailure, Some (plugin_error.InitError ["still attached"])))
             (fun _ _ _ _ => (Examples.noRead, StatusOK, None))
             (fun _ _ news _ _ => (news, [], None)) in
  let d := Examples.deployment p None in
  let s := DeleteStep.mk (Some d) (Examples.state "urn:c" "aws:s3/bucket:Bucket" true "x")
             false (Some ∅) in
  DeleteStep.Apply s false (Examples.world 0) =
    Ok (s, (StatusPartialFailure, None,
            Some (FromProvider (plugin_error.InitError ["still attached"]))))
       (called (Examples.world 0) (deleteCall s)).
Proof.
  intros p d s.
  apply (proj2 (DeleteStep_provider_error s (Examples.world 0) p StatusPartialFailure
                  (plugin_error.InitError ["still attached"])));
    try reflexivity.
  - split; [reflexivity|]. split; [reflexivity|]. exists p. reflexivity.
  - right. reflexivity.
Defined.

(** ** Constructors and the steps they build *)

(** Walk through the [Requiref] calls of a constructor that returned. *)
Ltac required :=
  unfold Requiref; run;
  repeat match goal with
         | |- context [if ?b then _ else _] => destruct b eqn:?; simpl; try discriminate
         | |- context [match ?o with Some _ => _ | None => _ end] =>
             destruct o eqn:?; simpl; try discriminate
         end;
  try discriminate.

(** Keep the conclusion folded while the premise is taken apart. *)
Ltac hide_conclusion :=
  match goal with
  | |- _ -> ?C => let X := fresh "Concl" in set (X := C)
  end.

Lemma set_ID_same (n : State) : set_ID (ID n) n = n.
Proof. now destruct n. Qed.

Lemma set_Outputs_same (n : State) : set_Outputs (Outputs n) n = n.
Proof. now destruct n. Qed.

Section Built.
Context `{Externals}.

(** X11: a skipped create is a true no-op.  For a desired state that passes
    the constructor, [NewSkippedCreateStep] returns a same step whose old
    state is a copy of the new one, and applying it, in preview or not,
    returns [StatusOK], the Complete and no error, with the step and the
    world unchanged: the provider registry is not consulted even for a
    provider resource. *)
Theorem skipped_create_is_noop (deployment : option Deployment.t) (reg : option nat)
    (n : State) (preview : bool) (w : World) :
  desired n = true ->
  let s := SameStep.mk deployment reg n n true in
  NewSkippedCreateStep deployment reg (Some n) w = Ok s w /\
  SameStep.Apply s preview w = Ok (s, (StatusOK, Some (DoneReg reg), None)) w.
Proof.
  unfold desired. intros D.
  repeat (apply andb_prop in D as [D ?]). split.
  - unfold NewSkippedCreateStep, Requiref. run.
    repeat match goal with E : _ = true |- _ => rewrite E; clear E end. reflexivity.
  - unfold SameStep.Apply. cbn [SameStep.old SameStep.new SameStep.skippedCreate negb andb].
    rewrite andb_false_r. unfold SameStep.with_new. cbn [SameStep.old SameStep.new].
    rewrite set_ID_same, set_Outputs_same. reflexivity.
Qed.

(** X12: the create steps that the constructors return have their old state
    whenever they are to pend a deletion, so [CreateStep.Apply] dereferences
    no nil [old]; they carry a registration event and the desired state they
    were given, which has no ID and is neither external nor marked for
    deletion; and the world is as it was.  [NewCreateStep] builds a logical
    [create] without old state, [NewCreateReplacementStep] a
    [create-replacement] that is not logical and whose old state is not yet
    marked for deletion. *)
Theorem constructed_create_steps :
  (forall deployment reg new w w' s,
      NewCreateStep deployment reg new w = Ok s w' ->
      w' = w /\ hasOldIfPending s /\ is_Some (CreateStep.reg s) /\
      new = Some (CreateStep.new s) /\ desired (CreateStep.new s) = true /\
      External (CreateStep.new s) = false /\
      CreateStep.old s = None /\
      CreateStep_Op s = OpCreate /\ CreateStep_Logical s = true) /\
  (forall deployment reg old new pendingDelete w w' s,
      NewCreateReplacementStep deployment reg old new pendingDelete w = Ok s w' ->
      w' = w /\ hasOldIfPending s /\ is_Some (CreateStep.reg s) /\
      new = Some (CreateStep.new s) /\ desired (CreateStep.new s) = true /\
      External (CreateStep.new s) = false /\
      (exists o, old = Some o /\ CreateStep.old s = Some o /\ Delete o = false) /\
      CreateStep_Op s = OpCreateReplacement /\ CreateStep_Logical s = false).
Proof.
  unfold desired, hasOldIfPending, CreateStep_Op, CreateStep_Logical. split.
  - intros deployment reg new w w' s. hide_conclusion.
    unfold NewCreateStep. destruct reg, new; required.
    intros [= <- <-]. subst Concl. simpl.
    repeat match goal with E : negb _ = true |- _ => apply negb_true_iff in E end.
    repeat match goal with E : _ = _ |- _ => rewrite E end.
    repeat split; eauto; discriminate.
  - intros deployment reg old new pendingDelete w w' s. hide_conclusion.
    unfold NewCreateReplacementStep. destruct reg, old, new; required.
    intros [= <- <-]. subst Concl. simpl.
    repeat match goal with E : negb _ = true |- _ => apply negb_true_iff in E end.
    repeat match goal with E : _ = _ |- _ => rewrite E end.
    repeat split; eauto.
Qed.
End Built.

Lemma skipped_create_is_noop_witness :
  let p := Examples.provider "id" StatusOK None Examples.noRead in
  let d := Examples.deployment p (Some "bad configuration") in
  let n := Examples.state "urn:p" "pulumi:providers:aws" true EmptyString in
  let s := SameStep.mk (Some d) (Some 0%nat) n n true in
  NewSkippedCreateStep (Some d) (Some 0%nat) (Some n) (Examples.world 0) =
    Ok s (Examples.world 0) /\
  SameStep.Apply s false (Examples.world 0) =
    Ok (s, (StatusOK, Some (DoneReg (Some 0%nat)), None)) (Examples.world 0).
Proof.
  intros p d n s.
  apply (skipped_create_is_noop (Some d) (Some 0%nat) n false (Examples.world 0)).
  reflexivity.
Defined.

Lemma constructed_create_steps_witness :
  let o := Examples.state "urn:b" "aws:s3/bucket:Bucket" true "old-id" in
  let n := Examples.state "urn:b" "aws:s3/bucket:Bucket" true EmptyString in
  let s := CreateStep.mk None (Some 0%nat) (Some o) n true true in
  NewCreateReplacementStep None (Some 0%nat) (Some o) (Some n) true (Examples.world 0) =
    Ok s (Examples.world 0) /\
  hasOldIfPending s /\ CreateStep_Op s = OpCreateReplacement.
Proof.
  intros o n s. split; [reflexivity|].
  destruct (proj2 constructed_create_steps None (Some 0%nat) (Some o) (Some n) true
              (Examples.world 0) (Examples.world 0) s eq_refl)
    as (_ & O & _ & _ & _ & _ & _ & Op & _).
  split; [exact O|exact Op].
Defined.

(** ** CreateStep: components, preview, and the replace step that follows *)

Section CreateMore.
Context `{Externals}.

(** X13: a create step for a component (a resource that is not custom) calls
    no provider and cannot fail: it returns [StatusOK], the Complete and no
    error, leaves ID and outputs of the new state alone, stamps [Created]
    and [Modified] with the clock, and marks the old state for deletion
    exactly when it is a replacement with a pending delete. *)
Theorem CreateStep_component (s : CreateStep.t) (preview : bool) (w : World) :
  Custom (CreateStep.new s) = false ->
  hasOldIfPending s ->
  exists s',
    CreateStep.Apply s preview w =
      Ok (s', (StatusOK, Some (DoneReg (CreateStep.reg s)), None)) w /\
    ID (CreateStep.new s') = ID (CreateStep.new s) /\
    Outputs (CreateStep.new s') = Outputs (CreateStep.new s) /\
    Created (CreateStep.new s') = Some (clock w) /\
    Modified (CreateStep.new s') = Some (clock w) /\
    CreateStep.old s' =
      (if CreateStep.replacing s && CreateStep.pendingDelete s
       then set_Delete true <$> CreateStep.old s else CreateStep.old s).
Proof.
  intros C O. unfold CreateStep.Apply, CreateStep.finish, hasOldIfPending in *.
  rewrite C. run.
  destruct (CreateStep.replacing s && CreateStep.pendingDelete s).
  - destruct O as [o ->]; [reflexivity|]. simpl. eexists. split; [reflexivity|].
    simpl. auto 10.
  - eexists. split; [reflexivity|]. simpl. auto 10.
Qed.

(** X14: the Create RPC goes out in preview too, with the deployment's own
    preview flag, and in preview an empty ID is accepted: applied with
    [preview = true] to a custom resource whose provider resolves and
    answers without error, a create step makes exactly the Create call,
    succeeds, and stores the returned ID, empty or not, and outputs. *)
Theorem CreateStep_preview (s : CreateStep.t) (w : World) prov d id outs rst :
  Custom (CreateStep.new s) = true ->
  getProvider s w = Ok (inl prov) w ->
  CreateStep.deployment s = Some d ->
  hasOldIfPending s ->
  createAnswer s d prov = (id, outs, rst, None) ->
  exists s',
    CreateStep.Apply s true w =
      Ok (s', (StatusOK, Some (DoneReg (CreateStep.reg s)), None))
         (called w (createCall s d)) /\
    ID (CreateStep.new s') = id /\
    Outputs (CreateStep.new s') = outs.
Proof.
  intros C P D O A. rewrite (CreateStep_Apply_custom s true w _ _ _ _ _ _ C P D A).
  unfold CreateStep.store. simpl.
  match goal with
  | |- context [CreateStep.finish ?s1 ?st ?e ?w1] =>
      destruct (CreateStep_finish s1 st e w1) as (s' & E & I & U & _); [exact O|]
  end.
  exists s'. split; [exact E|]. simpl in *. auto.
Qed.

(** X15: [ReplaceStep.Apply] does nothing but check that a pending delete
    has its old state marked: it returns [StatusOK] with a Complete, the
    step and the world unchanged, when [pendingDelete] is false or
    [old.Delete] is set, and aborts otherwise.  The old state that a
    create-replacement with pending delete leaves behind passes that check,
    while the old state that [NewReplaceStep] accepts does not pass it
    before the create-replacement has run. *)
Theorem ReplaceStep_after_create :
  (forall (s : ReplaceStep.t) preview w,
      ReplaceStep.Apply s preview w =
        if negb (ReplaceStep.pendingDelete s) || Delete (ReplaceStep.old s)
        then Ok (s, (StatusOK, Some Nop, None)) w
        else Panic ("old resource " +:+ URN (ReplaceStep.old s) +:+
                    " should be marked for deletion if pending delete")) /\
  (forall (c c' : CreateStep.t) preview w w' r,
      CreateStep.replacing c && CreateStep.pendingDelete c = true ->
      CreateStep.Apply c preview w = Ok (c', r) w' ->
      is_Some (complete r) ->
      exists o', CreateStep.old c' = Some o' /\
        forall deployment p2 w2,
          let rs := ReplaceStep.mk deployment o' (CreateStep.new c') true in
          ReplaceStep.Apply rs p2 w2 = Ok (rs, (StatusOK, Some Nop, None)) w2) /\
  (forall deployment old new w w' rs preview,
      ReplaceStep.NewReplaceStep deployment old new true w = Ok rs w' ->
      exists msg, ReplaceStep.Apply rs preview w' = Panic msg).
Proof.
  split; [|split].
  - intros s preview w. unfold ReplaceStep.Apply. run.
    destruct (negb _ || _); reflexivity.
  - intros c c' preview w w' r RP E Cm.
    assert (exists o', CreateStep.old c' = Some o' /\ Delete o' = true) as (o' & Eo & Del).
    { revert E. unfold CreateStep.Apply.
      assert (forall c1 st e w1,
                 CreateStep.replacing c1 && CreateStep.pendingDelete c1 = true ->
                 forall c2 r2 w2, CreateStep.finish c1 st e w1 = Ok (c2, r2) w2 ->
                 exists o', CreateStep.old c2 = Some o' /\ Delete o' = true) as F.
      { intros c1 st e w1 RP1 c2 r2 w2. unfold CreateStep.finish. run.
        rewrite RP1. destruct (CreateStep.old c1); [|discriminate]. simpl.
        intros [= <- _ _]. simpl. eauto. }
      assert (forall c1 pv id outs st e w1,
                 CreateStep.replacing c1 && CreateStep.pendingDelete c1 = true ->
                 forall c2 r2 w2, CreateStep.store c1 pv id outs st e w1 = Ok (c2, r2) w2 ->
                 is_Some (complete r2) ->
                 exists o', CreateStep.old c2 = Some o' /\ Delete o' = true) as S.
      { intros c1 pv id outs st e w1 RP1 c2 r2 w2. unfold CreateStep.store.
        destruct (negb pv && isEmpty id).
        - unfold mret, M_ret. intros [= <- <- _] [? [=]].
        - intros E _. eapply F; [|exact E]. exact RP1. }
      destruct (Custom (CreateStep.new c)); [|intros E; eapply F; eauto].
      intros E. apply bind_inv in E as ([prov|e] & w1 & _ & E); revert E; run.
      2: { intros [= _ <- _]. now destruct Cm. }
      destruct (CreateStep.deployment c); [|discriminate]. simpl.
      destruct (plugin.onCreate _ _ _ _ _) as [[[id outs] rst] [e|]].
      - destruct (bool_decide _).
        + intros [= _ <- _]. now destruct Cm.
        + intros E. eapply S; [|exact E|exact Cm]. now destruct e.
      - intros E. eapply S; [|exact E|exact Cm]. exact RP. }
    exists o'. split; [exact Eo|]. intros deployment p2 w2 rs.
    unfold ReplaceStep.Apply. run. subst rs. simpl. now rewrite Del.
  - intros deployment old new w w' rs preview. hide_conclusion.
    unfold ReplaceStep.NewReplaceStep. destruct old, new; required.
    intros [= <- <-]. subst Concl. unfold ReplaceStep.Apply. run.
    match goal with E : negb (Delete _) = true |- _ => apply negb_true_iff in E; rewrite E end.
    simpl. eauto.
Qed.
End CreateMore.

Lemma CreateStep_component_witness :
  let o := Examples.state "urn:k" "my:component:Type" false EmptyString in
  let n := Examples.state "urn:k" "my:component:Type" false EmptyString in
  let s := CreateStep.mk None (Some 0%nat) (Some o) n true true in
  exists s',
    CreateStep.Apply s false (Examples.world 42) =
      Ok (s', (StatusOK, Some (DoneReg (Some 0%nat)), None)) (Examples.world 42) /\
    Created (CreateStep.new s') = Some 42 /\
    CreateStep.old s' = Some (set_Delete true o).
Proof.
  intros o n s.
  destruct (CreateStep_component s false (Examples.world 42) eq_refl)
    as (s' & E & _ & _ & Cr & _ & Old).
  { intros _. eexists. reflexivity. }
  exists s'. split; [exact E|]. split; [exact Cr|exact Old].
Defined.

Lemma CreateStep_preview_witness :
  let p := Examples.provider EmptyString StatusOK None Examples.noRead in
  let d := Examples.deployment p None in
  let s := CreateStep.mk (Some d) (Some 0%nat)
             None (Examples.state "urn:b" "aws:s3/bucket:Bucket" true EmptyString)
             false false in
  exists s',
    CreateStep.Apply s true (Examples.world 0) =
      Ok (s', (StatusOK, Some (DoneReg (Some 0%nat)), None))
         (called (Examples.world 0)
            (plugin.CreateRPC "urn:b" (Some ∅) 0 false)) /\
    ID (CreateStep.new s') = EmptyString /\
    Outputs (CreateStep.new s') = Examples.outs "z" "9".
Proof.
  intros p d s.
  apply (CreateStep_preview s (Examples.world 0) p d EmptyString (Examples.outs "z" "9")
           StatusOK); try reflexivity; discriminate.
Defined.

Lemma ReplaceStep_after_create_witness :
  let o := Examples.state "urn:b" "aws:s3/bucket:Bucket" true "old-id" in
  let n := Examples.state "urn:b" "aws:s3/bucket:Bucket" true EmptyString in
  (exists msg,
     ReplaceStep.Apply (ReplaceStep.mk None o n true) false (Examples.world 0) = Panic msg) /\
  (let rs := ReplaceStep.mk None (set_Delete true o) n true in
   ReplaceStep.Apply rs false (Examples.world 0) =
     Ok (rs, (StatusOK, Some Nop, None)) (Examples.world 0)).
Proof.
  intros o n. split.
  - apply (proj2 (proj2 ReplaceStep_after_create) None (Some o) (Some n)
             (Examples.world 0) (Examples.world 0) (ReplaceStep.mk None o n true) false).
    reflexivity.
  - intros rs. rewrite (proj1 ReplaceStep_after_create rs false (Examples.world 0)).
    reflexivity.
Defined.

(** ** Pending replacement, and UpdateStep *)

Section PendingAndUpdate.
Context `{Externals}.

(** X16: the old state of a delete-replacement step built with
    [pendingReplace = true] is accepted by [NewRemovePendingReplaceStep], and
    the step so built applies as a no-op ([StatusOK], nil Complete, no
    error, nothing changed); the old state of one built with
    [pendingReplace = false] makes [NewRemovePendingReplaceStep] abort. *)
Theorem pending_replace_cleanup (deployment : option Deployment.t)
    (otherDeletions : option (gmap string bool)) (o : State) (pendingReplace preview : bool)
    (w w' : World) (s : DeleteStep.t) :
  DeleteStep.NewDeleteReplacementStep deployment otherDeletions (Some o) pendingReplace w =
    Ok s w' ->
  let r := RemovePendingReplaceStep.mk deployment (DeleteStep.old s) in
  if pendingReplace
  then RemovePendingReplaceStep.NewRemovePendingReplaceStep deployment
         (Some (DeleteStep.old s)) w' = Ok r w' /\
       RemovePendingReplaceStep.Apply r preview w' = Ok (r, (StatusOK, None, None)) w'
  else exists msg,
         RemovePendingReplaceStep.NewRemovePendingReplaceStep deployment
           (Some (DeleteStep.old s)) w' = Panic msg.
Proof.
  hide_conclusion.
  unfold DeleteStep.NewDeleteReplacementStep, DeleteStep.requireOld. required.
  intros [= <- <-]. subst Concl. simpl.
  unfold RemovePendingReplaceStep.NewRemovePendingReplaceStep, Requiref. run.
  destruct pendingReplace; simpl; eauto.
Qed.

(** X17: applied to a custom resource whose provider resolves, an update
    step makes exactly one call, [Update] with the old ID, inputs and
    outputs, the new inputs and the deployment's preview flag, in preview or
    not.  With no error the step returns [StatusOK] whatever status the
    provider gave and stores the returned outputs; with an error whose
    status is not PartialFailure the outputs of the new state are left as
    they were and [Modified] stays at the old value. *)
Theorem UpdateStep_call (s : UpdateStep.t) (preview : bool) (w : World) prov d outs rst e :
  Custom (UpdateStep.new s) = true ->
  getProvider s w = Ok (inl prov) w ->
  UpdateStep.deployment s = Some d ->
  updateAnswer s d prov = (outs, rst, e) ->
  exists s' r,
    UpdateStep.Apply s preview w = Ok (s', r) (called w (updateCall s d)) /\
    (e = None ->
       r = (StatusOK, Some (DoneReg (UpdateStep.reg s)), None) /\
       Outputs (UpdateStep.new s') = outs /\
       InitErrors (UpdateStep.new s') = InitErrors (UpdateStep.new s)) /\
    (is_Some e -> rst <> StatusPartialFailure ->
       complete r = None /\ status r = rst /\
       Outputs (UpdateStep.new s') = Outputs (UpdateStep.new s) /\
       Modified (UpdateStep.new s') = Modified (UpdateStep.old s)).
Proof.
  intros C P D A. rewrite (UpdateStep_Apply_custom s preview w _ _ _ _ _ C P D A).
  destruct e as [e|].
  - destruct (bool_decide (rst ≠ StatusPartialFailure)) eqn:B.
    + eexists _, _. split; [reflexivity|]. split; [discriminate|]. simpl. auto.
    + apply bool_decide_eq_false in B.
      unfold UpdateStep.store. run. eexists _, _. split; [reflexivity|].
      split; [discriminate|]. intros _ N. now destruct B.
  - unfold UpdateStep.store. run. eexists _, _. split; [reflexivity|].
    split; [|intros [? [=]]]. intros _. simpl. auto.
Qed.

(** X18: [NewUpdateStep] accepts neither an external old state nor an
    external new state, nor one marked for deletion; and when the old state
    it accepted is custom, the new state carries a non-empty ID, the old
    one, after any [Apply] that returns. *)
Theorem NewUpdateStep_then_Apply (deployment : option Deployment.t) (reg : option nat)
    (old new : option State) (ignoreChanges : list string) (w w' : World) (s : UpdateStep.t) :
  NewUpdateStep deployment reg old new ignoreChanges w = Ok s w' ->
  old = Some (UpdateStep.old s) /\ new = Some (UpdateStep.new s) /\
  External (UpdateStep.old s) = false /\ External (UpdateStep.new s) = false /\
  Delete (UpdateStep.old s) = false /\ Delete (UpdateStep.new s) = false /\
  (forall preview w2 s2 r2 w3,
     UpdateStep.Apply s preview w2 = Ok (s2, r2) w3 ->
     Custom (UpdateStep.old s) = true ->
     ID (UpdateStep.new s2) = ID (UpdateStep.old s) /\
     ID (UpdateStep.new s2) <> EmptyString).
Proof.
  hide_conclusion. unfold NewUpdateStep. destruct old, new; required.
  intros [= <- <-]. subst Concl. simpl.
  repeat match goal with E : negb _ = true |- _ => apply negb_true_iff in E end.
  do 6 (split; [auto|]).
  intros preview w2 s2 r2 w3 Ap Cu.
  destruct (UpdateStep_returns _ _ _ _ _ _ Ap) as (_ & I & _). simpl in I.
  split; [exact I|]. rewrite I. intros Em.
  match goal with
  | E : negb (isEmpty (ID ?o)) || negb (Custom ?o) = true |- _ =>
      simpl in Cu; rewrite Em, Cu in E; discriminate E
  end.
Qed.
End PendingAndUpdate.

Lemma pending_replace_cleanup_witness :
  let o := Examples.state "urn:a" "aws:s3/bucket:Bucket" true "id-1" in
  let r := RemovePendingReplaceStep.mk None (set_PendingReplacement true o) in
  RemovePendingReplaceStep.NewRemovePendingReplaceStep None
    (Some (set_PendingReplacement true o)) (Examples.world 0) = Ok r (Examples.world 0) /\
  RemovePendingReplaceStep.Apply r false (Examples.world 0) =
    Ok (r, (StatusOK, None, None)) (Examples.world 0).
Proof.
  intros o r.
  exact (pending_replace_cleanup None (Some ∅) o true false (Examples.world 0)
           (Examples.world 0)
           (DeleteStep.mk None (set_PendingReplacement true o) true (Some ∅)) eq_refl).
Defined.

Lemma UpdateStep_call_witness :
  let p := Examples.provider "id" StatusOK None Examples.noRead in
  let d := Examples.deployment p None in
  let old := Examples.state "urn:u" "aws:s3/bucket:Bucket" true "i" in
  let new := Examples.state "urn:u" "aws:s3/bucket:Bucket" true EmptyString in
  let s := UpdateStep.mk (Some d) (Some 0%nat) old new ["tags"] in
  exists s' r,
    UpdateStep.Apply s true (Examples.world 0) =
      Ok (s', r)
         (called (Examples.world 0)
            (plugin.UpdateRPC "urn:u" "i" (Some ∅) None (Some ∅) 0 ["tags"] false)) /\
    r = (StatusOK, Some (DoneReg (Some 0%nat)), None) /\
    Outputs (UpdateStep.new s') = Examples.outs "z" "9".
Proof.
  intros p d old new s.
  edestruct (UpdateStep_call s true (Examples.world 0) p d (Examples.outs "z" "9") StatusOK
               None) as (s' & r & E & Ok_ & _); try reflexivity.
  destruct (Ok_ eq_refl) as (R & O & _).
  exists s', r. split; [exact E|]. split; [exact R|exact O].
Defined.

Lemma NewUpdateStep_then_Apply_witness :
  let old := Examples.state "urn:u" "my:component:Type" false EmptyString in
  let new := Examples.state "urn:u" "my:component:Type" false EmptyString in
  let s := UpdateStep.mk None (Some 0%nat) old new [] in
  NewUpdateStep None (Some 0%nat) (Some old) (Some new) [] (Examples.world 0) =
    Ok s (Examples.world 0) /\
  External (UpdateStep.old s) = false /\ External (UpdateStep.new s) = false.
Proof.
  intros old new s. split; [reflexivity|].
  destruct (NewUpdateStep_then_Apply None (Some 0%nat) (Some old) (Some new) []
              (Examples.world 0) (Examples.world 0) s eq_refl)
    as (_ & _ & Eo & En & _).
  split; [exact Eo|exact En].
Defined.

(** ** RefreshStep: what a refresh reads and what it keeps *)

Lemma app_one_neq {A} (l : list A) (x : A) : (l ++ [x])%list <> l.
Proof.
  intros E. apply (f_equal (@List.length A)) in E. rewrite List.length_app in E. simpl in E. lia.
Qed.

Section RefreshMore.
Context `{Externals}.





(** X21: a refresh never touches its old state, its deployment or its
    channel, and a refresh that fails is not taken for a deletion: whenever
    [Apply] returns without having called the provider (a resource that a
    refresh leaves alone, or a provider that does not resolve), or returns a
    provider error whose status is not PartialFailure, the new state is what
    it was before, which is the old state for a step that [NewRefreshStep]
    built. *)
Theorem RefreshStep_keeps_state (s s' : RefreshStep.t) (preview : bool) (w w' : World)
    (r : ApplyResult) :
  RefreshStep.Apply s preview w = Ok (s', r) w' ->
  RefreshStep.old s' = RefreshStep.old s /\
  RefreshStep.deployment s' = RefreshStep.deployment s /\
  RefreshStep.done s' = RefreshStep.done s /\
  (rpcs w' = rpcs w -> s' = s) /\
  (is_Some (err r) -> status r <> StatusPartialFailure -> s' = s) /\
  (forall deployment old done w0,
     RefreshStep.NewRefreshStep deployment old done w0 = Ok s w0 ->
     RefreshStep.new s = Some (RefreshStep.old s) /\ old = Some (RefreshStep.old s)).
Proof.
  intros E.
  assert (forall s1 rf ie st er w1 s2 r2 w2,
             RefreshStep.adopt s1 rf ie st er w1 = Ok (s2, r2) w2 ->
             RefreshStep.old s2 = RefreshStep.old s1 /\
             RefreshStep.deployment s2 = RefreshStep.deployment s1 /\
             RefreshStep.done s2 = RefreshStep.done s1 /\
             rpcs w2 = rpcs w1 /\ r2 = (st, None, er)) as Ad.
  { intros s1 rf ie st er w1 s2 r2 w2. unfold RefreshStep.adopt. run.
    destruct (plugin.rOutputs rf); [|intros [= <- <- <-]; simpl; auto].
    destruct (_ || _); intros [= <- <- <-]; simpl; auto. }
  assert (RefreshStep.old s' = RefreshStep.old s /\
          RefreshStep.deployment s' = RefreshStep.deployment s /\
          RefreshStep.done s' = RefreshStep.done s /\
          (rpcs w' = rpcs w -> s' = s) /\
          (is_Some (err r) -> status r <> StatusPartialFailure -> s' = s)) as G.
  { revert E. unfold RefreshStep.Apply.
    destruct (_ || _ || _).
    { unfold mret, M_ret. intros [= <- <- <-]. auto. }
    intros E. apply bind_inv in E as ([prov|e] & w1 & P & E);
      pose proof (getProvider_world _ _ _ _ P) as ->; revert E; run.
    2: { intros [= <- <- <-]. auto. }
    destruct (plugin.onRead _ _ _ _ _) as [[refreshed rst] [e|]].
    - destruct (bool_decide (rst ≠ StatusPartialFailure)) eqn:B.
      { intros [= <- <- <-]. auto. }
      apply bool_decide_eq_false in B.
      assert (rst = StatusPartialFailure) as -> by (destruct rst; try reflexivity;
                                                    exfalso; apply B; discriminate).
      destruct e as [reasons|msg].
      + destruct (RefreshStep.deployment s) eqn:Dp; [|discriminate]. simpl.
        intros E. apply Ad in E as (O & D & Dn & R & ->). simpl in *.
        rewrite Dp in D.
        do 3 (split; [assumption|]). split.
        * intros X. rewrite X in R. symmetry in R. now apply app_one_neq in R.
        * intros [? [=]].
      + intros E. apply Ad in E as (O & D & Dn & R & ->). simpl in *.
        do 3 (split; [assumption|]). split.
        * intros X. rewrite X in R. symmetry in R. now apply app_one_neq in R.
        * intros _ N. now destruct N.
    - intros E. apply Ad in E as (O & D & Dn & R & ->). simpl in *.
      do 3 (split; [assumption|]). split.
      + intros X. rewrite X in R. symmetry in R. now apply app_one_neq in R.
      + intros [? [=]]. }
  destruct G as (G1 & G2 & G3 & G4 & G5). do 5 (split; [assumption|]).
  intros deployment old done w0. unfold RefreshStep.NewRefreshStep.
  destruct old; run; [|discriminate]. intros [= <-]. simpl. auto.
Qed.
End RefreshMore.



Lemma RefreshStep_keeps_state_witness :
  let p := Examples.provider "id" StatusUnknown (Some (plugin_error.Other "timeout"))
             Examples.noRead in
  let d := Examples.deployment p None in
  let old := Examples.state "urn:r" "aws:s3/bucket:Bucket" true "i" in
  let s := RefreshStep.mk (Some d) old (Some old) None in
  exists s' w',
    RefreshStep.Apply s false (Examples.world 7) =
      Ok (s', (StatusUnknown, None, Some (FromProvider (plugin_error.Other "timeout")))) w' /\
    s' = s /\ RefreshStep.new s' = Some old.
Proof.
  intros p d old s.
  assert (exists s' w', RefreshStep.Apply s false (Examples.world 7) =
                          Ok (s', (StatusUnknown, None,
                                   Some (FromProvider (plugin_error.Other "timeout")))) w')
    as (s' & w' & E) by (eexists _, _; reflexivity).
  destruct (RefreshStep_keeps_state s s' false _ w' _ E) as (_ & _ & _ & _ & K & _).
  assert (s' = s) as -> by (apply K; [eexists; reflexivity|discriminate]).
  exists s, w'. split; [exact E|]. split; reflexivity.
Defined.

(** ** ReadStep *)

Section ReadProperties.
Context `{Externals} `{Sentinels}.

(** [finish] returns once a replacing read has its old state. *)
Lemma ReadStep_finish (s : ReadStep.t) (st : resource_Status) (e : option error) (w : World) :
  hasOldIfReplacing s ->
  exists s',
    ReadStep.finish s st e w = Ok (s', (st, Some (DoneReg (ReadStep.event s)), e)) w /\
    ID (ReadStep.new s') = ID (ReadStep.new s) /\
    Inputs (ReadStep.new s') = Inputs (ReadStep.new s) /\
    Outputs (ReadStep.new s') = Outputs (ReadStep.new s) /\
    InitErrors (ReadStep.new s') = InitErrors (ReadStep.new s) /\
    ReadStep.old s' =
      (if ReadStep.replacing s then set_Delete true <$> ReadStep.old s else ReadStep.old s) /\
    readStamps (ReadStep.old s) (ReadStep.new s) (ReadStep.new s') (clock w).
Proof.
  intros O. unfold ReadStep.finish, hasOldIfReplacing, readStamps in *.
  destruct s as [dep ev old new repl]. run.
  destruct repl.
  - destruct O as [o ->]; [reflexivity|]. simpl.
    destruct (DeepEquals (Inputs new) (Inputs o)) eqn:DI;
      destruct (DeepEquals (Outputs new) (Outputs o)) eqn:DO; simpl;
      (eexists; split; [reflexivity|]; simpl; rewrite ?DI, ?DO; simpl; auto 10).
  - destruct old as [o|]; simpl.
    + destruct (DeepEquals (Inputs new) (Inputs o)) eqn:DI;
        destruct (DeepEquals (Outputs new) (Outputs o)) eqn:DO; simpl;
        (eexists; split; [reflexivity|]; simpl; rewrite ?DI, ?DO; simpl; auto 10).
    + eexists. split; [reflexivity|]. simpl. auto 10.
Qed.

(** [Apply] on a known ID, once the provider has resolved. *)
Lemma ReadStep_Apply_known (s : ReadStep.t) (preview : bool) (w : World) prov result rst e :
  ID (ReadStep.new s) <> UnknownStringValue ->
  getProvider s w = Ok (inl prov) w ->
  readAnswer s prov = (result, rst, e) ->
  ReadStep.Apply s preview w =
    match e with
    | Some e =>
        if bool_decide (rst ≠ StatusPartialFailure) then
          Ok (s, (rst, None, Some (FromProvider e))) (called w (readCall s))
        else
          ReadStep.store
            (match e with
             | plugin_error.InitError Reasons =>
                 ReadStep.with_new (set_InitErrors Reasons (ReadStep.new s)) s
             | plugin_error.Other _ => s
             end) (ID (ReadStep.new s)) result rst (Some (FromProvider e))
            (called w (readCall s))
    | None => ReadStep.store s (ID (ReadStep.new s)) result StatusOK None
                (called w (readCall s))
    end.
Proof.
  intros K P A. unfold ReadStep.Apply, readAnswer in *.
  destruct (String.eqb_spec (ID (ReadStep.new s)) UnknownStringValue); [congruence|].
  rewrite (bind_Ok _ _ _ _ _ P). run. rewrite A.
  destruct e as [e|]; [|reflexivity]. destruct (bool_decide _); reflexivity.
Qed.

(** X22: a read of an ID that is not known yet resolves no provider and
    calls nothing: it succeeds with [StatusOK] and the Complete, sets the
    outputs of the new state to the empty map, keeps its ID and inputs, marks
    the old state for deletion when replacing, and stamps the new state as
    any read does. *)
Theorem ReadStep_unknown_id (s : ReadStep.t) (preview : bool) (w : World) :
  ID (ReadStep.new s) = UnknownStringValue ->
  hasOldIfReplacing s ->
  exists s',
    ReadStep.Apply s preview w =
      Ok (s', (StatusOK, Some (DoneReg (ReadStep.event s)), None)) w /\
    Outputs (ReadStep.new s') = Some ∅ /\
    ID (ReadStep.new s') = UnknownStringValue /\
    Inputs (ReadStep.new s') = Inputs (ReadStep.new s) /\
    ReadStep.old s' =
      (if ReadStep.replacing s then set_Delete true <$> ReadStep.old s else ReadStep.old s) /\
    readStamps (ReadStep.old s) (set_Outputs (Some ∅) (ReadStep.new s)) (ReadStep.new s')
      (clock w).
Proof.
  intros U O. unfold ReadStep.Apply. rewrite U, String.eqb_refl.
  destruct (ReadStep_finish (ReadStep.with_new (set_Outputs (Some ∅) (ReadStep.new s)) s)
              StatusOK None w O) as (s' & E & I & In & Ou & _ & Ol & St).
  exists s'. split; [exact E|]. simpl in *. rewrite <- U. auto 10.
Qed.

(** X23: a read of a resource that the provider does not find fails.  When
    Read returns no outputs, without error or with status PartialFailure,
    [Apply] makes exactly the Read call and returns [StatusOK], a nil
    Complete and the error "resource '<id>' does not exist", whatever the
    provider's status and error were; the outputs of the new state are left
    alone and the old state is not marked for deletion, even when
    replacing. *)
Theorem ReadStep_missing (s : ReadStep.t) (preview : bool) (w : World) prov result rst e :
  ID (ReadStep.new s) <> UnknownStringValue ->
  getProvider s w = Ok (inl prov) w ->
  readAnswer s prov = (result, rst, e) ->
  e = None \/ rst = StatusPartialFailure ->
  plugin.rOutputs result = None ->
  exists s',
    ReadStep.Apply s preview w =
      Ok (s', (StatusOK, None,
               Some (errorString ("resource '" +:+ ID (ReadStep.new s) +:+
                                  "' does not exist"))))
         (called w (readCall s)) /\
    ReadStep.old s' = ReadStep.old s /\
    Outputs (ReadStep.new s') = Outputs (ReadStep.new s) /\
    ID (ReadStep.new s') = ID (ReadStep.new s).
Proof.
  intros K P A G N. rewrite (ReadStep_Apply_known s preview w _ _ _ _ K P A).
  unfold ReadStep.store. rewrite N.
  destruct e as [e|].
  - destruct G as [[=]| ->]. rewrite bool_decide_eq_false_2 by (intros X; now apply X).
    eexists. split; [reflexivity|]. destruct e; simpl; auto.
  - eexists. split; [reflexivity|]. auto.
Qed.

(** X24: a read that finds the resource.  When Read answers without error
    and with outputs, [Apply] makes exactly the Read call (with nil old
    inputs), returns [StatusOK] and the Complete, stores the outputs and,
    if the provider returned one, the ID, keeps the inputs, marks the old
    state for deletion exactly when replacing, and stamps the new state:
    without an old state the timestamps are not touched; with one,
    [Created] is inherited and [Modified] is inherited unless inputs or
    outputs differ from the old ones, when it is read from the clock. *)
Theorem ReadStep_found (s : ReadStep.t) (preview : bool) (w : World) prov result rst outs :
  ID (ReadStep.new s) <> UnknownStringValue ->
  getProvider s w = Ok (inl prov) w ->
  readAnswer s prov = (result, rst, None) ->
  plugin.rOutputs result = Some outs ->
  hasOldIfReplacing s ->
  exists s',
    ReadStep.Apply s preview w =
      Ok (s', (StatusOK, Some (DoneReg (ReadStep.event s)), None))
         (called w (readCall s)) /\
    Outputs (ReadStep.new s') = Some outs /\
    ID (ReadStep.new s') =
      (if isEmpty (plugin.rID result) then ID (ReadStep.new s) else plugin.rID result) /\
    Inputs (ReadStep.new s') = Inputs (ReadStep.new s) /\
    ReadStep.old s' =
      (if ReadStep.replacing s then set_Delete true <$> ReadStep.old s else ReadStep.old s) /\
    match ReadStep.old s with
    | None => Created (ReadStep.new s') = Created (ReadStep.new s) /\
              Modified (ReadStep.new s') = Modified (ReadStep.new s)
    | Some o =>
        Created (ReadStep.new s') = Created o /\
        Modified (ReadStep.new s') =
          (if DeepEquals (Inputs (ReadStep.new s)) (Inputs o) &&
              DeepEquals (Some outs) (Outputs o)
           then Modified o else Some (clock w))
    end.
Proof.
  intros K P A N O. rewrite (ReadStep_Apply_known s preview w _ _ _ _ K P A).
  unfold ReadStep.store. rewrite N.
  destruct (isEmpty (plugin.rID result)); simpl;
    match goal with
    | |- context [ReadStep.finish ?s1 ?st ?e ?w1] =>
        destruct (ReadStep_finish s1 st e w1 O) as (s' & E & I & In & Ou & _ & Ol & St)
    end;
    exists s'; (split; [exact E|]); unfold readStamps in St; simpl in *;
    rewrite In, Ou in St;
    (split; [exact Ou|]; split; [exact I|]; split; [exact In|]; split; [exact Ol|]);
    destruct (ReadStep.old s); exact St.
Qed.

(** X25: the read steps that the constructors return read a state that is
    custom, external and has an ID, and have their old state whenever they
    are replacing.  [NewReadStep] builds a logical [read] whose old state,
    if any, is external or has the ID to read; [NewReadReplacementStep]
    builds a [read-replacement] that is not logical and whose old state is
    not external. *)
Theorem constructed_read_steps :
  (forall deployment event old new w w' s,
      ReadStep.NewReadStep deployment event old new w = Ok s w' ->
      w' = w /\ hasOldIfReplacing s /\ new = Some (ReadStep.new s) /\
      old = ReadStep.old s /\
      Custom (ReadStep.new s) = true /\ External (ReadStep.new s) = true /\
      ID (ReadStep.new s) <> EmptyString /\
      (forall o, old = Some o -> ID o = ID (ReadStep.new s) \/ External o = true) /\
      ReadStep.Op s = OpRead /\ ReadStep.Logical s = true) /\
  (forall deployment event old new w w' s,
      ReadStep.NewReadReplacementStep deployment event old new w = Ok s w' ->
      w' = w /\ hasOldIfReplacing s /\ new = Some (ReadStep.new s) /\
      old = ReadStep.old s /\
      Custom (ReadStep.new s) = true /\ External (ReadStep.new s) = true /\
      ID (ReadStep.new s) <> EmptyString /\
      (exists o, old = Some o /\ External o = false) /\
      ReadStep.Op s = OpReadReplacement /\ ReadStep.Logical s = false).
Proof.
  unfold hasOldIfReplacing, ReadStep.Op, ReadStep.Logical. split.
  - intros deployment event old new w w' s. hide_conclusion.
    unfold ReadStep.NewReadStep. destruct new as [n|]; [|required].
    destruct old as [o|]; required; intros [= <- <-]; subst Concl; simpl;
      repeat match goal with E : negb _ = true |- _ => apply negb_true_iff in E end;
      (do 2 (split; [auto; discriminate|])); (do 4 (split; [auto|])).
    + split; [intros Em; rewrite Em in *; discriminate|].
      split; [|auto]. intros o' [= <-].
      match goal with
      | E : String.eqb _ _ || _ = true |- _ =>
          apply orb_prop in E as [E|E]; [left; now apply String.eqb_eq|right; exact E]
      end.
    + split; [intros Em; rewrite Em in *; discriminate|].
      split; [|auto]. intros o' [=].
  - intros deployment event old new w w' s. hide_conclusion.
    unfold ReadStep.NewReadReplacementStep. destruct new as [n|], old as [o|]; required.
    intros [= <- <-]. subst Concl. simpl.
    repeat match goal with E : negb _ = true |- _ => apply negb_true_iff in E end.
    split; [auto|]. split; [eauto|]. do 4 (split; [auto|]).
    split; [intros Em; rewrite Em in *; discriminate|]. split; [eauto|auto].
Qed.
End ReadProperties.

Lemma ReadStep_unknown_id_witness :
  let n := Examples.state "urn:x" "aws:s3/bucket:Bucket" true
             "04da6b54-80e4-46f7-96ec-b56ff0331ba9" in
  let s := ReadStep.mk None (Some 0%nat) None n false in
  exists s',
    ReadStep.Apply s true (Examples.world 3) =
      Ok (s', (StatusOK, Some (DoneReg (Some 0%nat)), None)) (Examples.world 3) /\
    Outputs (ReadStep.new s') = Some ∅.
Proof.
  intros n s.
  edestruct (ReadStep_unknown_id s true (Examples.world 3)) as (s' & E & O & _);
    try reflexivity.
  { intros [=]. }
  exists s'. split; [exact E|exact O].
Defined.

Lemma ReadStep_missing_witness :
  let p := Examples.provider "id" StatusPartialFailure
             (Some (plugin_error.InitError ["not ready"])) Examples.noRead in
  let d := Examples.deployment p None in
  let n := Examples.state "urn:x" "aws:s3/bucket:Bucket" true "i-404" in
  let s := ReadStep.mk (Some d) (Some 0%nat) None n false in
  exists s',
    ReadStep.Apply s false (Examples.world 3) =
      Ok (s', (StatusOK, None, Some (errorString "resource 'i-404' does not exist")))
         (called (Examples.world 3) (readCall s)).
Proof.
  intros p d n s.
  edestruct (ReadStep_missing s false (Examples.world 3) p Examples.noRead
               StatusPartialFailure (Some (plugin_error.InitError ["not ready"])))
    as (s' & E & _); try reflexivity; try discriminate.
  { right. reflexivity. }
  exists s'. exact E.
Defined.

Lemma ReadStep_found_witness :
  let read := plugin.mkRead "i-2" None (Examples.outs "z" "9") in
  let p := Examples.provider "id" StatusOK None read in
  let d := Examples.deployment p None in
  let o := set_Modified (Some 5) (Examples.state "urn:x" "aws:s3/bucket:Bucket" true "i-1") in
  let n := Examples.state "urn:x" "aws:s3/bucket:Bucket" true "i-1" in
  let s := ReadStep.mk (Some d) (Some 0%nat) (Some o) n true in
  exists s',
    ReadStep.Apply s false (Examples.world 9) =
      Ok (s', (StatusOK, Some (DoneReg (Some 0%nat)), None))
         (called (Examples.world 9) (readCall s)) /\
    ID (ReadStep.new s') = "i-2" /\
    ReadStep.old s' = Some (set_Delete true o) /\
    Modified (ReadStep.new s') = Some 9.
Proof.
  intros read p d o n s.
  edestruct (ReadStep_found s false (Examples.world 9) p read StatusOK {[ "z" := "9" ]})
    as (s' & E & _ & I & _ & Ol & _ & M); try reflexivity; try discriminate.
  { intros _. eexists. reflexivity. }
  exists s'. split; [exact E|]. split; [exact I|]. split; [exact Ol|exact M].
Defined.

Lemma constructed_read_steps_witness :
  let o := Examples.state "urn:x" "aws:s3/bucket:Bucket" true "i-1" in
  let n := mkState "aws:s3/bucket:Bucket" "urn:x" true false "i-1" (Some ∅) None EmptyString
             false true [] [] "urn:provider::prov-id" ∅ false [] [] (Timeouts.mk 0 0 0)
             EmptyString false EmptyString None None EmptyString in
  let s := ReadStep.mk None (Some 0%nat) (Some o) n true in
  ReadStep.NewReadReplacementStep None (Some 0%nat) (Some o) (Some n) (Examples.world 0) =
    Ok s (Examples.world 0) /\
  hasOldIfReplacing s /\ ReadStep.Op s = OpReadReplacement.
Proof.
  intros o n s. split; [reflexivity|].
  destruct (proj2 constructed_read_steps None (Some 0%nat) (Some o) (Some n)
              (Examples.world 0) (Examples.world 0) s eq_refl)
    as (_ & O & _ & _ & _ & _ & _ & _ & Op & _).
  split; [exact O|exact Op].
Defined.

(** ** ImportStep: components, planned imports, and reads that fail *)

Section ImportMore.
Context `{Externals}.

(** X26: the import of a component (a resource that is not custom) resolves
    no provider and calls nothing.  Once the planned-import checks pass,
    [Apply] returns [StatusOK], the Complete and no error, sets the outputs
    of the new state to the empty map, stamps [Created] and [Modified] with
    the clock, keeps the inputs, leaves [original] alone, and synthesises an
    old state with the identity of the new one, empty inputs and outputs,
    and neither [Delete] nor [External] set. *)
Theorem ImportStep_component (s : ImportStep.t) (preview : bool) (w : World) :
  Custom (ImportStep.new s) = false ->
  ImportStep.checkPlanned s w = Ok None w ->
  exists s' o,
    ImportStep.Apply s preview w =
      Ok (s', (StatusOK, Some (DoneReg (ImportStep.reg s)), None)) w /\
    Outputs (ImportStep.new s') = Some ∅ /\
    Inputs (ImportStep.new s') = Inputs (ImportStep.new s) /\
    ID (ImportStep.new s') = ID (ImportStep.new s) /\
    Created (ImportStep.new s') = Some (clock w) /\
    Modified (ImportStep.new s') = Some (clock w) /\
    ImportStep.original s' = ImportStep.original s /\
    ImportStep.old s' = Some o /\
    URN o = URN (ImportStep.new s) /\ ID o = ID (ImportStep.new s) /\
    Type_ o = Type_ (ImportStep.new s) /\
    Inputs o = Some ∅ /\ Outputs o = Some ∅ /\
    Delete o = false /\ External o = false /\ Created o = None /\ Modified o = None.
Proof.
  intros C K. unfold ImportStep.Apply. rewrite (bind_Ok _ _ _ _ _ K). rewrite C.
  unfold ImportStep.record. run. eexists _, _. split; [reflexivity|]. simpl. auto 20.
Qed.

(** X27: a planned import is refused before any provider is involved when
    its URN is already in the old state of the deployment, with the error
    "resource '<urn>' already exists", and, when it is not, when its parent
    is neither of the root stack type nor among the new states, with the
    error "unknown parent": [StatusOK], nil Complete, step and world
    unchanged. *)
Theorem ImportStep_planned_guards (s : ImportStep.t) (preview : bool) (w : World) d :
  ImportStep.planned s = true ->
  ImportStep.deployment s = Some d ->
  (is_Some (Deployment.olds d !! URN (ImportStep.new s)) ->
   ImportStep.Apply s preview w =
     Ok (s, (StatusOK, None,
             Some (errorString ("resource '" +:+ URN (ImportStep.new s) +:+
                                "' already exists")))) w) /\
  (Deployment.olds d !! URN (ImportStep.new s) = None ->
   URNType (Parent (ImportStep.new s)) <> RootStackType ->
   Deployment.news d !! Parent (ImportStep.new s) = None ->
   ImportStep.Apply s preview w =
     Ok (s, (StatusOK, None,
             Some (errorString ("unknown parent '" +:+ Parent (ImportStep.new s) +:+
                                "' for resource '" +:+ URN (ImportStep.new s) +:+ "'")))) w).
Proof.
  intros Pl D. unfold ImportStep.Apply, ImportStep.checkPlanned. rewrite Pl, D. split.
  - intros O. run. rewrite bool_decide_eq_true_2 by exact O. reflexivity.
  - intros O T N. run.
    rewrite bool_decide_eq_false_2 by (rewrite O; intros [? [=]]).
    destruct (String.eqb_spec (URNType (Parent (ImportStep.new s))) RootStackType);
      [congruence|].
    rewrite bool_decide_eq_true_2 by exact N. reflexivity.
Qed.

(** X28: how an import ends when the Read of the resource fails.  With the
    planned-import checks passed and the provider resolved, [Apply] makes
    exactly the Read call, with nil inputs and state, and returns a nil
    Complete with [original] and [old] untouched when: the provider returned
    an error that is not an [InitError] (returned with the provider's
    status, PartialFailure included); or, with no error or an [InitError],
    it returned no outputs (the error "resource '<id>' does not exist" with
    the provider's status) or outputs but no inputs (the error that the
    provider does not support importing, with [StatusOK]). *)
Theorem ImportStep_read_fails (s : ImportStep.t) (preview : bool) (w : World) prov read rst e :
  Custom (ImportStep.new s) = true ->
  ImportStep.checkPlanned s w = Ok None w ->
  getProvider s w = Ok (inl prov) w ->
  importAnswer s prov = (read, rst, e) ->
  (exists msg, e = Some (plugin_error.Other msg)) \/
  plugin.rOutputs read = None \/ plugin.rInputs read = None ->
  exists s' st msg,
    ImportStep.Apply s preview w = Ok (s', (st, None, Some msg)) (called w (importCall s)) /\
    ImportStep.original s' = ImportStep.original s /\
    ImportStep.old s' = ImportStep.old s /\
    match e with
    | Some (plugin_error.Other m) => st = rst /\ msg = FromProvider (plugin_error.Other m)
    | _ =>
        match plugin.rOutputs read with
        | None => st = rst /\
                  msg = errorString ("resource '" +:+ ID (ImportStep.new s) +:+
                                     "' does not exist")
        | Some _ =>
            st = StatusOK /\
            msg = errorString ("provider does not support importing resources; " +:+
                               "please try updating the '" +:+
                               TypePackage (URNType (URN (ImportStep.new s))) +:+ "' plugin")
        end
    end.
Proof.
  intros C K P A G. unfold ImportStep.Apply, importAnswer in *.
  rewrite (bind_Ok _ _ _ _ _ K). rewrite C. rewrite (bind_Ok _ _ _ _ _ P). run. rewrite A.
  destruct e as [[reasons|m]|].
  - destruct G as [(msg & [=])|G].
    destruct (plugin.rOutputs read) as [outs|] eqn:Outs.
    + destruct G as [[=]|In]. rewrite In.
      eexists _, _, _. split; [reflexivity|]. simpl. auto.
    + eexists _, _, _. split; [reflexivity|]. simpl. auto.
  - eexists _, _, _. split; [reflexivity|]. simpl. auto.
  - destruct G as [(msg & [=])|G].
    destruct (plugin.rOutputs read) as [outs|] eqn:Outs.
    + destruct G as [[=]|In]. rewrite In.
      eexists _, _, _. split; [reflexivity|]. simpl. auto.
    + eexists _, _, _. split; [reflexivity|]. simpl. auto.
Qed.
End ImportMore.

Lemma ImportStep_component_witness :
  let n := Examples.state "urn:k" "my:component:Type" false EmptyString in
  let s := ImportStep.mk None (Some 0%nat) None None n false false [] ∅ [] [] in
  exists s' o,
    ImportStep.Apply s false (Examples.world 11) =
      Ok (s', (StatusOK, Some (DoneReg (Some 0%nat)), None)) (Examples.world 11) /\
    Outputs (ImportStep.new s') = Some ∅ /\
    Created (ImportStep.new s') = Some 11 /\
    ImportStep.old s' = Some o /\ Inputs o = Some ∅.
Proof.
  intros n s.
  destruct (ImportStep_component s false (Examples.world 11) eq_refl eq_refl)
    as (s' & o & E & Ou & _ & _ & Cr & _ & _ & Ol & _ & _ & _ & In & _).
  exists s', o. split; [exact E|]. split; [exact Ou|]. split; [exact Cr|].
  split; [exact Ol|exact In].
Defined.

Lemma ImportStep_planned_guards_witness :
  let p := Examples.provider "id" StatusOK None Examples.noRead in
  let n := Examples.state "urn:i" "aws:s3/bucket:Bucket" true "i" in
  let d := Deployment.mk false p (fun _ => Some p) (fun _ => mret None) {[ "urn:i" := n ]} ∅ [] in
  let s := ImportStep.mk (Some d) (Some 0%nat) None None n false true [] ∅ [] [1] in
  ImportStep.Apply s false (Examples.world 0) =
    Ok (s, (StatusOK, None, Some (errorString "resource 'urn:i' already exists")))
       (Examples.world 0).
Proof.
  intros p n d s.
  apply (proj1 (ImportStep_planned_guards s false (Examples.world 0) d eq_refl eq_refl)).
  eexists. reflexivity.
Defined.

Lemma ImportStep_read_fails_witness :
  let read := plugin.mkRead EmptyString None (Examples.outs "a" "1") in
  let p := Examples.provider "id" StatusOK None read in
  let d := Examples.deployment p None in
  let n := Examples.state "urn:i" "aws:s3/bucket:Bucket" true "i" in
  let s := ImportStep.mk (Some d) (Some 0%nat) None None n false false [] ∅ [] [1] in
  exists s' st msg,
    ImportStep.Apply s false (Examples.world 0) =
      Ok (s', (st, None, Some msg)) (called (Examples.world 0) (importCall s)) /\
    st = StatusOK /\
    msg = errorString ("provider does not support importing resources; " +:+
                       "please try updating the '" +:+ "urn:i" +:+ "' plugin").
Proof.
  intros read p d n s.
  edestruct (ImportStep_read_fails s false (Examples.world 0) p read StatusOK None)
    as (s' & st & msg & E & _ & _ & St & M); try reflexivity.
  { right. right. reflexivity. }
  exists s', st, msg. split; [exact E|]. split; [exact St|exact M].
Defined.

(** ** Steps that only read *)




(** Take a returned bind apart: [E : (m ≫= f) w = Ok b w'] becomes
    [E1 : m w = Ok x w1] and [E : f x w1 = Ok b w']. *)
Tactic Notation "split_bind" hyp(E) "as" ident(x) ident(w1) ident(E1) :=
  apply bind_inv in E as (x & w1 & E1 & E).









Section OnlyReads.
Context `{Externals} `{Sentinels}.





End OnlyReads.


(** ** The import steps that the constructors return *)

Section BuiltImports.
Context `{Externals}.

(** X30: the import steps that the constructors return have their
    [original] whenever they are replacing, a new state that is neither
    external nor marked for deletion, and no fetched state yet.
    [NewImportStep] and [NewImportReplacementStep] build adoptions, not
    planned, of a custom resource with an ID, an [import] that is logical and
    an [import-replacement] that is not; [newImportDeploymentStep] builds a
    planned [import], which needs an ID only for a custom resource. *)
Theorem constructed_import_steps :
  (forall deployment reg new ignoreChanges randomSeed w w' s,
      NewImportStep deployment reg new ignoreChanges randomSeed w = Ok s w' ->
      w' = w /\ hasOriginalIfReplacing s /\ new = Some (ImportStep.new s) /\
      External (ImportStep.new s) = false /\ Delete (ImportStep.new s) = false /\
      ImportStep.old s = None /\
      Custom (ImportStep.new s) = true /\ ID (ImportStep.new s) <> EmptyString /\
      ImportStep.planned s = false /\ ImportStep.original s = None /\
      ImportStep_Op s = OpImport /\ ImportStep_Logical s = true) /\
  (forall deployment reg original new ignoreChanges randomSeed w w' s,
      NewImportReplacementStep deployment reg original new ignoreChanges randomSeed w =
        Ok s w' ->
      w' = w /\ hasOriginalIfReplacing s /\ new = Some (ImportStep.new s) /\
      External (ImportStep.new s) = false /\ Delete (ImportStep.new s) = false /\
      ImportStep.old s = None /\
      Custom (ImportStep.new s) = true /\ ID (ImportStep.new s) <> EmptyString /\
      ImportStep.planned s = false /\
      is_Some original /\ ImportStep.original s = original /\
      ImportStep_Op s = OpImportReplacement /\ ImportStep_Logical s = false) /\
  (forall deployment new randomSeed w w' s,
      newImportDeploymentStep deployment new randomSeed w = Ok s w' ->
      w' = w /\ hasOriginalIfReplacing s /\ new = Some (ImportStep.new s) /\
      External (ImportStep.new s) = false /\ Delete (ImportStep.new s) = false /\
      ImportStep.old s = None /\
      (Custom (ImportStep.new s) = true ->
       ID (ImportStep.new s) <> EmptyString /\ is_Some randomSeed) /\
      ImportStep.planned s = true /\ ImportStep.original s = None /\
      ImportStep_Op s = OpImport /\ ImportStep_Logical s = true).
Proof.
  unfold hasOriginalIfReplacing, ImportStep_Op, ImportStep_Logical. split; [|split].
  - intros deployment reg new ignoreChanges randomSeed w w' s. hide_conclusion.
    unfold NewImportStep. destruct new, randomSeed; required.
    intros [= <- <-]. subst Concl. simpl.
    repeat match goal with E : negb _ = true |- _ => apply negb_true_iff in E end.
    split; [auto|]. split; [discriminate|]. do 5 (split; [auto|]).
    split; [intros Em; rewrite Em in *; discriminate|]. auto.
  - intros deployment reg original new ignoreChanges randomSeed w w' s. hide_conclusion.
    unfold NewImportReplacementStep. destruct original, new, randomSeed; required.
    intros [= <- <-]. subst Concl. simpl.
    repeat match goal with E : negb _ = true |- _ => apply negb_true_iff in E end.
    split; [auto|]. split; [eauto|]. do 5 (split; [auto|]).
    split; [intros Em; rewrite Em in *; discriminate|]. split; [auto|].
    split; [eauto|]. auto.
  - intros deployment new randomSeed w w' s. hide_conclusion.
    unfold newImportDeploymentStep. destruct new as [n|]; [|required].
    unfold Requiref. run.
    destruct (negb (isEmpty (URN n))); simpl; [|discriminate].
    destruct (negb (Custom n) || negb (isEmpty (ID n))) eqn:Ic; simpl; [|discriminate].
    destruct (negb (Delete n)) eqn:Dl; simpl; [|discriminate].
    destruct (negb (External n)) eqn:Ex; simpl; [|discriminate].
    destruct (negb (Custom n) || bool_decide (is_Some randomSeed)) eqn:Sd; simpl;
      [|discriminate].
    intros [= <- <-]. subst Concl. simpl.
    apply negb_true_iff in Dl, Ex.
    split; [auto|]. split; [discriminate|]. do 4 (split; [auto|]).
    split; [|auto 10]. intros Cu. rewrite Cu in Ic, Sd. simpl in Ic, Sd. split.
    + intros Em. rewrite Em in Ic. discriminate.
    + now apply bool_decide_eq_true in Sd.
Qed.
End BuiltImports.

Lemma constructed_import_steps_witness :
  let orig := Examples.state "urn:i" "aws:s3/bucket:Bucket" true "i-old" in
  let n := Examples.state "urn:i" "aws:s3/bucket:Bucket" true "i-new" in
  let s := ImportStep.mk None (Some 0%nat) (Some orig) None n true false [] ∅ [] [1] in
  NewImportReplacementStep None (Some 0%nat) (Some orig) (Some n) [] (Some [1])
    (Examples.world 0) = Ok s (Examples.world 0) /\
  hasOriginalIfReplacing s /\ ImportStep_Op s = OpImportReplacement.
Proof.
  intros orig n s. split; [reflexivity|].
  destruct (proj1 (proj2 constructed_import_steps) None (Some 0%nat) (Some orig) (Some n) []
              (Some [1]) (Examples.world 0) (Examples.world 0) s eq_refl)
    as (_ & O & _ & _ & _ & _ & _ & _ & _ & _ & _ & Op & _).
  split; [exact O|exact Op].
Defined.
